(** * Endpoints Telegram bot: intent parser, session store and orchestrator

    A shallow embedding of [src/utils/parser.ts], [src/services/state.ts],
    [src/services/endpoints-api.ts] and the handlers under [src/handlers/],
    with the properties the specification states about them. *)

From Stdlib Require Import ZArith Lia String Ascii.
From stdpp Require Import base option list gmap.

Local Open Scope Z_scope.

(* ===================================================================== *)
(** * JavaScript strings *)
(* ===================================================================== *)

(** A JavaScript string is a finite sequence of UTF-16 code units; a code
    unit is modelled as an integer, in [0, 65536) for every string the
    program can receive.  String literals of the source that are plain
    ASCII are written with [str]. *)
Module Js.

Definition str (s : string) : list Z :=
  map (fun a => Z.of_N (N_of_ascii a)) (list_ascii_of_string s).

(** ECMAScript [WhiteSpace] and [LineTerminator] code points: the set
    removed by [String.prototype.trim] and matched by the regular
    expression class [\s]. *)
Definition isLineTerminator (c : Z) : bool :=
  (c =? 10) || (c =? 13) || (c =? 8232) || (c =? 8233).

Definition isWhiteSpace (c : Z) : bool :=
  ((9 <=? c) && (c <=? 13)) || (c =? 32) || (c =? 160) || (c =? 5760)
  || ((8192 <=? c) && (c <=? 8202)) || (c =? 8232) || (c =? 8233)
  || (c =? 8239) || (c =? 8287) || (c =? 12288) || (c =? 65279).

Fixpoint trimStart (s : list Z) : list Z :=
  match s with
  | c :: s' => if isWhiteSpace c then trimStart s' else s
  | [] => []
  end.

Definition trimEnd (s : list Z) : list Z := rev (trimStart (rev s)).

Definition trim (s : list Z) : list Z := trimEnd (trimStart s).

(** [String.prototype.toLowerCase], one code unit at a time.  The table
    covers ASCII, the Latin-1 capitals, and the two code points outside
    ASCII whose lower case contains an ASCII letter (U+0130 and the
    Kelvin sign U+212A).  Every other unit is left as it is: the parser
    only compares the lowered text with ASCII literals, and no unit
    outside this table lowers to an ASCII unit. *)
Definition lowerUnit (c : Z) : list Z :=
  if (65 <=? c) && (c <=? 90) then [c + 32]
  else if (192 <=? c) && (c <=? 222) && negb (c =? 215) then [c + 32]
  else if c =? 304 then [105; 775]
  else if c =? 8490 then [107]
  else [c].

Definition toLowerCase (s : list Z) : list Z := concat (map lowerUnit s).

(** [s.startsWith(p)] *)
Fixpoint startsWith (p s : list Z) : bool :=
  match p, s with
  | [], _ => true
  | a :: p', c :: s' => (a =? c) && startsWith p' s'
  | _ :: _, [] => false
  end.

(** [a === b] on strings *)
Fixpoint streq (a b : list Z) : bool :=
  match a, b with
  | [], [] => true
  | x :: a', y :: b' => (x =? y) && streq a' b'
  | _, _ => false
  end.

(** [s.split(sep)] for a one-unit separator: never the empty array. *)
Fixpoint split (sep : Z) (s : list Z) : list (list Z) :=
  match s with
  | [] => [[]]
  | c :: s' =>
      if c =? sep then [] :: split sep s'
      else match split sep s' with
           | l :: ls => (c :: l) :: ls
           | [] => [[c]]
           end
  end.

(** [parts.join(sep)] *)
Fixpoint join (sep : list Z) (parts : list (list Z)) : list Z :=
  match parts with
  | [] => []
  | [p] => p
  | p :: ps => p ++ sep ++ join sep ps
  end.

(** [xs.slice(1)] on an array *)
Definition slice1 {A} (xs : list A) : list A := drop 1 xs.

(** [s.slice(0, n)] on a string, for [n] within [0, 2^53) *)
Definition slice0 (n : nat) (s : list Z) : list Z := take n s.

(** JavaScript truthiness of [string | undefined] *)
Definition truthy (o : option (list Z)) : bool :=
  match o with
  | Some (_ :: _) => true
  | _ => false
  end.

(** [v || undefined] on a string *)
Definition orUndefined (s : list Z) : option (list Z) :=
  match s with
  | [] => None
  | _ => Some s
  end.

End Js.

(* ===================================================================== *)
(** * Intent parser ([src/utils/parser.ts]) *)
(* ===================================================================== *)

Module Parser.
Import Js.

Inductive MessageType := TScan | TText | TGet | TFile | TList | TUnknown.

(** [interface ParsedMessage]: the optional fields are [None] when the
    key is absent or [undefined]. *)
Record ParsedMessage := mkParsed {
  type : MessageType;
  prompt : option (list Z);
  content : option (list Z);
  path : option (list Z)
}.

(** ** The regular expressions of [parseMessage] *)

(** [Canonicalize] of the case-insensitive flag without the unicode flag:
    a unit is compared through its upper case, and a unit at or above 128
    is never identified with an ASCII unit. *)
Definition canonicalize (c : Z) : Z :=
  if (97 <=? c) && (c <=? 122) then c - 32 else c.

(** [^lit] under the [i] flag: the subject after the literal. *)
Fixpoint matchLiteral (lit s : list Z) : option (list Z) :=
  match lit, s with
  | [], _ => Some s
  | a :: lit', c :: s' =>
      if canonicalize a =? canonicalize c then matchLiteral lit' s' else None
  | _ :: _, [] => None
  end.

(** [(.+)] at the end of a pattern.  With the [s] flag the dot matches
    every unit; without it the dot stops at a line terminator.  The
    quantifier is greedy and nothing follows it, so the capture is the
    longest run; it must not be empty. *)
Fixpoint dotRun (s : list Z) : list Z :=
  match s with
  | c :: s' => if isLineTerminator c then [] else c :: dotRun s'
  | [] => []
  end.

Definition dotPlus (dotAll : bool) (s : list Z) : option (list Z) :=
  orUndefined (if dotAll then s else dotRun s).

(** [\s*] followed by the continuation [k]: greedy, with backtracking.
    One more white-space unit is tried first; when the rest of the
    pattern then fails the star gives the unit back. *)
Fixpoint wsStar {A} (k : list Z -> option A) (s : list Z) : option A :=
  match s with
  | c :: s' =>
      if isWhiteSpace c then
        match wsStar k s' with
        | Some r => Some r
        | None => k s
        end
      else k s
  | [] => k []
  end.

(** [subject.match(/^lit\s*(.+)/i)] and, with [dotAll], [/^lit\s*(.+)/is]:
    the first capture group, or [None] for a [null] match. *)
Definition matchPrefix (lit : list Z) (dotAll : bool) (subject : list Z)
  : option (list Z) :=
  match matchLiteral lit subject with
  | Some rest => wsStar (dotPlus dotAll) rest
  | None => None
  end.

Definition newline : Z := 10.
Definition slash : Z := 47.

(** [if (!path.startsWith('/')) path = '/' + path] *)
Definition ensureSlash (p : list Z) : list Z :=
  if startsWith [slash] p then p else slash :: p.

(** [parseMessage(text)]; [None] stands for a thrown exception.  The one
    step of the function that can throw is [lines[0].trim()], when
    [lines[0]] is [undefined]. *)
Definition parseMessage (text : list Z) : option ParsedMessage :=
  let trimmed := trim text in
  let lower := toLowerCase trimmed in
  if streq lower (str "list") || streq lower (str "/list") then
    Some (mkParsed TList None None None)
  else
    match matchPrefix (str "scan:") true trimmed with
    | Some afterPrefix =>
        let lines := split newline afterPrefix in
        match lines !! 0%nat with
        | Some line0 =>
            let prompt := trim line0 in
            let content := trim (join [newline] (slice1 lines)) in
            Some (mkParsed TScan (Some prompt) (orUndefined content) None)
        | None => None
        end
    | None =>
    match matchPrefix (str "text:") true trimmed with
    | Some m => Some (mkParsed TText None (Some (trim m)) None)
    | None =>
    match matchPrefix (str "get:") false trimmed with
    | Some m => Some (mkParsed TGet None None (Some (ensureSlash (trim m))))
    | None =>
    match matchPrefix (str "file:") false trimmed with
    | Some m => Some (mkParsed TFile None None (Some (ensureSlash (trim m))))
    | None => Some (mkParsed TUnknown None None None)
    end end end end.

Definition isFileCaption (text : list Z) : bool :=
  let trimmed := trim text in
  let lower := toLowerCase trimmed in
  if startsWith (str "scan:") lower
     || startsWith (str "text:") lower
     || startsWith (str "get:") lower
     || startsWith (str "file:") lower
     || streq lower (str "list")
     || startsWith (str "/") lower
  then false
  else (0 <? Z.of_nat (length trimmed)) && (Z.of_nat (length trimmed) <? 100).

Definition lt_sign : Z := 60.
Definition gt_sign : Z := 62.

(** [input.replace(/[<>]/g, '')] *)
Definition stripAngle (s : list Z) : list Z :=
  filter (fun c => negb ((c =? lt_sign) || (c =? gt_sign)) = true) s.

Definition MAX_LENGTH : nat := 1000.

Definition sanitize (input : list Z) : list Z :=
  slice0 MAX_LENGTH (trim (stripAngle input)).

(** [path.replace(/^\/+/, '')] *)
Fixpoint stripLeadingSlashes (s : list Z) : list Z :=
  match s with
  | c :: s' => if c =? slash then stripLeadingSlashes s' else s
  | [] => []
  end.

(** [path.replace(/\/+$/, '')] *)
Definition stripTrailingSlashes (s : list Z) : list Z :=
  rev (stripLeadingSlashes (rev s)).

(** [Boolean(part)] on a string *)
Definition nonEmpty (part : list Z) : bool :=
  match part with
  | [] => false
  | _ => true
  end.

Record PathParts := mkPathParts {
  category : list Z;
  slug : option (list Z)
}.

(** [parsePath(path)]; [None] is [null]. *)
Definition parsePath (path : list Z) : option PathParts :=
  let cleaned := stripTrailingSlashes (stripLeadingSlashes path) in
  let parts := List.filter nonEmpty (split slash cleaned) in
  match parts with
  | [] => None
  | first :: rest =>
      Some (mkPathParts first
              (match rest with
               | [] => None
               | _ => Some (join [slash] rest)
               end))
  end.

End Parser.

(* ===================================================================== *)
(** * Byte codecs used by the session store *)
(* ===================================================================== *)

(** A byte is an integer in [0, 256).  The encodings below are the ones
    [src/services/state.ts] asks Node for by name: ['hex'] and ['utf8']. *)
Module Codec.

Definition is_byte (b : Z) : Prop := 0 <= b < 256.

(** ** ['hex'] *)

Definition hexDigit (n : Z) : Z := if n <? 10 then 48 + n else 87 + n.

Definition hexByte (b : Z) : list Z := [hexDigit (b / 16); hexDigit (b mod 16)].

(** [buf.toString('hex')] *)
Definition toHex (bs : list Z) : list Z := concat (map hexByte bs).

Definition hexValue (c : Z) : option Z :=
  if (48 <=? c) && (c <=? 57) then Some (c - 48)
  else if (97 <=? c) && (c <=? 102) then Some (c - 87)
  else if (65 <=? c) && (c <=? 70) then Some (c - 55)
  else None.

(** [Buffer.from(s, 'hex')]: pairs of digits are read while they are
    valid; decoding stops at the first pair that is not, and a trailing
    single digit is dropped. *)
Fixpoint fromHex (s : list Z) : list Z :=
  match s with
  | a :: t =>
      match t with
      | b :: s' =>
          match hexValue a, hexValue b with
          | Some x, Some y => (16 * x + y) :: fromHex s'
          | _, _ => []
          end
      | [] => []
      end
  | [] => []
  end.

(** ** ['utf8'] *)

Definition isHighSurrogate (c : Z) : bool := (55296 <=? c) && (c <=? 56319).
Definition isLowSurrogate (c : Z) : bool := (56320 <=? c) && (c <=? 57343).

Definition REPLACEMENT : Z := 65533.

Definition codePoint (hi lo : Z) : Z := 65536 + (hi - 55296) * 1024 + (lo - 56320).

(** The UTF-8 bytes of one code point. *)
Definition utf8Bytes (cp : Z) : list Z :=
  if cp <? 128 then [cp]
  else if cp <? 2048 then [192 + cp / 64; 128 + cp mod 64]
  else if cp <? 65536 then
    [224 + cp / 4096; 128 + (cp / 64) mod 64; 128 + cp mod 64]
  else
    [240 + cp / 262144; 128 + (cp / 4096) mod 64; 128 + (cp / 64) mod 64;
     128 + cp mod 64].

(** String to bytes, as [cipher.update(text, 'utf8', _)] reads its input:
    a surrogate pair is one code point, and a surrogate that is not part
    of a pair is written as U+FFFD. *)
Fixpoint utf8Encode (s : list Z) : list Z :=
  match s with
  | [] => []
  | c :: s' =>
      if isHighSurrogate c then
        match s' with
        | d :: s'' =>
            if isLowSurrogate d then utf8Bytes (codePoint c d) ++ utf8Encode s''
            else utf8Bytes REPLACEMENT ++ utf8Encode s'
        | [] => utf8Bytes REPLACEMENT
        end
      else if isLowSurrogate c then utf8Bytes REPLACEMENT ++ utf8Encode s'
      else utf8Bytes c ++ utf8Encode s'
  end.

(** The UTF-16 code units of one code point. *)
Definition utf16Units (cp : Z) : list Z :=
  if cp <? 65536 then [cp]
  else [55296 + (cp - 65536) / 1024; 56320 + (cp - 65536) mod 1024].

(** State of the decoder inside a multi-byte sequence: the code point
    read so far, the continuation bytes still needed, and the bounds the
    next byte must respect. *)
Record DecState := mkDec {
  dCodePoint : Z;
  dNeeded : nat;
  dLower : Z;
  dUpper : Z
}.

(** A byte read outside a sequence: the units it yields, and the state
    it opens. *)
Definition decodeLead (b : Z) : list Z * option DecState :=
  if (0 <=? b) && (b <=? 127) then ([b], None)
  else if (194 <=? b) && (b <=? 223) then ([], Some (mkDec (b - 192) 1 128 191))
  else if (224 <=? b) && (b <=? 239) then
    ([], Some (mkDec (b - 224) 2 (if b =? 224 then 160 else 128)
                     (if b =? 237 then 159 else 191)))
  else if (240 <=? b) && (b <=? 244) then
    ([], Some (mkDec (b - 240) 3 (if b =? 240 then 144 else 128)
                     (if b =? 244 then 143 else 191)))
  else ([REPLACEMENT], None).

(** Bytes to string, as [decipher.update(_, _, 'utf8')] followed by
    [decipher.final('utf8')] writes its output: the standard decoder.
    An ill-formed sequence yields U+FFFD and the offending byte is read
    again as a lead byte; an unfinished sequence at the end yields
    U+FFFD. *)
Fixpoint utf8DecodeFrom (st : option DecState) (bs : list Z) : list Z :=
  match bs with
  | [] => match st with Some _ => [REPLACEMENT] | None => [] end
  | b :: bs' =>
      match st with
      | None =>
          let '(out, st') := decodeLead b in out ++ utf8DecodeFrom st' bs'
      | Some d =>
          if (dLower d <=? b) && (b <=? dUpper d) then
            let cp := dCodePoint d * 64 + (b - 128) in
            match dNeeded d with
            | S (S n) => utf8DecodeFrom (Some (mkDec cp (S n) 128 191)) bs'
            | _ => utf16Units cp ++ utf8DecodeFrom None bs'
            end
          else
            let '(out, st') := decodeLead b in
            REPLACEMENT :: out ++ utf8DecodeFrom st' bs'
      end
  end.

Definition utf8Decode (bs : list Z) : list Z := utf8DecodeFrom None bs.

(** A string without unpaired surrogates whose units all are 16-bit. *)
Fixpoint wellFormed (s : list Z) : bool :=
  match s with
  | [] => true
  | c :: s' =>
      if isHighSurrogate c then
        match s' with
        | d :: s'' => isLowSurrogate d && wellFormed s''
        | [] => false
        end
      else negb (isLowSurrogate c) && (0 <=? c) && (c <? 65536) && wellFormed s'
  end.

End Codec.

(* ===================================================================== *)
(** * Session store ([src/services/state.ts]) *)
(* ===================================================================== *)

(** [createCipheriv('aes-256-cbc', getEncryptionKey(), iv)] and
    [createDecipheriv] with the same arguments.  The key is the SHA-256
    digest of the operator's secret, fixed when the module is loaded, so
    it is part of the cipher.  [cbcEncrypt iv p] is the bytes that
    [update(p)] followed by [final()] produce; [cbcDecrypt iv h] is the
    bytes that [update(h, 'hex')] followed by [final()] produce from the
    hexadecimal text [h], and [None] when either throws. *)
Class Cipher := {
  cbcEncrypt : list Z -> list Z -> list Z;
  cbcDecrypt : list Z -> list Z -> option (list Z)
}.

(** What the block cipher guarantees on a 16-byte IV and a byte string:
    under the same IV, decrypting the hexadecimal form of the ciphertext
    gives the plaintext back. *)
Class CipherCorrect (C : Cipher) : Prop := {
  cbc_inverse : forall iv p,
    length iv = 16%nat -> Forall Codec.is_byte iv -> Forall Codec.is_byte p ->
    cbcDecrypt iv (Codec.toHex (cbcEncrypt iv p)) = Some p
}.

(** [interface UserSession]: each field is optional. *)
Record UserSession := mkSession {
  apiKey : option (list Z);
  lastPrompt : option (list Z);
  linkedAt : option (list Z)
}.

(** [Partial<UserSession>]: [None] when the key is not in the object
    literal, [Some v] when it is, with value [v]. *)
Record SessionUpdate := mkUpdate {
  uApiKey : option (option (list Z));
  uLastPrompt : option (option (list Z));
  uLinkedAt : option (option (list Z))
}.

Module Session.
Import Js Codec.

Section WithCipher.
Context {C : Cipher}.

Definition colon : Z := 58.
Definition IV_LENGTH : nat := 16.

(** [encrypt(text)], with the 16 bytes drawn by [randomBytes(16)] made
    an argument. *)
Definition encrypt (iv : list Z) (text : list Z) : list Z :=
  toHex iv ++ [colon] ++ toHex (cbcEncrypt iv (utf8Encode text)).

(** [decrypt(encryptedText)]; [None] when it throws: no second part
    after the colon, an IV that is not 16 bytes, or a cipher that
    rejects the text. *)
Definition decrypt (encryptedText : list Z) : option (list Z) :=
  match split colon encryptedText with
  | ivHex :: encrypted :: _ =>
      let iv := fromHex ivHex in
      if Nat.eqb (length iv) IV_LENGTH then
        match cbcDecrypt iv encrypted with
        | Some bytes => Some (utf8Decode bytes)
        | None => None
        end
      else None
  | _ => None
  end.

Definition emptySession : UserSession := mkSession None None None.

(** The Keyv namespace ['sessions'], keyed by [String(userId)]. *)
Definition getSession (store : gmap Z UserSession) (userId : Z) : UserSession :=
  match store !! userId with
  | None => emptySession
  | Some data =>
      match apiKey data with
      | Some (c :: ct) =>
          match decrypt (c :: ct) with
          | Some plain => mkSession (Some plain) (lastPrompt data) (linkedAt data)
          | None => mkSession None (lastPrompt data) (linkedAt data)
          end
      | _ => data
      end
  end.

Definition saveSession (iv : list Z) (store : gmap Z UserSession) (userId : Z)
    (session : UserSession) : gmap Z UserSession :=
  let dataToSave :=
    match apiKey session with
    | Some (c :: k) =>
        mkSession (Some (encrypt iv (c :: k))) (lastPrompt session) (linkedAt session)
    | _ => session
    end in
  <[userId := dataToSave]> store.

(** [{ ...current, ...updates }] *)
Definition merge (current : UserSession) (updates : SessionUpdate) : UserSession :=
  mkSession (default (apiKey current) (uApiKey updates))
            (default (lastPrompt current) (uLastPrompt updates))
            (default (linkedAt current) (uLinkedAt updates)).

Definition updateSession (iv : list Z) (store : gmap Z UserSession) (userId : Z)
    (updates : SessionUpdate) : UserSession * gmap Z UserSession :=
  let current := getSession store userId in
  let updated := merge current updates in
  (updated, saveSession iv store userId updated).

(** [setApiKey]; [now] is [new Date().toISOString()]. *)
Definition setApiKey (iv now : list Z) (store : gmap Z UserSession) (userId : Z)
    (key : list Z) : gmap Z UserSession :=
  (updateSession iv store userId
     (mkUpdate (Some (Some key)) None (Some (Some now)))).2.

Definition getApiKey (store : gmap Z UserSession) (userId : Z) : option (list Z) :=
  apiKey (getSession store userId).

Definition setLastPrompt (iv : list Z) (store : gmap Z UserSession) (userId : Z)
    (p : list Z) : gmap Z UserSession :=
  (updateSession iv store userId (mkUpdate None (Some (Some p)) None)).2.

Definition getLastPrompt (store : gmap Z UserSession) (userId : Z) : option (list Z) :=
  lastPrompt (getSession store userId).

Definition clearSession (store : gmap Z UserSession) (userId : Z) : gmap Z UserSession :=
  delete userId store.

Definition hasApiKey (store : gmap Z UserSession) (userId : Z) : bool :=
  truthy (apiKey (getSession store userId)).

End WithCipher.
End Session.

(** A small cipher with the shape of the real one, to run the store on
    concrete data: every byte is shifted by 90 modulo 256 and one
    trailing byte plays the part of the padding, so that decrypting a
    text that was not produced by it fails. *)
Module ToyCipher.

Definition shift (k b : Z) : Z := (b + k) mod 256.

Definition toyEncrypt (iv p : list Z) : list Z := map (shift 90) p ++ [1].

Definition toyDecrypt (iv h : list Z) : option (list Z) :=
  match rev (Codec.fromHex h) with
  | 1 :: r => Some (map (shift 166) (rev r))
  | _ => None
  end.

Definition toyCipher : Cipher :=
  {| cbcEncrypt := toyEncrypt; cbcDecrypt := toyDecrypt |}.

End ToyCipher.

(* ===================================================================== *)
(** * Backend client ([src/services/endpoints-api.ts]) *)
(* ===================================================================== *)

Module Api.
Import Js.

(** What a [catch] clause receives: an [Error] with its message, or any
    other thrown value. *)
Inductive Thrown := ErrorObject (message : list Z) | OtherValue.

(** [error instanceof Error ? error.message : 'Unknown error'] *)
Definition errorMessage (e : Thrown) : list Z :=
  match e with
  | ErrorObject m => m
  | OtherValue => str "Unknown error"
  end.

(** The outcome of the statements inside a [try] block around
    [apiRequest]: an exception (from [fetch], from a status that is not
    2xx, from [response.json()], or from reading the body), or the JSON
    body. *)
Inductive Outcome (A : Type) := Threw (e : Thrown) | Returned (a : A).
Arguments Threw {A} e.
Arguments Returned {A} a.

Definition Entities := list (list Z * list Z).

Record Endpoint := mkEndpoint {
  epPath : list Z;
  epCategory : list Z;
  epSlug : list Z
}.

Record Item := mkItem {
  itemId : list Z;
  itemTitle : list Z;
  itemEntities : Entities
}.

Record ScanResult := mkScanResult {
  success : bool;
  endpoint : option Endpoint;
  item : option Item;
  error : option (list Z)
}.

Record EndpointListItem := mkListItem {
  liPath : list Z;
  liCategory : list Z;
  liSlug : list Z;
  liItemCount : Z
}.

Record DataItem := mkDataItem {
  diId : list Z;
  diTitle : list Z;
  diCreatedAt : list Z;
  diEntities : Entities
}.

Record EndpointData := mkEndpointData {
  dPath : list Z;
  dItems : list DataItem;
  dTotalItems : Z
}.

Record EndpointDataResult := mkDataResult {
  dSuccess : bool;
  dData : option EndpointData;
  dError : option (list Z)
}.

Record Usage := mkUsage {
  parsesThisMonth : Z;
  parseLimit : Z;
  tier : list Z;
  storageUsed : Z;
  storageLimit : Z
}.

Record StatsResult := mkStatsResult {
  sSuccess : bool;
  sUsage : option Usage;
  sError : option (list Z)
}.

(** Body of [GET /api/billing/stats]. *)
Record BillingStats := mkBillingStats {
  bsTier : list Z;
  parsesUsed : Z;
  parsesLimit : Z;
  bsStorageUsed : Z;
  bsStorageLimit : Z
}.

(** ** JSON bodies of the backend *)

(** One value of a metadata object. *)
Record ItemData := mkItemData {
  summary : option (list Z);
  createdAt : option (list Z);
  entities : option Entities
}.

(** Body of [POST /api/scan]; [spNewMetadata] is
    [Object.keys(result.metadata?.newMetadata || {})] with the values. *)
Record ScanPayload := mkScanPayload {
  spEndpoint : option Endpoint;
  spNewMetadata : list (list Z * ItemData)
}.

Record TreeEndpoint := mkTreeEndpoint {
  tePath : list Z;
  teSlug : list Z;
  teItemCount : option Z
}.

Record Category := mkCategory {
  catName : list Z;
  catEndpoints : list TreeEndpoint
}.

(** Body of [GET /api/endpoints/<path>]; [epAllMetadata] is
    [Object.entries({ ...oldMetadata, ...newMetadata })]. *)
Record EndpointPayload := mkEndpointPayload {
  eppPath : option (list Z);
  epAllMetadata : list (list Z * ItemData);
  epTotalItems : Z
}.

(** A file body handed to [scanFile]. *)
Inductive Blob :=
  | Downloaded (bytes : list Z)
  | FromBase64 (text : list Z).

(** The requests the client sends, with what each carries. *)
Inductive Request :=
  | PostScanText (apiKey prompt texts : list Z)
  | PostScanFile (apiKey prompt : list Z) (file : Blob) (filename mimeType : list Z)
                 (isClawdbotTranscript : option bool)
  | GetTree (apiKey : list Z)
  | GetEndpoint (apiKey apiPath : list Z)
  | GetBillingStats (apiKey : list Z).

(** The HTTP layer: what each request comes back with. *)
Record Backend := mkBackend {
  postScan : Request -> Outcome ScanPayload;
  getTree : Request -> Outcome (list Category);
  getEndpointBody : Request -> Outcome EndpointPayload;
  getBillingStats : Request -> Outcome BillingStats
}.

(** [s || d] on a string *)
Definition orElse (s : option (list Z)) (d : list Z) : list Z :=
  match s with
  | Some (c :: r) => c :: r
  | _ => d
  end.

(** The first item of [newMetadata], as [scanText] and [scanFile]
    extract it. *)
Definition firstItem (p : ScanPayload) : option Item :=
  match spNewMetadata p with
  | (c :: id, d) :: _ =>
      Some (mkItem (c :: id) (orElse (summary d) (str "Scanned item"))
                   (default [] (entities d)))
  | _ => None
  end.

Definition scanOutcome (o : Outcome ScanPayload) : ScanResult :=
  match o with
  | Returned r => mkScanResult true (spEndpoint r) (firstItem r) None
  | Threw e => mkScanResult false None None (Some (errorMessage e))
  end.

Definition scanTextRequest (apiKey prompt text : list Z) : Request :=
  PostScanText apiKey prompt text.

Definition scanText (b : Backend) (apiKey prompt text : list Z) : ScanResult :=
  scanOutcome (postScan b (scanTextRequest apiKey prompt text)).

(** Modelled from the spec: the six-argument [scanFile] that
    [handleCallbackQuery] calls is not among the sources; they hold the
    five-argument one.  Following the interface
    [scanFile(credential, prompt, bytes, filename, mimeType, options)]
    the options travel with the request and the result is built as in
    the five-argument function, which is the case [options = None]. *)
Definition scanFile (b : Backend) (apiKey prompt : list Z) (file : Blob)
    (filename mimeType : list Z) (options : option bool) : ScanResult :=
  scanOutcome (postScan b (PostScanFile apiKey prompt file filename mimeType options)).

Definition flattenCategory (c : Category) : list EndpointListItem :=
  map (fun ep => mkListItem (tePath ep) (catName c) (teSlug ep)
                            (default 0 (teItemCount ep)))
      (catEndpoints c).

Definition listEndpoints (b : Backend) (apiKey : list Z) : list EndpointListItem :=
  match getTree b (GetTree apiKey) with
  | Returned categories => concat (map flattenCategory categories)
  | Threw _ => []
  end.

Definition toDataItem (e : list Z * ItemData) : DataItem :=
  mkDataItem e.1 (orElse (summary e.2) (str "Item"))
             (default [] (createdAt e.2)) (default [] (entities e.2)).

Definition getEndpoint (b : Backend) (apiKey path : list Z) : EndpointDataResult :=
  let cleanPath := if startsWith (str "/") path then path else str "/" ++ path in
  let apiPath := str "/api/endpoints" ++ cleanPath in
  match getEndpointBody b (GetEndpoint apiKey apiPath) with
  | Returned r =>
      let items := map toDataItem (epAllMetadata r) in
      mkDataResult true
        (Some (mkEndpointData (orElse (eppPath r) path) items
                 (if epTotalItems r =? 0 then Z.of_nat (length items)
                  else epTotalItems r)))
        None
  | Threw e => mkDataResult false None (Some (errorMessage e))
  end.

Definition getStats (b : Backend) (apiKey : list Z) : StatsResult :=
  match getBillingStats b (GetBillingStats apiKey) with
  | Returned r =>
      mkStatsResult true
        (Some (mkUsage (parsesUsed r) (parsesLimit r) (bsTier r) (bsStorageUsed r)
                       (bsStorageLimit r)))
        None
  | Threw e => mkStatsResult false None (Some (errorMessage e))
  end.

Definition validateApiKey (b : Backend) (apiKey : list Z) : bool :=
  match getTree b (GetTree apiKey) with
  | Returned _ => true
  | Threw _ => false
  end.

End Api.

(* ===================================================================== *)
(** * Formatting helpers ([src/utils/formatters.ts]) *)
(* ===================================================================== *)

Module Formatters.
Import Js.

(** The values [Math.round] returns: an integer, [NaN], or an infinity. *)
Inductive Rounded := Finite (n : Z) | NaN | Infinite (positive : bool).

(** [Math.round(percent / 10)] on an integer: halves go up.  (Beyond
    2^49 the quotient is no longer exact; it is then far above 10 and
    [generateProgressBar] throws either way.) *)
Definition roundTenth (n : Z) : Z := (n + 5) / 10.

Definition FILLED : Z := 9619.
Definition EMPTY : Z := 9617.

(** [s.repeat(count)] for an integer count: a [RangeError], here [None],
    when the count is negative. *)
Definition repeat1 (c : Z) (count : Z) : option (list Z) :=
  if count <? 0 then None else Some (replicate (Z.to_nat count) c).

(** [generateProgressBar(percent)]; [None] when a [repeat] throws its
    [RangeError].  With [NaN] both counts are [NaN], which [repeat] reads
    as zero; with an infinity the first [repeat] throws. *)
Definition generateProgressBar (percent : Rounded) : option (list Z) :=
  match percent with
  | Finite n =>
      let filled := roundTenth n in
      let empty := 10 - filled in
      match repeat1 FILLED filled with
      | Some a =>
          match repeat1 EMPTY empty with
          | Some b => Some (a ++ b)
          | None => None
          end
      | None => None
      end
  | NaN => Some []
  | Infinite _ => None
  end.

Definition backslash : Z := 92.

(** The class [[_*[\]()~`>#+=|{}.!-]] *)
Definition isMarkdownSpecial (c : Z) : bool :=
  (c =? 95) || (c =? 42) || (c =? 91) || (c =? 93) || (c =? 40) || (c =? 41)
  || (c =? 126) || (c =? 96) || (c =? 62) || (c =? 35) || (c =? 43) || (c =? 61)
  || (c =? 124) || (c =? 123) || (c =? 125) || (c =? 46) || (c =? 33) || (c =? 45).

(** [text.replace(/[...]/g, '\\$&')] *)
Fixpoint escapeMarkdown (text : list Z) : list Z :=
  match text with
  | [] => []
  | c :: t =>
      if isMarkdownSpecial c then backslash :: c :: escapeMarkdown t
      else c :: escapeMarkdown t
  end.

End Formatters.

(* ===================================================================== *)
(** * Conversation orchestrator ([src/handlers/], [src/bot.ts]) *)
(* ===================================================================== *)

Module Bot.
Import Js Parser Session Api.

(** ** The transport's view of one inbound update *)

Record Document := mkDocument {
  file_size : option Z;
  file_name : option (list Z);
  mime_type : option (list Z)
}.

Record PhotoSize := mkPhotoSize {
  photo_file_id : list Z;
  photo_file_size : option Z
}.

(** The fields of grammY's context the handlers read.  [chat_private] is
    [ctx.chat?.type === 'private']. *)
Record Ctx := mkCtx {
  from_id : option Z;
  chat_private : bool;
  message_text : option (list Z);
  message_caption : option (list Z);
  message_document : option Document;
  message_photo : option (list PhotoSize);
  callback_data : option (list Z)
}.

(** ** What the handlers send *)

(** The texts of the replies: the formatters of [src/utils/formatters.ts]
    by name, each with the value it is given, and the literal texts of
    the handlers. *)
Inductive Message :=
  | formatWelcome
  | formatHelp
  | SetupPrivateOnly
  | AlreadyConfigured
  | formatApiKeyPrompt
  | formatMissingApiKey
  | KeyPrivateOnly
  | InvalidApiKey
  | formatApiKeySaved
  | PromptSet (prompt : list Z)
  | NoPromptSet
  | formatScanResult (r : ScanResult)
  | formatEndpointsList (l : list EndpointListItem)
  | formatEndpointData (r : EndpointDataResult)
  | formatStats (r : StatsResult)
  | FileComingSoon (path : list Z)
  | formatUnknownCommand
  | SendKeyNow
  | WebLink
  | Cancelled
  | FileExpired
  | FileTooLarge
  | ImageTooLarge
  | CaptionNeededForFile
  | CaptionNeededForPhoto
  | FailedToProcessFile (reason : list Z)
  | FailedToProcessPhoto (reason : list Z).

Inductive Keyboard :=
  | welcomeKeyboard
  | setupKeyboard
  | apiKeySavedKeyboard
  | errorHelpKeyboard
  | scanSuccessKeyboard (path : list Z)
  | endpointDetailKeyboard (path : list Z)
  | endpointsListKeyboard (l : list EndpointListItem).

Inductive ChatActionKind := typing | upload_document | upload_photo.

(** Everything a handler does that leaves the process, in order.
    [BotError] is the end of a handler that threw: grammY hands the
    error to the [bot.catch] handler of [src/bot.ts], which writes it to
    the log; the user is sent nothing. *)
Inductive Effect :=
  | Reply (m : Message) (reply_markup : option Keyboard)
  | ChatAction (a : ChatActionKind)
  | AnswerCallbackQuery
  | Download
  | Call (r : Request)
  | BotError.

(** ** State *)

Record PendingFile := mkPendingFile {
  pfBuffer : list Z;
  pfPrompt : list Z;
  pfFilename : list Z;
  pfMimeType : list Z
}.

Record World := mkWorld {
  sessions : gmap Z UserSession;
  pendingFiles : gmap Z PendingFile;
  sent : list Effect
}.

(** What one handler run reads from outside: the backend's answers, the
    bytes of [randomBytes(16)], the clock, and the transport's file
    download; and the host's floating-point arithmetic, as far as the
    handlers depend on it: [usagePercent used limit] is the value of
    [Math.round((used / limit) * 100)]. *)
Record Env := mkEnv {
  backend : Backend;
  randomBytes16 : list Z;
  isoNow : list Z;
  dateNow : list Z;
  downloadDocument : Outcome (list Z);
  downloadPhoto : list Z -> Outcome (list Z);
  usagePercent : Z -> Z -> Formatters.Rounded
}.

(** Handlers are state transformers over [World]. *)
Definition M (A : Type) : Type := World -> A * World.

#[global] Instance M_ret : MRet M := fun A a w => (a, w).
#[global] Instance M_bind : MBind M := fun A B f m w => let '(a, w') := m w in f a w'.

Definition emit (e : Effect) : M unit :=
  fun w => (tt, mkWorld (sessions w) (pendingFiles w) (sent w ++ [e])).

Definition reply (m : Message) (kb : option Keyboard) : M unit := emit (Reply m kb).
Definition replyWithChatAction (a : ChatActionKind) : M unit := emit (ChatAction a).

(** ** Formatters that can throw *)

(** [formatStats(result)]; [None] when it throws.  A failed result and
    a result without usage are formatted without arithmetic.  Otherwise
    the usage bar is drawn by [generateProgressBar], whose [repeat]
    throws a [RangeError] on a negative or infinite count. *)
Definition renderStats (env : Env) (r : StatsResult) : option Message :=
  if negb (sSuccess r) then Some (formatStats r)
  else
    match sUsage r with
    | None => Some (formatStats r)
    | Some usage =>
        match Formatters.generateProgressBar
                (usagePercent env (parsesThisMonth usage) (parseLimit usage)) with
        | Some _ => Some (formatStats r)
        | None => None
        end
    end.

(** The property names every object inherits from [Object.prototype]
    (ECMAScript, Annex B included). *)
Definition isObjectPrototypeKey (name : list Z) : bool :=
  existsb (streq name)
    [str "constructor"; str "hasOwnProperty"; str "isPrototypeOf";
     str "propertyIsEnumerable"; str "toLocaleString"; str "toString";
     str "valueOf"; str "__proto__"; str "__defineGetter__";
     str "__defineSetter__"; str "__lookupGetter__"; str "__lookupSetter__"].

(** [formatEndpointsList(endpoints)]; [None] when it throws.  The
    endpoints are grouped by category in an object literal:
    [if (!acc[ep.category]) acc[ep.category] = []] finds an inherited
    property under a category named like one, leaves it, and
    [acc[ep.category].push(ep)] throws a [TypeError].
    ([endpointsListKeyboard] groups the same way and is evaluated after
    it.) *)
Definition renderEndpointsList (endpoints : list EndpointListItem) : option Message :=
  if existsb (fun ep => isObjectPrototypeKey (liCategory ep)) endpoints then None
  else Some (formatEndpointsList endpoints).

(** [await ctx.reply(message, ...)] for a message whose formatter was
    evaluated just before: when the formatter threw, the handler ends
    there. *)
Definition replyRendered (m : option Message) (kb : option Keyboard) : M unit :=
  match m with
  | Some message => reply message kb
  | None => emit BotError
  end.

Definition MAX_FILE_SIZE : Z := 10 * 1024 * 1024.

(** [ctx.from?.id] followed by [if (!userId) return]: zero is falsy. *)
Definition userIdOf (ctx : Ctx) : option Z :=
  match from_id ctx with
  | Some id => if id =? 0 then None else Some id
  | None => None
  end.

(** [result.success && result.endpoint ? scanSuccessKeyboard(..) : errorHelpKeyboard()] *)
Definition scanKeyboard (r : ScanResult) : Keyboard :=
  match success r, endpoint r with
  | true, Some ep => scanSuccessKeyboard (epPath ep)
  | _, _ => errorHelpKeyboard
  end.

(** [endpoints.length > 0 ? endpointsListKeyboard(endpoints) : undefined] *)
Definition listKeyboard (l : list EndpointListItem) : option Keyboard :=
  match l with
  | [] => None
  | _ => Some (endpointsListKeyboard l)
  end.

Section WithCipher.
Context {C : Cipher}.

(** ** Session store, inside [M] *)

Definition getApiKeyM (userId : Z) : M (option (list Z)) :=
  fun w => (getApiKey (sessions w) userId, w).

Definition hasApiKeyM (userId : Z) : M bool :=
  fun w => (hasApiKey (sessions w) userId, w).

Definition getLastPromptM (userId : Z) : M (option (list Z)) :=
  fun w => (getLastPrompt (sessions w) userId, w).

Definition setLastPromptM (env : Env) (userId : Z) (p : list Z) : M unit :=
  fun w => (tt, mkWorld (setLastPrompt (randomBytes16 env) (sessions w) userId p)
                        (pendingFiles w) (sent w)).

Definition setApiKeyM (env : Env) (userId : Z) (key : list Z) : M unit :=
  fun w => (tt, mkWorld (setApiKey (randomBytes16 env) (isoNow env) (sessions w) userId key)
                        (pendingFiles w) (sent w)).

(** Modelled from the spec: [getPendingFile] is imported by
    [src/handlers/messages.ts] from the session module, whose sources
    hold no definition of it.  The spec has the PendingFile keyed by
    user id, consumed (read once) and deleted when the decision arrives,
    and absent once expired or already consumed. *)
Definition getPendingFile (userId : Z) : M (option PendingFile) :=
  fun w => (pendingFiles w !! userId,
            mkWorld (sessions w) (delete userId (pendingFiles w)) (sent w)).

(** ** Backend calls, inside [M]: the request is recorded, then answered *)

Definition scanTextM (env : Env) (apiKey prompt text : list Z) : M ScanResult :=
  emit (Call (scanTextRequest apiKey prompt text));;
  mret (scanText (backend env) apiKey prompt text).

Definition scanFileM (env : Env) (apiKey prompt : list Z) (file : Blob)
    (filename mimeType : list Z) (options : option bool) : M ScanResult :=
  emit (Call (PostScanFile apiKey prompt file filename mimeType options));;
  mret (scanFile (backend env) apiKey prompt file filename mimeType options).

Definition listEndpointsM (env : Env) (apiKey : list Z) : M (list EndpointListItem) :=
  emit (Call (GetTree apiKey));;
  mret (listEndpoints (backend env) apiKey).

Definition getEndpointM (env : Env) (apiKey path : list Z) : M EndpointDataResult :=
  emit (Call (GetEndpoint apiKey
                (str "/api/endpoints" ++ (if startsWith (str "/") path then path
                                          else str "/" ++ path))));;
  mret (getEndpoint (backend env) apiKey path).

Definition getStatsM (env : Env) (apiKey : list Z) : M StatsResult :=
  emit (Call (GetBillingStats apiKey));;
  mret (getStats (backend env) apiKey).

Definition validateApiKeyM (env : Env) (apiKey : list Z) : M bool :=
  emit (Call (GetTree apiKey));;
  mret (validateApiKey (backend env) apiKey).

(** ** [src/handlers/commands.ts] *)

Definition handleStart (ctx : Ctx) : M unit := reply formatWelcome (Some welcomeKeyboard).

Definition handleHelp (ctx : Ctx) : M unit := reply formatHelp None.

Definition handleSetup (ctx : Ctx) : M unit :=
  if negb (chat_private ctx) then reply SetupPrivateOnly None
  else
    match userIdOf ctx with
    | None => mret tt
    | Some userId =>
        existing ← hasApiKeyM userId;
        if existing : bool then reply AlreadyConfigured None
        else reply formatApiKeyPrompt (Some setupKeyboard)
    end.

Definition handleList (env : Env) (ctx : Ctx) : M unit :=
  match userIdOf ctx with
  | None => mret tt
  | Some userId =>
      apiKey ← getApiKeyM userId;
      match apiKey with
      | Some (c :: k) =>
          replyWithChatAction typing;;
          endpoints ← listEndpointsM env (c :: k);
          replyRendered (renderEndpointsList endpoints) (listKeyboard endpoints)
      | _ => reply formatMissingApiKey None
      end
  end.

Definition handleStatus (env : Env) (ctx : Ctx) : M unit :=
  match userIdOf ctx with
  | None => mret tt
  | Some userId =>
      apiKey ← getApiKeyM userId;
      match apiKey with
      | Some (c :: k) =>
          replyWithChatAction typing;;
          stats ← getStatsM env (c :: k);
          replyRendered (renderStats env stats) None
      | _ => reply formatMissingApiKey None
      end
  end.

(** [handleApiKeyInput(ctx, text)]: the result tells whether the text
    was taken as a credential. *)
Definition handleApiKeyInput (env : Env) (ctx : Ctx) (text : list Z) : M bool :=
  match userIdOf ctx with
  | None => mret false
  | Some userId =>
      if negb (startsWith (str "ep_") text) || (Z.of_nat (length text) <? 20)
      then mret false
      else if negb (chat_private ctx) then
        reply KeyPrivateOnly None;; mret true
      else
        replyWithChatAction typing;;
        isValid ← validateApiKeyM env text;
        if isValid : bool then
          setApiKeyM env userId text;;
          reply formatApiKeySaved (Some apiKeySavedKeyboard);;
          mret true
        else
          reply InvalidApiKey None;; mret true
  end.

(** ** [src/handlers/messages.ts] *)

Definition handleListMessage (env : Env) (ctx : Ctx) : M unit :=
  match userIdOf ctx with
  | None => mret tt
  | Some userId =>
      apiKey ← getApiKeyM userId;
      match apiKey with
      | Some (c :: k) =>
          replyWithChatAction typing;;
          endpoints ← listEndpointsM env (c :: k);
          replyRendered (renderEndpointsList endpoints) (listKeyboard endpoints)
      | _ => reply formatMissingApiKey None
      end
  end.

Definition handleScanMessage (env : Env) (ctx : Ctx) (prompt : list Z)
    (content : option (list Z)) : M unit :=
  match userIdOf ctx with
  | None => mret tt
  | Some userId =>
      apiKey ← getApiKeyM userId;
      match apiKey with
      | Some (c :: k) =>
          let sanitizedPrompt := sanitize prompt in
          setLastPromptM env userId sanitizedPrompt;;
          match content with
          | Some (x :: body) =>
              replyWithChatAction typing;;
              let sanitizedContent := sanitize (x :: body) in
              result ← scanTextM env (c :: k) sanitizedPrompt sanitizedContent;
              reply (formatScanResult result) (Some (scanKeyboard result))
          | _ => reply (PromptSet sanitizedPrompt) None
          end
      | _ => reply formatMissingApiKey None
      end
  end.

Definition handleTextScanMessage (env : Env) (ctx : Ctx) (content : list Z) : M unit :=
  match userIdOf ctx with
  | None => mret tt
  | Some userId =>
      apiKey ← getApiKeyM userId;
      match apiKey with
      | Some (c :: k) =>
          prompt ← getLastPromptM userId;
          match prompt with
          | Some (x :: p) =>
              replyWithChatAction typing;;
              let sanitizedContent := sanitize content in
              result ← scanTextM env (c :: k) (x :: p) sanitizedContent;
              reply (formatScanResult result) (Some (scanKeyboard result))
          | _ => reply NoPromptSet None
          end
      | _ => reply formatMissingApiKey None
      end
  end.

Definition handleGetMessage (env : Env) (ctx : Ctx) (path : list Z) : M unit :=
  match userIdOf ctx with
  | None => mret tt
  | Some userId =>
      apiKey ← getApiKeyM userId;
      match apiKey with
      | Some (c :: k) =>
          replyWithChatAction typing;;
          result ← getEndpointM env (c :: k) path;
          reply (formatEndpointData result)
                (Some (if dSuccess result then endpointDetailKeyboard path
                       else errorHelpKeyboard))
      | _ => reply formatMissingApiKey None
      end
  end.

Definition handleFileGetMessage (ctx : Ctx) (path : list Z) : M unit :=
  match userIdOf ctx with
  | None => mret tt
  | Some userId =>
      apiKey ← getApiKeyM userId;
      match apiKey with
      | Some (c :: k) => reply (FileComingSoon path) None
      | _ => reply formatMissingApiKey None
      end
  end.

Definition handleUnknownMessage (ctx : Ctx) : M unit :=
  reply formatUnknownCommand (Some errorHelpKeyboard).

(** [parsed.prompt!], [parsed.content!] and [parsed.path!]: the
    assertion is erased when the program runs, and the field is there
    for the variant that reads it. *)
Definition bang (o : option (list Z)) : list Z := default [] o.

Definition handleTextMessage (env : Env) (ctx : Ctx) : M unit :=
  match message_text ctx with
  | Some (t :: ext) =>
      let text := t :: ext in
      match userIdOf ctx with
      | None => mret tt
      | Some userId =>
          wasApiKey ← handleApiKeyInput env ctx (trim text);
          if wasApiKey : bool then mret tt
          else
            match parseMessage text with
            | Some parsed =>
                match type parsed with
                | TList => handleListMessage env ctx
                | TScan =>
                    handleScanMessage env ctx (bang (prompt parsed)) (content parsed)
                | TText => handleTextScanMessage env ctx (bang (content parsed))
                | TGet => handleGetMessage env ctx (bang (path parsed))
                | TFile => handleFileGetMessage ctx (bang (path parsed))
                | TUnknown => handleUnknownMessage ctx
                end
            | None => mret tt
            end
      end
  | _ => mret tt
  end.

(** [data.slice(n)] *)
Definition sliceFrom (n : nat) (s : list Z) : list Z := drop n s.

Definition handleCallbackQuery (env : Env) (ctx : Ctx) : M unit :=
  match callback_data ctx with
  | Some (d :: ata) =>
      let data := d :: ata in
      match userIdOf ctx with
      | None => mret tt
      | Some userId =>
          emit AnswerCallbackQuery;;
          if streq data (str "help") then reply formatHelp None
          else if streq data (str "setup") || streq data (str "setup_ready") then
            reply SendKeyNow None
          else if streq data (str "status") then
            apiKey ← getApiKeyM userId;
            match apiKey with
            | Some (c :: k) =>
                replyWithChatAction typing;;
                stats ← getStatsM env (c :: k);
                replyRendered (renderStats env stats) None
            | _ => reply formatMissingApiKey None
            end
          else if streq data (str "list") then
            apiKey ← getApiKeyM userId;
            match apiKey with
            | Some (c :: k) =>
                replyWithChatAction typing;;
                endpoints ← listEndpointsM env (c :: k);
                replyRendered (renderEndpointsList endpoints) (listKeyboard endpoints)
            | _ => reply formatMissingApiKey None
            end
          else if startsWith (str "get:") data then
            handleGetMessage env ctx (sliceFrom 4 data)
          else if startsWith (str "refresh:") data then
            handleGetMessage env ctx (sliceFrom 8 data)
          else if streq data (str "web_link") then reply WebLink None
          else if streq data (str "cancel") then reply Cancelled None
          else if startsWith (str "openclaw:") data then
            let isOpenClaw := streq data (str "openclaw:yes") in
            pendingFile ← getPendingFile userId;
            match pendingFile with
            | None => reply FileExpired None
            | Some pf =>
                apiKey ← getApiKeyM userId;
                match apiKey with
                | Some (c :: k) =>
                    replyWithChatAction upload_document;;
                    let buffer := FromBase64 (pfBuffer pf) in
                    result ← scanFileM env (c :: k) (pfPrompt pf) buffer
                               (pfFilename pf) (pfMimeType pf) (Some isOpenClaw);
                    reply (formatScanResult result) (Some (scanKeyboard result))
                | _ => reply formatMissingApiKey None
                end
            end
          else mret tt
      end
  | _ => mret tt
  end.

(** ** [src/handlers/files.ts] *)

(** [size && size > MAX_FILE_SIZE] *)
Definition tooLarge (size : option Z) : bool :=
  match size with
  | Some n => negb (n =? 0) && (MAX_FILE_SIZE <? n)
  | None => false
  end.

(** The prompt of an upload: a usable caption is sanitized and
    remembered, otherwise the remembered prompt is read. *)
Definition uploadPrompt (env : Env) (ctx : Ctx) (userId : Z) : M (option (list Z)) :=
  match trim <$> message_caption ctx with
  | Some (c :: aption) =>
      if isFileCaption (c :: aption) then
        let prompt := sanitize (c :: aption) in
        setLastPromptM env userId prompt;; mret (Some prompt)
      else getLastPromptM userId
  | _ => getLastPromptM userId
  end.

Definition handleDocument (env : Env) (ctx : Ctx) : M unit :=
  match message_document ctx with
  | None => mret tt
  | Some document =>
      match userIdOf ctx with
      | None => mret tt
      | Some userId =>
          apiKey ← getApiKeyM userId;
          match apiKey with
          | Some (c :: k) =>
              if tooLarge (file_size document) then reply FileTooLarge None
              else
                prompt ← uploadPrompt env ctx userId;
                match prompt with
                | Some (x :: p) =>
                    replyWithChatAction upload_document;;
                    emit Download;;
                    match downloadDocument env with
                    | Returned bytes =>
                        let filename := orElse (file_name document) (str "document") in
                        let mimeType :=
                          orElse (mime_type document) (str "application/octet-stream") in
                        result ← scanFileM env (c :: k) (x :: p) (Downloaded bytes)
                                   filename mimeType None;
                        reply (formatScanResult result) (Some (scanKeyboard result))
                    | Threw e => reply (FailedToProcessFile (errorMessage e)) None
                    end
                | _ => reply CaptionNeededForFile None
                end
          | _ => reply formatMissingApiKey None
          end
      end
  end.

Definition handlePhoto (env : Env) (ctx : Ctx) : M unit :=
  match message_photo ctx with
  | Some (p0 :: ps) =>
      let photos := p0 :: ps in
      match userIdOf ctx with
      | None => mret tt
      | Some userId =>
          apiKey ← getApiKeyM userId;
          match apiKey with
          | Some (c :: k) =>
              let photo := List.last photos p0 in
              if tooLarge (photo_file_size photo) then reply ImageTooLarge None
              else
                prompt ← uploadPrompt env ctx userId;
                match prompt with
                | Some (x :: p) =>
                    replyWithChatAction upload_photo;;
                    emit Download;;
                    match downloadPhoto env (photo_file_id photo) with
                    | Returned bytes =>
                        let filename := str "photo_" ++ dateNow env ++ str ".jpg" in
                        let mimeType := str "image/jpeg" in
                        result ← scanFileM env (c :: k) (x :: p) (Downloaded bytes)
                                   filename mimeType None;
                        reply (formatScanResult result) (Some (scanKeyboard result))
                    | Threw e => reply (FailedToProcessPhoto (errorMessage e)) None
                    end
                | _ => reply CaptionNeededForPhoto None
                end
          | _ => reply formatMissingApiKey None
          end
      end
  | _ => mret tt
  end.

(** ** [src/bot.ts]: one inbound update, routed to its handler *)

Inductive Command := CStart | CHelp | CSetup | CList | CStatus.

Inductive Update :=
  | OnCommand (c : Command)
  | OnCallbackQuery
  | OnDocument
  | OnPhoto
  | OnText.

Definition handleUpdate (env : Env) (u : Update) (ctx : Ctx) : M unit :=
  match u with
  | OnCommand CStart => handleStart ctx
  | OnCommand CHelp => handleHelp ctx
  | OnCommand CSetup => handleSetup ctx
  | OnCommand CList => handleList env ctx
  | OnCommand CStatus => handleStatus env ctx
  | OnCallbackQuery => handleCallbackQuery env ctx
  | OnDocument => handleDocument env ctx
  | OnPhoto => handlePhoto env ctx
  | OnText => handleTextMessage env ctx
  end.

(** The replies among the effects of a run. *)
Definition isReply (e : Effect) : bool :=
  match e with Reply _ _ => true | _ => false end.

Definition replies (l : list Effect) : list Effect := List.filter isReply l.

(** The world a handler leaves, started with nothing sent yet. *)
Definition run (h : M unit) (store : gmap Z UserSession)
    (files : gmap Z PendingFile) : World :=
  (h (mkWorld store files [])).2.

End WithCipher.
End Bot.

(* ===================================================================== *)
(** * Inline keyboards ([src/utils/keyboards.ts]) *)
(* ===================================================================== *)

(** A keyboard is the sequence of calls made on grammY's
    [InlineKeyboard] builder. *)
Module Keyboards.
Import Js.

Inductive Button :=
  | url (label link : list Z)
  | text (label data : list Z)
  | row.

Definition welcomeKeyboard : list Button :=
  [url ([55357; 56593] ++ str " Get API Key") (str "https://endpoints.work/api-keys");
   row;
   text ([55357; 56534] ++ str " How it works") (str "help");
   text ([9881; 65039] ++ str " Setup API Key") (str "setup")].

Definition setupKeyboard : list Button :=
  [url ([55357; 56593] ++ str " Get API Key") (str "https://endpoints.work/api-keys");
   row;
   text ([9989] ++ str " I have my key") (str "setup_ready")].

Definition apiKeySavedKeyboard : list Button :=
  [text ([55357; 56522] ++ str " Check Status") (str "status");
   text ([55357; 56523] ++ str " List Endpoints") (str "list")].

Definition endpointDetailKeyboard (path : list Z) : list Button :=
  [text ([55357; 56580] ++ str " Refresh") (str "refresh:" ++ path);
   url ([55356; 57104] ++ str " View on web") (str "https://endpoints.work" ++ path)].

Definition errorHelpKeyboard : list Button :=
  [text ([55357; 56534] ++ str " Show Help") (str "help");
   text ([9881; 65039] ++ str " Setup") (str "setup")].

Definition scanSuccessKeyboard (path : list Z) : list Button :=
  [text ([55357; 56513] ++ str " View Endpoint") (str "get:" ++ path);
   row;
   url ([55356; 57104] ++ str " Open in Browser") (str "https://endpoints.work" ++ path)].

Definition confirmKeyboard (action : list Z) : list Button :=
  [text ([9989] ++ str " Confirm") (str "confirm:" ++ action);
   text ([10060] ++ str " Cancel") (str "cancel")].

(** The payloads a press on the keyboard can send back. *)
Definition callbackData (k : list Button) : list (list Z) :=
  omap (fun b => match b with text _ data => Some data | _ => None end) k.

End Keyboards.

Import Js Parser Codec Session Api Bot.

(* ===================================================================== *)
(** * The grammar, as the specification words it *)
(* ===================================================================== *)

Module Grammar.

Definition asciiLower (c : Z) : Z := if (65 <=? c) && (c <=? 90) then c + 32 else c.

(** The text starts with the literal, letters compared without case. *)
Definition hasPrefix (lit t : list Z) : Prop :=
  map asciiLower (take (length lit) t) = lit.

Definition isListCommand (t : list Z) : Prop :=
  toLowerCase t = str "list" \/ toLowerCase t = str "/list".

(** No rule of the grammar applies to the trimmed text. *)
Definition noRuleMatches (s : list Z) : Prop :=
  ~ isListCommand (trim s)
  /\ ~ hasPrefix (str "scan:") (trim s)
  /\ ~ hasPrefix (str "text:") (trim s)
  /\ ~ hasPrefix (str "get:") (trim s)
  /\ ~ hasPrefix (str "file:") (trim s).

(** The six variants, with the fields each one carries. *)
Definition wellShaped (m : ParsedMessage) : Prop :=
  match type m with
  | TList | TUnknown => prompt m = None /\ content m = None /\ path m = None
  | TScan => is_Some (prompt m) /\ path m = None
  | TText => is_Some (content m) /\ prompt m = None /\ path m = None
  | TGet | TFile => is_Some (path m) /\ prompt m = None /\ content m = None
  end.

(** Splitting at the first newline. *)
Fixpoint firstLine (s : list Z) : list Z :=
  match s with
  | [] => []
  | c :: s' => if c =? newline then [] else c :: firstLine s'
  end.

Fixpoint afterFirstLine (s : list Z) : list Z :=
  match s with
  | [] => []
  | c :: s' => if c =? newline then s' else afterFirstLine s'
  end.

(** The [scan] intent read off a text: first line trimmed as prompt, the
    remaining lines trimmed as one block as content, absent when empty. *)
Definition scanOf (rest : list Z) : ParsedMessage :=
  mkParsed TScan (Some (trim (firstLine rest)))
           (orUndefined (trim (afterFirstLine rest))) None.

Definition unknown : ParsedMessage := mkParsed TUnknown None None None.

(** What follows the five units of ["scan:"] in the trimmed text. *)
Definition afterScanPrefix (s : list Z) : list Z := drop 5 (trim s).

(** No white space is left at the end. *)
Definition endsClean (s : list Z) : Prop :=
  forall c, last s = Some c -> isWhiteSpace c = false.

(** A parsed path written back as a path: a slash, the category and,
    after one more slash, the slug. *)
Definition renderPath (r : PathParts) : list Z :=
  slash :: category r ++ match slug r with
                         | Some sl => slash :: sl
                         | None => []
                         end.

(** The segments [parsePath] keeps: none is empty, none holds a slash. *)
Definition segments (parts : list (list Z)) : Prop :=
  Forall (fun q => q <> [] /\ slash ∉ q) parts.

(** A text that [handleApiKeyInput] takes for a credential. *)
Definition keyShaped (text : list Z) : bool :=
  startsWith (str "ep_") text && negb (Z.of_nat (length text) <? 20).

End Grammar.

(* ===================================================================== *)
(** * The orchestrator's runs, as the specification words them *)
(* ===================================================================== *)

Module Runs.

(** [adds m n]: a run of [m] sends exactly [n] replies. *)
Definition adds {A} (m : M A) (n : nat) : Prop :=
  forall w, length (replies (sent (m w).2)) = (length (replies (sent w)) + n)%nat.

(** The payloads of the inline buttons that [handleCallbackQuery] acts on. *)
Definition recognised (data : list Z) : bool :=
  streq data (str "help") || streq data (str "setup") || streq data (str "setup_ready")
  || streq data (str "status") || streq data (str "list")
  || startsWith (str "get:") data || startsWith (str "refresh:") data
  || streq data (str "web_link") || streq data (str "cancel")
  || startsWith (str "openclaw:") data.

(** The formatter returned a message. *)
Definition rendered (o : option Message) : bool :=
  match o with
  | Some _ => true
  | None => false
  end.

(** Whatever the credential, the backend's usage figures and endpoint
    tree are such that [formatStats] and [formatEndpointsList] return. *)
Definition renderable (env : Env) : Prop :=
  forall k,
    rendered (renderStats env (getStats (backend env) k)) = true
    /\ rendered (renderEndpointsList (listEndpoints (backend env) k)) = true.

(** The message that answers a press can be formatted: this is in
    question for the [status] and [list] buttons of a user with a
    credential only. *)
Definition pressRenders {C : Cipher} (env : Env) (store : gmap Z UserSession) (uid : Z)
    (data : list Z) : bool :=
  if streq data (str "status") then
    match getApiKey store uid with
    | Some (c :: k) => rendered (renderStats env (getStats (backend env) (c :: k)))
    | _ => true
    end
  else if streq data (str "list") then
    match getApiKey store uid with
    | Some (c :: k) =>
        rendered (renderEndpointsList (listEndpoints (backend env) (c :: k)))
    | _ => true
    end
  else true.



Definition dataFailure (e : Thrown) : EndpointDataResult :=
  mkDataResult false None (Some (errorMessage e)).

(** The prompt of an upload: the caption, trimmed, when [isFileCaption]
    accepts it, then sanitized; otherwise the remembered prompt. *)
Definition promptOf {C : Cipher} (store : gmap Z UserSession) (uid : Z)
    (caption : option (list Z)) : option (list Z) :=
  match trim <$> caption with
  | Some (c :: r) =>
      if isFileCaption (c :: r) then Some (sanitize (c :: r))
      else getLastPrompt store uid
  | _ => getLastPrompt store uid
  end.

(** What is sent for an upload that passed the size check: without a
    prompt the request for a caption; with one the upload action and
    the download, then the one [scanFile] call and the reply that shows
    its result, or the reply that the download failed.  The reported
    size is no part of it. *)
Definition uploaded (env : Env) (k : list Z) (prompt : option (list Z))
    (download : Outcome (list Z)) (needCaption : Message)
    (failed : list Z -> Message) (action : ChatActionKind)
    (filename mimeType : list Z) : list Effect :=
  match prompt with
  | Some (x :: p) =>
      [ChatAction action; Download]
      ++ match download with
         | Returned bytes =>
             [Call (PostScanFile k (x :: p) (Downloaded bytes) filename mimeType None);
              Reply (formatScanResult
                       (scanFile (backend env) k (x :: p) (Downloaded bytes) filename
                          mimeType None))
                    (Some (scanKeyboard
                       (scanFile (backend env) k (x :: p) (Downloaded bytes) filename
                          mimeType None)))]
         | Threw e => [Reply (failed (errorMessage e)) None]
         end
  | _ => [Reply needCaption None]
  end.

(** The buttons of a keyboard a reply carries.  The keyboard of the
    endpoints list, built from the backend's answer, is left out. *)
Definition buttons (kb : Keyboard) : option (list Keyboards.Button) :=
  match kb with
  | welcomeKeyboard => Some Keyboards.welcomeKeyboard
  | setupKeyboard => Some Keyboards.setupKeyboard
  | apiKeySavedKeyboard => Some Keyboards.apiKeySavedKeyboard
  | errorHelpKeyboard => Some Keyboards.errorHelpKeyboard
  | scanSuccessKeyboard path => Some (Keyboards.scanSuccessKeyboard path)
  | endpointDetailKeyboard path => Some (Keyboards.endpointDetailKeyboard path)
  | endpointsListKeyboard _ => None
  end.

(** The world a handler leaves when it wrote no session and sent the
    backend nothing. *)
Definition quiet (w : World) (store : gmap Z UserSession) : Prop :=
  sessions w = store /\ forall r, Call r ∉ sent w.

(** Reading an escaped text back: a backslash in front of a unit of the
    escaped class is dropped. *)
Fixpoint unescape (s : list Z) : list Z :=
  match s with
  | [] => []
  | c :: t =>
      if c =? Formatters.backslash then
        match t with
        | d :: t' =>
            if Formatters.isMarkdownSpecial d then d :: unescape t'
            else c :: unescape t
        | [] => [c]
        end
      else c :: unescape t
  end.

End Runs.

(** The states the UTF-8 decoder can be in. *)
Module Decoder.

(** A Unicode scalar value: a code point that is no surrogate. *)
Definition scalar (cp : Z) : Prop :=
  0 <= cp < 1114112 /\ ~ (55296 <= cp <= 57343).

(** After [n] more continuation bytes within the bounds, the code point
    read is a scalar value. *)
Fixpoint completes (n : nat) (cp lo hi : Z) : Prop :=
  match n with
  | O => scalar cp
  | S n' =>
      128 <= lo /\ hi <= 191
      /\ forall b, lo <= b <= hi -> completes n' (cp * 64 + (b - 128)) 128 191
  end.

Definition ready (st : option DecState) : Prop :=
  match st with
  | Some d => exists n, dNeeded d = S n
                        /\ completes (S n) (dCodePoint d) (dLower d) (dUpper d)
  | None => True
  end.

End Decoder.

(** Concrete data to run the handlers on. *)
Module Scenario.
Import ToyCipher.

Definition iv0 : list Z := [0;1;2;3;4;5;6;7;8;9;10;11;12;13;14;15].
Definition key : list Z := str "ep_0123456789abcdefghij".
Definition user : Z := 7.
Definition january : list Z := str "2026-01-01T00:00:00.000Z".
Definition february : list Z := str "2026-02-01T00:00:00.000Z".

(** A backend that fails every request, and one that answers every
    request with an empty body. *)
Definition failing (e : Thrown) : Backend :=
  mkBackend (fun _ => Threw e) (fun _ => Threw e) (fun _ => Threw e) (fun _ => Threw e).

Definition emptyOk : Backend :=
  mkBackend (fun _ => Returned (mkScanPayload None []))
            (fun _ => Returned [])
            (fun _ => Returned (mkEndpointPayload None [] 0))
            (fun _ => Returned (mkBillingStats [] 0 0 0 0)).

(** [Math.round((used / limit) * 100)] where the arithmetic is exact. *)
Definition percent (used limit : Z) : Formatters.Rounded :=
  if limit =? 0 then
    if used =? 0 then Formatters.NaN else Formatters.Infinite (0 <? used)
  else Formatters.Finite ((200 * used + limit) / (2 * limit)).

Definition envWith (b : Backend) (now : list Z) : Env :=
  mkEnv b iv0 now (str "1767225600000") (Returned [37; 80; 68; 70])
        (fun _ => Returned [255; 216; 255]) percent.

(** A backend that reports 200 parses used of 100. *)
Definition overQuota : Backend :=
  mkBackend (fun _ => Returned (mkScanPayload None []))
            (fun _ => Returned [])
            (fun _ => Returned (mkEndpointPayload None [] 0))
            (fun _ => Returned (mkBillingStats (str "free") 200 100 0 0)).

Definition textFrom (uid : Z) (text : list Z) : Ctx :=
  mkCtx (Some uid) true (Some text) None None None None.

Definition pressFrom (uid : Z) (data : list Z) : Ctx :=
  mkCtx (Some uid) true None None None None (Some data).

Definition documentFrom (uid : Z) (caption : option (list Z)) (d : Document) : Ctx :=
  mkCtx (Some uid) true None caption (Some d) None None.

Definition photoFrom (uid : Z) (caption : option (list Z)) (p : list PhotoSize) : Ctx :=
  mkCtx (Some uid) true None caption None (Some p) None.

(** The store after [user] linked [key]. *)
Definition linked : gmap Z UserSession :=
  @setApiKey toyCipher iv0 january ∅ user key.

Definition timeout : Thrown := ErrorObject (str "fetch failed").

Definition transcript : PendingFile :=
  mkPendingFile (str "aGVsbG8=") (str "job tracker") (str "chat.txt") (str "text/plain").

End Scenario.

Import Grammar Runs.

(* ===================================================================== *)
(** * Properties of the string primitives *)
(* ===================================================================== *)

Section TrimFacts.

Lemma trimStart_suffix s : exists k, s = k ++ trimStart s /\ forallb isWhiteSpace k = true.
Proof.
  induction s as [|c s IH]; simpl.
  - exists []. split; reflexivity.
  - destruct (isWhiteSpace c) eqn:E.
    + destruct IH as [k [Hk Hw]]. exists (c :: k). simpl. rewrite E, Hw.
      split; [f_equal; exact Hk | reflexivity].
    + exists []. split; reflexivity.
Qed.

Lemma trimStart_head s c r : trimStart s = c :: r -> isWhiteSpace c = false.
Proof.
  induction s as [|a s IH]; simpl; [discriminate|].
  destruct (isWhiteSpace a) eqn:E; [exact IH|].
  intros H. injection H as -> _. exact E.
Qed.

Lemma trimStart_nil s : trimStart s = [] <-> forallb isWhiteSpace s = true.
Proof.
  induction s as [|a s IH]; simpl; [tauto|].
  destruct (isWhiteSpace a); simpl; [exact IH|]. split; discriminate.
Qed.

Lemma trimStart_fixed c s : isWhiteSpace c = false -> trimStart (c :: s) = c :: s.
Proof. intros H. simpl. rewrite H. reflexivity. Qed.

Lemma trimStart_skip k s :
  forallb isWhiteSpace k = true -> trimStart (k ++ s) = trimStart s.
Proof.
  induction k as [|a k IH]; simpl; [reflexivity|].
  intros H. apply andb_prop in H as [Ha Hk]. rewrite Ha. auto.
Qed.

Lemma trimEnd_prefix s : exists k, s = trimEnd s ++ k /\ forallb isWhiteSpace k = true.
Proof.
  unfold trimEnd. destruct (trimStart_suffix (rev s)) as [k [Hk Hw]].
  exists (rev k). split.
  - rewrite <- rev_app_distr, <- Hk, rev_involutive. reflexivity.
  - rewrite forallb_forall in *. intros x Hx. apply Hw.
    apply in_rev. exact Hx.
Qed.

Lemma trimEnd_last s c : last (trimEnd s) = Some c -> isWhiteSpace c = false.
Proof.
  unfold trimEnd. destruct (trimStart (rev s)) as [|a r] eqn:E; simpl.
  - discriminate.
  - rewrite last_snoc. intros H. injection H as <-.
    eapply trimStart_head. exact E.
Qed.

Lemma trimEnd_fixed s :
  (forall c, last s = Some c -> isWhiteSpace c = false) -> trimEnd s = s.
Proof.
  intros H. unfold trimEnd. destruct (rev s) as [|a r] eqn:E.
  - simpl. rewrite <- (rev_involutive s), E. reflexivity.
  - assert (Hs : s = rev r ++ [a]).
    { rewrite <- (rev_involutive s), E. reflexivity. }
    rewrite trimStart_fixed.
    + simpl. symmetry. exact Hs.
    + apply H. rewrite Hs. apply last_snoc.
Qed.

Lemma trim_last s c : last (trim s) = Some c -> isWhiteSpace c = false.
Proof. apply trimEnd_last. Qed.

Lemma trim_head s c r : trim s = c :: r -> isWhiteSpace c = false.
Proof.
  unfold trim. intros H.
  destruct (trimEnd_prefix (trimStart s)) as [k [Hk _]].
  rewrite H in Hk. simpl in Hk. eapply trimStart_head. exact Hk.
Qed.

Lemma trim_fixed s :
  (forall c r, s = c :: r -> isWhiteSpace c = false) ->
  (forall c, last s = Some c -> isWhiteSpace c = false) ->
  trim s = s.
Proof.
  intros Hh Hl. unfold trim.
  destruct s as [|c r]; [reflexivity|].
  rewrite trimStart_fixed by (eapply Hh; reflexivity).
  apply trimEnd_fixed. exact Hl.
Qed.

(** A non-empty tail of a trimmed string is not all white space. *)
Lemma trim_tail_not_blank s pre rest :
  trim s = pre ++ rest -> rest <> [] -> trimStart rest <> [].
Proof.
  intros H Hne Hnil. apply trimStart_nil in Hnil.
  destruct (last rest) as [c|] eqn:E.
  - assert (Hw : isWhiteSpace c = true).
    { rewrite forallb_forall in Hnil. apply Hnil.
      apply list_elem_of_In. eapply last_Some_elem_of. exact E. }
    assert (Hl : last (trim s) = Some c).
    { rewrite H. rewrite last_app, E. reflexivity. }
    apply trim_last in Hl. congruence.
  - apply last_None in E. contradiction.
Qed.

End TrimFacts.


(* ===================================================================== *)
(** * Properties of the parser *)
(* ===================================================================== *)

Section ParserFacts.

Lemma streq_eq a b : streq a b = true <-> a = b.
Proof.
  revert b. induction a as [|x a IH]; intros [|y b]; simpl; split; try easy.
  - intros H. apply andb_prop in H as [Hx Hr]. apply Z.eqb_eq in Hx.
    apply IH in Hr. congruence.
  - intros H. injection H as -> ->. rewrite Z.eqb_refl. simpl. apply IH. reflexivity.
Qed.

Lemma split_nonempty sep s : split sep s <> [].
Proof.
  destruct s as [|c s]; simpl; [discriminate|].
  destruct (c =? sep); [discriminate|]. destruct (split sep s); discriminate.
Qed.

Lemma join_split sep s : join [sep] (split sep s) = s.
Proof.
  induction s as [|c s IH]; simpl; [reflexivity|].
  destruct (c =? sep) eqn:E.
  - apply Z.eqb_eq in E. subst c.
    destruct (split sep s) as [|l ls] eqn:Es; [exfalso; eapply split_nonempty; eauto|].
    simpl in *. rewrite IH. reflexivity.
  - destruct (split sep s) as [|l ls] eqn:Es; [exfalso; eapply split_nonempty; eauto|].
    destruct ls; simpl in *; rewrite <- IH; reflexivity.
Qed.

Lemma split_firstLine s : split newline s !! 0%nat = Some (firstLine s).
Proof.
  induction s as [|c s IH]; simpl; [reflexivity|].
  destruct (c =? newline); [reflexivity|].
  destruct (split newline s) as [|l ls]; simpl in *; congruence.
Qed.

Lemma split_afterFirstLine s :
  join [newline] (slice1 (split newline s)) = afterFirstLine s.
Proof.
  unfold slice1. induction s as [|c s IH]; simpl; [reflexivity|].
  destruct (c =? newline).
  - simpl. apply join_split.
  - destruct (split newline s) as [|l ls] eqn:Es; simpl in *; exact IH.
Qed.

Lemma canonicalize_eq a c :
  asciiLower a = a -> (canonicalize a =? canonicalize c) = (asciiLower c =? a).
Proof.
  unfold asciiLower, canonicalize. intros H.
  destruct ((65 <=? a) && (a <=? 90)) eqn:Ea; [lia|].
  destruct ((97 <=? a) && (a <=? 122)) eqn:Ea';
  destruct ((97 <=? c) && (c <=? 122)) eqn:Ec;
  destruct ((65 <=? c) && (c <=? 90)) eqn:Ec'; lia.
Qed.

Lemma matchLiteral_sound lit t r :
  Forall (fun a => asciiLower a = a) lit ->
  matchLiteral lit t = Some r -> hasPrefix lit t /\ r = drop (length lit) t.
Proof.
  unfold hasPrefix. intros Hl. revert t. induction Hl as [|a lit Ha Hl IH]; intros t; simpl.
  - intros H. injection H as ->. split; reflexivity.
  - destruct t as [|c t]; [discriminate|].
    rewrite canonicalize_eq by exact Ha.
    destruct (asciiLower c =? a) eqn:E; [|discriminate].
    apply Z.eqb_eq in E. intros H. apply IH in H as [H1 H2].
    simpl. rewrite E, H1. split; [reflexivity | exact H2].
Qed.

Lemma matchLiteral_complete lit t :
  Forall (fun a => asciiLower a = a) lit ->
  hasPrefix lit t -> matchLiteral lit t = Some (drop (length lit) t).
Proof.
  unfold hasPrefix. intros Hl. revert t. induction Hl as [|a lit Ha Hl IH]; intros t; simpl.
  - intros _. reflexivity.
  - destruct t as [|c t]; simpl; [discriminate|].
    intros H. injection H as Hc Hr.
    rewrite canonicalize_eq by exact Ha.
    rewrite Hc, Z.eqb_refl. apply IH. exact Hr.
Qed.

Lemma matchPrefix_none lit b t :
  Forall (fun a => asciiLower a = a) lit ->
  ~ hasPrefix lit t -> matchPrefix lit b t = None.
Proof.
  intros Hl Hn. unfold matchPrefix.
  destruct (matchLiteral lit t) as [r|] eqn:E; [|reflexivity].
  apply matchLiteral_sound in E as [H _]; [contradiction | exact Hl].
Qed.

(** When the text after skipping all white space lets the rest of the
    pattern match, the star never gives anything back. *)
Lemma wsStar_greedy {A} (k : list Z -> option A) s :
  is_Some (k (trimStart s)) -> wsStar k s = k (trimStart s).
Proof.
  induction s as [|c s IH]; simpl; [reflexivity|].
  destruct (isWhiteSpace c); [|reflexivity].
  intros H. rewrite (IH H). destruct H as [r ->]. reflexivity.
Qed.

Lemma wsStar_nil {A} (k : list Z -> option A) : wsStar k [] = k [].
Proof. reflexivity. Qed.

Lemma lower_literals :
  Forall (fun a => asciiLower a = a) (str "scan:")
  /\ Forall (fun a => asciiLower a = a) (str "text:")
  /\ Forall (fun a => asciiLower a = a) (str "get:")
  /\ Forall (fun a => asciiLower a = a) (str "file:").
Proof. repeat split; repeat constructor. Qed.

Lemma parseMessage_wellShaped s :
  exists m, parseMessage s = Some m /\ wellShaped m.
Proof.
  unfold parseMessage, wellShaped.
  destruct (streq _ _ || streq _ _); [eexists; split; [reflexivity|]; simpl; auto|].
  destruct (matchPrefix (str "scan:") true (trim s)) as [m|].
  { rewrite split_firstLine. eexists. split; [reflexivity|]. simpl. eauto. }
  repeat (match goal with
          | |- context [match matchPrefix ?l ?b ?t with _ => _ end] =>
              destruct (matchPrefix l b t)
          end;
          try (eexists; split; [reflexivity|]; simpl; solve [eauto])).
Qed.

End ParserFacts.

(** ** The tests of [src/utils/parser.test.ts], run on the embedding *)

Section ParserTests.

Example test_list :
  parseMessage (str "list") = Some (mkParsed TList None None None)
  /\ parseMessage (str "LIST") = Some (mkParsed TList None None None)
  /\ parseMessage (str "/list") = Some (mkParsed TList None None None).
Proof. repeat split; reflexivity. Qed.

Example test_scan_prompt_only :
  parseMessage (str "scan: job tracker")
  = Some (mkParsed TScan (Some (str "job tracker")) None None).
Proof. reflexivity. Qed.

Example test_scan_with_content :
  parseMessage (str "scan: job tracker" ++ [newline] ++ str "Meeting with John about Q1")
  = Some (mkParsed TScan (Some (str "job tracker"))
            (Some (str "Meeting with John about Q1")) None).
Proof. reflexivity. Qed.

Example test_scan_multiline :
  parseMessage (str "scan: research" ++ [newline] ++ str "Line 1" ++ [newline]
                  ++ str "Line 2" ++ [newline] ++ str "Line 3")
  = Some (mkParsed TScan (Some (str "research"))
            (Some (str "Line 1" ++ [newline] ++ str "Line 2" ++ [newline]
                     ++ str "Line 3")) None).
Proof. reflexivity. Qed.

Example test_text :
  parseMessage (str "text: Meeting notes about the project")
  = Some (mkParsed TText None (Some (str "Meeting notes about the project")) None).
Proof. reflexivity. Qed.

Example test_get :
  parseMessage (str "get: /job-tracker/january")
  = Some (mkParsed TGet None None (Some (str "/job-tracker/january")))
  /\ parseMessage (str "get: leads/acme")
     = Some (mkParsed TGet None None (Some (str "/leads/acme"))).
Proof. split; reflexivity. Qed.

Example test_file :
  parseMessage (str "file: /leads/acme/resume.pdf")
  = Some (mkParsed TFile None None (Some (str "/leads/acme/resume.pdf"))).
Proof. reflexivity. Qed.

Example test_unknown :
  parseMessage (str "hello there") = Some unknown
  /\ parseMessage (str "random text") = Some unknown.
Proof. split; reflexivity. Qed.

Example test_isFileCaption :
  isFileCaption (str "job tracker") = true
  /\ isFileCaption (str "leads - acme corp") = true
  /\ isFileCaption (str "receipts") = true
  /\ isFileCaption (str "scan: something") = false
  /\ isFileCaption (str "text: something") = false
  /\ isFileCaption (str "get: /path") = false
  /\ isFileCaption (str "/list") = false
  /\ isFileCaption (str "list") = false
  /\ isFileCaption [] = false
  /\ isFileCaption (replicate 101 97) = false.
Proof. repeat split; vm_compute; reflexivity. Qed.

Example test_sanitize :
  sanitize (str "<script>alert(" ++ [34] ++ str "xss" ++ [34] ++ str ")</script>")
  = str "scriptalert(" ++ [34] ++ str "xss" ++ [34] ++ str ")/script"
  /\ sanitize (str "  hello  ") = str "hello"
  /\ length (sanitize (replicate 2000 97)) = 1000%nat.
Proof. repeat split; vm_compute; reflexivity. Qed.

End ParserTests.

(** C1. [parseMessage] returns on every string, without throwing, and
    what it returns is one of the six variants, each with exactly its
    fields ([list] and [unknown] with none, [scan] with a prompt, [text]
    with a content, [get] and [file] with a path); a string to which no
    grammar rule applies is classified [unknown]. *)
Theorem parseMessage_total (s : list Z) :
  (exists m, parseMessage s = Some m /\ wellShaped m)
  /\ (noRuleMatches s -> parseMessage s = Some unknown).
Proof.
  split; [apply parseMessage_wellShaped|].
  intros (Hlist & Hscan & Htext & Hget & Hfile).
  destruct lower_literals as (Ls & Lt & Lg & Lf).
  unfold parseMessage.
  destruct (streq (toLowerCase (trim s)) (str "list")) eqn:E1.
  { apply streq_eq in E1. exfalso. apply Hlist. left. exact E1. }
  destruct (streq (toLowerCase (trim s)) (str "/list")) eqn:E2.
  { apply streq_eq in E2. exfalso. apply Hlist. right. exact E2. }
  simpl.
  rewrite (matchPrefix_none _ _ _ Ls Hscan), (matchPrefix_none _ _ _ Lt Htext),
    (matchPrefix_none _ _ _ Lg Hget), (matchPrefix_none _ _ _ Lf Hfile).
  reflexivity.
Qed.

Lemma parseMessage_total_witness :
  noRuleMatches (str "hello there")
  /\ parseMessage (str "hello there") = Some unknown.
Proof.
  assert (H : noRuleMatches (str "hello there")).
  { unfold noRuleMatches, isListCommand, hasPrefix. vm_compute.
    repeat split; try intros [H|H]; try intros H; discriminate H. }
  split; [exact H | exact (proj2 (parseMessage_total (str "hello there")) H)].
Defined.

Section ScanFacts.

Lemma asciiLower_s c : asciiLower c = 115 -> c = 115 \/ c = 83.
Proof.
  unfold asciiLower. destruct ((65 <=? c) && (c <=? 90)) eqn:E; lia.
Qed.

Lemma scan_prefix_head t :
  hasPrefix (str "scan:") t -> exists c r, t = c :: r /\ (c = 115 \/ c = 83).
Proof.
  unfold hasPrefix. destruct t as [|c r]; simpl; [discriminate|].
  intros H. injection H as Hc _. exists c, r. split; [reflexivity|].
  apply asciiLower_s. exact Hc.
Qed.

Lemma scan_prefix_not_list t :
  hasPrefix (str "scan:") t ->
  streq (toLowerCase t) (str "list") || streq (toLowerCase t) (str "/list") = false.
Proof.
  intros H. destruct (scan_prefix_head t H) as (c & r & -> & [-> | ->]); reflexivity.
Qed.

Lemma scan_prefix_only t b :
  hasPrefix (str "scan:") t ->
  matchPrefix (str "text:") b t = None
  /\ matchPrefix (str "get:") b t = None
  /\ matchPrefix (str "file:") b t = None.
Proof.
  intros H. destruct (scan_prefix_head t H) as (c & r & -> & [-> | ->]);
    repeat split; reflexivity.
Qed.

Lemma scan_prefix_split t :
  hasPrefix (str "scan:") t -> t = take 5 t ++ drop 5 t.
Proof. intros _. symmetry. apply take_drop. Qed.

End ScanFacts.

(** C5, as the specification words it, fails on the code in two ways.
    With nothing after the prefix the message is not a [scan] at all;
    and when a line break directly follows the prefix the white space
    skipped by the pattern includes that line break, so the prompt is
    taken from the next line. *)
Lemma parseMessage_scan_counterexample :
  (hasPrefix (str "scan:") (trim (str "scan:"))
   /\ parseMessage (str "scan:") <> Some (scanOf (afterScanPrefix (str "scan:")))
   /\ parseMessage (str "scan:") = Some unknown)
  /\ (hasPrefix (str "scan:") (trim (str "scan:" ++ [newline] ++ str "body"))
      /\ scanOf (afterScanPrefix (str "scan:" ++ [newline] ++ str "body"))
         = mkParsed TScan (Some []) (Some (str "body")) None
      /\ parseMessage (str "scan:" ++ [newline] ++ str "body")
         = Some (mkParsed TScan (Some (str "body")) None None)).
Proof.
  split; (split; [reflexivity|]); split; try reflexivity.
  vm_compute. discriminate.
Qed.

(** C5 (amended).  For every input whose trimmed form starts with the
    prefix ["scan:"], letters compared without case: when at least one
    unit follows the prefix the message is a [scan]; the white space
    that follows the prefix, line breaks included, is skipped, and what
    remains is split at its first newline, the first line trimmed being
    the prompt and the remaining lines, trimmed as one block with their
    inner newlines kept, the content, absent when empty.  When nothing
    follows the prefix the message is [unknown]. *)
Theorem parseMessage_scan (s : list Z) :
  hasPrefix (str "scan:") (trim s) ->
  (afterScanPrefix s <> [] ->
   parseMessage s = Some (scanOf (trimStart (afterScanPrefix s))))
  /\ (afterScanPrefix s = [] -> parseMessage s = Some unknown).
Proof.
  intros Hp. unfold afterScanPrefix.
  destruct lower_literals as (Ls & _).
  pose proof (matchLiteral_complete _ _ Ls Hp) as Hm.
  change (length (str "scan:")) with 5%nat in Hm.
  pose proof (scan_prefix_not_list _ Hp) as Hl.
  assert (Hw : matchPrefix (str "scan:") true (trim s)
               = wsStar (dotPlus true) (drop 5 (trim s))).
  { unfold matchPrefix. rewrite Hm. reflexivity. }
  unfold parseMessage. rewrite Hl, Hw.
  split; intros Hr.
  - assert (Hne : trimStart (drop 5 (trim s)) <> []).
    { eapply trim_tail_not_blank; [apply scan_prefix_split; exact Hp | exact Hr]. }
    rewrite wsStar_greedy.
    + unfold dotPlus, orUndefined.
      destruct (trimStart (drop 5 (trim s))) as [|c r] eqn:E; [contradiction|].
      rewrite split_firstLine, split_afterFirstLine. reflexivity.
    + unfold dotPlus, orUndefined.
      destruct (trimStart (drop 5 (trim s))); [contradiction | eexists; reflexivity].
  - rewrite Hr. simpl.
    destruct (scan_prefix_only (trim s) true Hp) as (-> & _ & _).
    destruct (scan_prefix_only (trim s) false Hp) as (_ & -> & ->).
    reflexivity.
Qed.

Lemma parseMessage_scan_witness :
  hasPrefix (str "scan:") (trim (str "Scan: research" ++ [newline] ++ str "Line 1"))
  /\ afterScanPrefix (str "Scan: research" ++ [newline] ++ str "Line 1") <> []
  /\ parseMessage (str "Scan: research" ++ [newline] ++ str "Line 1")
     = Some (mkParsed TScan (Some (str "research")) (Some (str "Line 1")) None).
Proof.
  assert (Hp : hasPrefix (str "scan:")
                 (trim (str "Scan: research" ++ [newline] ++ str "Line 1")))
    by reflexivity.
  assert (Hr : afterScanPrefix (str "Scan: research" ++ [newline] ++ str "Line 1") <> [])
    by (vm_compute; discriminate).
  split; [exact Hp|]. split; [exact Hr|].
  rewrite (proj1 (parseMessage_scan _ Hp) Hr). reflexivity.
Defined.

Section SanitizeFacts.

Lemma elem_of_trim c s : c ∈ trim s -> c ∈ s.
Proof.
  unfold trim. intros H.
  destruct (trimStart_suffix s) as [k [Hk _]].
  destruct (trimEnd_prefix (trimStart s)) as [k' [Hk' _]].
  rewrite Hk, Hk'. rewrite !elem_of_app. auto.
Qed.

Lemma elem_of_take_list (c : Z) n s : c ∈ take n s -> c ∈ s.
Proof.
  intros H. rewrite <- (take_drop n s). apply elem_of_app. left. exact H.
Qed.

Lemma stripAngle_clean s : (lt_sign ∉ stripAngle s) /\ (gt_sign ∉ stripAngle s).
Proof.
  unfold stripAngle.
  split; intros H; apply list_elem_of_filter in H as [H _]; vm_compute in H; discriminate.
Qed.

Lemma stripAngle_fixed s : lt_sign ∉ s -> gt_sign ∉ s -> stripAngle s = s.
Proof.
  unfold stripAngle. induction s as [|c s IH]; [reflexivity|].
  intros Hl Hg. rewrite !not_elem_of_cons in Hl, Hg.
  destruct Hl as [Hl Hl'], Hg as [Hg Hg'].
  rewrite filter_cons_True.
  - f_equal. apply IH; assumption.
  - unfold lt_sign, gt_sign in *.
    destruct (c =? 60) eqn:E1; [lia|]. destruct (c =? 62) eqn:E2; [lia|]. reflexivity.
Qed.

Lemma sanitize_clean x : (lt_sign ∉ sanitize x) /\ (gt_sign ∉ sanitize x).
Proof.
  destruct (stripAngle_clean x) as [Hl Hg]. unfold sanitize, slice0.
  split; intros H; apply elem_of_take_list, elem_of_trim in H; contradiction.
Qed.

Lemma sanitize_length x : (length (sanitize x) <= MAX_LENGTH)%nat.
Proof. unfold sanitize, slice0. rewrite length_take. lia. Qed.

Lemma sanitize_head x c r : sanitize x = c :: r -> isWhiteSpace c = false.
Proof.
  unfold sanitize, slice0, MAX_LENGTH.
  destruct (trim (stripAngle x)) as [|a t] eqn:E; simpl; [discriminate|].
  intros H. injection H as <- _. eapply trim_head. exact E.
Qed.

Lemma sanitize_fixed x : endsClean (sanitize x) -> sanitize (sanitize x) = sanitize x.
Proof.
  intros Hc. destruct (sanitize_clean x) as [Hl Hg].
  unfold sanitize at 1.
  rewrite (stripAngle_fixed _ Hl Hg).
  rewrite trim_fixed.
  - unfold slice0. apply take_ge. apply sanitize_length.
  - intros c r. apply sanitize_head.
  - exact Hc.
Qed.

Lemma sanitize_short_clean x :
  (length (trim (stripAngle x)) <= MAX_LENGTH)%nat -> endsClean (sanitize x).
Proof.
  intros H. unfold sanitize, slice0. rewrite take_ge by exact H.
  intros c. apply trim_last.
Qed.

End SanitizeFacts.

(** C4, as the specification words it, fails on the code: the result is
    cut after the trimming, so the cut can leave white space at the end,
    which a second pass trims away.  Here the input is 999 letters, a
    space and one more letter. *)
Lemma sanitize_idempotent_counterexample :
  sanitize (replicate 999 97 ++ str " b") = replicate 999 97 ++ str " "
  /\ sanitize (sanitize (replicate 999 97 ++ str " b")) = replicate 999 97
  /\ sanitize (sanitize (replicate 999 97 ++ str " b"))
     <> sanitize (replicate 999 97 ++ str " b").
Proof.
  assert (H1 : sanitize (replicate 999 97 ++ str " b") = replicate 999 97 ++ str " ")
    by (vm_compute; reflexivity).
  assert (H2 : sanitize (sanitize (replicate 999 97 ++ str " b")) = replicate 999 97)
    by (vm_compute; reflexivity).
  split; [exact H1|]. split; [exact H2|].
  rewrite H2, H1. intros H.
  apply (f_equal length) in H. rewrite length_app, !length_replicate in H.
  simpl in H. lia.
Qed.

(** C4 (amended).  [sanitize(x)] is [x] with exactly the units ['<'] and
    ['>'] removed, then trimmed, then cut to its first 1000 units: it
    holds no angle bracket and at most 1000 units.  [sanitize] is
    idempotent on every [x] for which the cut leaves no white space at
    the end of [sanitize(x)], which is the case of every [x] that has at
    most 1000 units once stripped and trimmed. *)
Theorem sanitize_spec (x : list Z) :
  sanitize x = take 1000 (trim (filter (fun c : Z => (c <> 60 /\ c <> 62)%Z) x))
  /\ (length (sanitize x) <= 1000)%nat
  /\ (60 ∉ sanitize x) /\ (62 ∉ sanitize x)
  /\ (endsClean (sanitize x) -> sanitize (sanitize x) = sanitize x)
  /\ ((length (trim (filter (fun c : Z => (c <> 60 /\ c <> 62)%Z) x)) <= 1000)%nat ->
      sanitize (sanitize x) = sanitize x).
Proof.
  assert (Hf : stripAngle x = filter (fun c : Z => (c <> 60 /\ c <> 62)%Z) x).
  { unfold stripAngle. apply list_filter_iff. intros c. unfold lt_sign, gt_sign.
    destruct (c =? 60) eqn:E1; destruct (c =? 62) eqn:E2; simpl; split; intros H;
      try discriminate; try reflexivity; lia. }
  split; [unfold sanitize, slice0, MAX_LENGTH; rewrite Hf; reflexivity|].
  split; [apply sanitize_length|].
  split; [apply sanitize_clean|]. split; [apply sanitize_clean|].
  split; [apply sanitize_fixed|].
  rewrite <- Hf. intros H. apply sanitize_fixed, sanitize_short_clean. exact H.
Qed.

Lemma sanitize_spec_witness :
  endsClean (sanitize (str "  <b>job tracker</b> "))
  /\ sanitize (sanitize (str "  <b>job tracker</b> "))
     = sanitize (str "  <b>job tracker</b> ").
Proof.
  assert (H : endsClean (sanitize (str "  <b>job tracker</b> "))).
  { intros c Hc. vm_compute in Hc. injection Hc as <-. reflexivity. }
  split; [exact H|].
  exact (proj1 (proj2 (proj2 (proj2 (proj2 (sanitize_spec _))))) H).
Defined.

(* ===================================================================== *)
(** * Properties of the codecs *)
(* ===================================================================== *)

Ltac divmod := Z.div_mod_to_equations; lia.

Lemma bytes_check l :
  forallb (fun b => (0 <=? b) && (b <? 256)) l = true -> Forall is_byte l.
Proof.
  intros H. apply Forall_forall. intros b Hb.
  rewrite forallb_forall in H. apply list_elem_of_In, H in Hb.
  unfold is_byte. lia.
Qed.

Ltac bytes := apply bytes_check; vm_compute; reflexivity.

Section HexFacts.

Lemma hexDigit_not_colon n : hexDigit n <> 58.
Proof. unfold hexDigit. destruct (Z.ltb_spec n 10); lia. Qed.

Lemma toHex_no_colon bs : 58 ∉ toHex bs.
Proof.
  unfold toHex. induction bs as [|b bs IH]; simpl.
  - apply not_elem_of_nil.
  - rewrite !not_elem_of_cons. repeat split; try exact IH;
      apply not_eq_sym, hexDigit_not_colon.
Qed.

Lemma toHex_length bs : length (toHex bs) = (2 * length bs)%nat.
Proof.
  unfold toHex. induction bs as [|b bs IH]; simpl; [reflexivity|].
  rewrite IH. lia.
Qed.

Lemma hexValue_hexDigit n : 0 <= n < 16 -> hexValue (hexDigit n) = Some n.
Proof.
  intros H. unfold hexDigit, hexValue.
  destruct (Z.ltb_spec n 10).
  - destruct ((48 <=? 48 + n) && (48 + n <=? 57)) eqn:E; [f_equal; lia | lia].
  - destruct ((48 <=? 87 + n) && (87 + n <=? 57)) eqn:E; [lia|].
    destruct ((97 <=? 87 + n) && (87 + n <=? 102)) eqn:E'; [f_equal; lia | lia].
Qed.

Lemma fromHex_toHex bs : Forall is_byte bs -> fromHex (toHex bs) = bs.
Proof.
  unfold toHex, is_byte. induction 1 as [|b bs Hb _ IH]; simpl; [reflexivity|].
  rewrite !hexValue_hexDigit by divmod.
  f_equal; [divmod | exact IH].
Qed.

Lemma toHex_inj a b :
  Forall is_byte a -> Forall is_byte b -> toHex a = toHex b -> a = b.
Proof.
  intros Ha Hb H. rewrite <- (fromHex_toHex a Ha), <- (fromHex_toHex b Hb), H.
  reflexivity.
Qed.

Lemma split_no_sep sep s : sep ∉ s -> split sep s = [s].
Proof.
  induction s as [|c s IH]; simpl; [reflexivity|].
  rewrite not_elem_of_cons. intros [Hc Hs].
  destruct (c =? sep) eqn:E; [lia|]. rewrite (IH Hs). reflexivity.
Qed.

Lemma split_at_sep sep a b :
  sep ∉ a -> split sep (a ++ sep :: b) = a :: split sep b.
Proof.
  induction a as [|c a IH]; simpl.
  - intros _. rewrite Z.eqb_refl. reflexivity.
  - rewrite not_elem_of_cons. intros [Hc Ha].
    destruct (c =? sep) eqn:E; [lia|]. rewrite (IH Ha). reflexivity.
Qed.

End HexFacts.

Section Utf8Facts.

Lemma decodeLead_one b : 0 <= b <= 127 -> decodeLead b = ([b], None).
Proof.
  intros H. unfold decodeLead.
  destruct ((0 <=? b) && (b <=? 127)) eqn:E; [reflexivity | lia].
Qed.

Lemma decodeLead_two b :
  194 <= b <= 223 -> decodeLead b = ([], Some (mkDec (b - 192) 1 128 191)).
Proof.
  intros H. unfold decodeLead.
  destruct ((0 <=? b) && (b <=? 127)) eqn:E; [lia|].
  destruct ((194 <=? b) && (b <=? 223)) eqn:E'; [reflexivity | lia].
Qed.

Lemma decodeLead_three b :
  224 <= b <= 239 ->
  decodeLead b = ([], Some (mkDec (b - 224) 2 (if b =? 224 then 160 else 128)
                                  (if b =? 237 then 159 else 191))).
Proof.
  intros H. unfold decodeLead.
  destruct ((0 <=? b) && (b <=? 127)) eqn:E; [lia|].
  destruct ((194 <=? b) && (b <=? 223)) eqn:E'; [lia|].
  destruct ((224 <=? b) && (b <=? 239)) eqn:E''; [reflexivity | lia].
Qed.

Lemma decodeLead_four b :
  240 <= b <= 244 ->
  decodeLead b = ([], Some (mkDec (b - 240) 3 (if b =? 240 then 144 else 128)
                                  (if b =? 244 then 143 else 191))).
Proof.
  intros H. unfold decodeLead.
  destruct ((0 <=? b) && (b <=? 127)) eqn:E; [lia|].
  destruct ((194 <=? b) && (b <=? 223)) eqn:E'; [lia|].
  destruct ((224 <=? b) && (b <=? 239)) eqn:E''; [lia|].
  destruct ((240 <=? b) && (b <=? 244)) eqn:E'''; [reflexivity | lia].
Qed.

Lemma decode_lead b bs :
  utf8DecodeFrom None (b :: bs)
  = (decodeLead b).1 ++ utf8DecodeFrom (decodeLead b).2 bs.
Proof. simpl. destruct (decodeLead b). reflexivity. Qed.

Lemma decode_more cp n lo hi b bs :
  lo <= b <= hi ->
  utf8DecodeFrom (Some (mkDec cp (S (S n)) lo hi)) (b :: bs)
  = utf8DecodeFrom (Some (mkDec (cp * 64 + (b - 128)) (S n) 128 191)) bs.
Proof.
  intros H. simpl.
  destruct ((lo <=? b) && (b <=? hi)) eqn:E; [reflexivity | lia].
Qed.

Lemma decode_last cp lo hi b bs :
  lo <= b <= hi ->
  utf8DecodeFrom (Some (mkDec cp 1 lo hi)) (b :: bs)
  = utf16Units (cp * 64 + (b - 128)) ++ utf8DecodeFrom None bs.
Proof.
  intros H. simpl.
  destruct ((lo <=? b) && (b <=? hi)) eqn:E; [reflexivity | lia].
Qed.

(** Decoding the bytes of a scalar value gives its UTF-16 units back. *)
Lemma decode_scalar cp rest :
  0 <= cp < 1114112 -> ~ (55296 <= cp <= 57343) ->
  utf8DecodeFrom None (utf8Bytes cp ++ rest)
  = utf16Units cp ++ utf8DecodeFrom None rest.
Proof.
  intros Hr Hs. unfold utf8Bytes.
  destruct (Z.ltb_spec cp 128); [|destruct (Z.ltb_spec cp 2048);
                                   [|destruct (Z.ltb_spec cp 65536)]].
  - simpl app. rewrite decode_lead, decodeLead_one by lia. simpl.
    unfold utf16Units. destruct (Z.ltb_spec cp 65536); [reflexivity | lia].
  - simpl app. rewrite decode_lead, decodeLead_two by divmod. cbn [fst snd app].
    rewrite decode_last by divmod.
    f_equal. f_equal. divmod.
  - simpl app. rewrite decode_lead, decodeLead_three by divmod. cbn [fst snd app].
    rewrite decode_more
      by (destruct (Z.eqb_spec (224 + cp / 4096) 224);
          destruct (Z.eqb_spec (224 + cp / 4096) 237); divmod).
    rewrite decode_last by divmod.
    f_equal. f_equal. divmod.
  - simpl app. rewrite decode_lead, decodeLead_four by divmod. cbn [fst snd app].
    rewrite decode_more
      by (destruct (Z.eqb_spec (240 + cp / 262144) 240);
          destruct (Z.eqb_spec (240 + cp / 262144) 244); divmod).
    rewrite decode_more by divmod.
    rewrite decode_last by divmod.
    f_equal. f_equal. divmod.
Qed.

Lemma utf16Units_pair c d :
  isHighSurrogate c = true -> isLowSurrogate d = true ->
  utf16Units (codePoint c d) = [c; d].
Proof.
  unfold isHighSurrogate, isLowSurrogate, utf16Units, codePoint. intros Hc Hd.
  destruct (Z.ltb_spec (65536 + (c - 55296) * 1024 + (d - 56320)) 65536); [lia|].
  f_equal; [|f_equal]; divmod.
Qed.

Lemma utf16Units_bmp c : 0 <= c < 65536 -> utf16Units c = [c].
Proof.
  intros H. unfold utf16Units. destruct (Z.ltb_spec c 65536); [reflexivity | lia].
Qed.

Lemma utf8_roundtrip_bounded n s :
  (length s <= n)%nat -> wellFormed s = true -> utf8Decode (utf8Encode s) = s.
Proof.
  unfold utf8Decode. revert s. induction n as [|n IH]; intros s Hn Hw.
  - destruct s; [reflexivity | simpl in Hn; lia].
  - destruct s as [|c s]; [reflexivity|].
    simpl in Hw |- *. destruct (isHighSurrogate c) eqn:Hc.
    + destruct s as [|d s]; [discriminate|].
      apply andb_prop in Hw as [Hd Hw]. rewrite Hd.
      rewrite decode_scalar.
      * rewrite utf16Units_pair by assumption. simpl.
        rewrite IH; [reflexivity | simpl in Hn; lia | exact Hw].
      * unfold codePoint, isHighSurrogate, isLowSurrogate in *. lia.
      * unfold codePoint, isHighSurrogate, isLowSurrogate in *. lia.
    + destruct (isLowSurrogate c) eqn:Hl; [discriminate|]. simpl in Hw.
      apply andb_prop in Hw as [Hb Hw]. apply andb_prop in Hb as [Hb1 Hb2].
      rewrite decode_scalar.
      * rewrite utf16Units_bmp by lia. simpl.
        rewrite IH; [reflexivity | simpl in Hn; lia | exact Hw].
      * lia.
      * unfold isHighSurrogate, isLowSurrogate in *. lia.
Qed.

(** On a string without unpaired surrogates, decoding inverts encoding. *)
Lemma utf8_roundtrip s : wellFormed s = true -> utf8Decode (utf8Encode s) = s.
Proof. apply (utf8_roundtrip_bounded (length s)). lia. Qed.

Lemma utf8Bytes_bytes cp : 0 <= cp < 1114112 -> Forall is_byte (utf8Bytes cp).
Proof.
  intros H. unfold utf8Bytes, is_byte.
  destruct (Z.ltb_spec cp 128); [|destruct (Z.ltb_spec cp 2048);
                                   [|destruct (Z.ltb_spec cp 65536)]];
    repeat constructor; divmod.
Qed.

Lemma utf8Encode_bytes_bounded n s :
  (length s <= n)%nat -> wellFormed s = true -> Forall is_byte (utf8Encode s).
Proof.
  revert s. induction n as [|n IH]; intros s Hn Hw.
  - destruct s; [constructor | simpl in Hn; lia].
  - destruct s as [|c s]; [constructor|].
    simpl in Hw |- *. destruct (isHighSurrogate c) eqn:Hc.
    + destruct s as [|d s]; [discriminate|].
      apply andb_prop in Hw as [Hd Hw]. rewrite Hd.
      apply Forall_app. split.
      * apply utf8Bytes_bytes.
        unfold codePoint, isHighSurrogate, isLowSurrogate in *. lia.
      * apply IH; [simpl in Hn; lia | exact Hw].
    + destruct (isLowSurrogate c) eqn:Hl; [discriminate|]. simpl in Hw.
      apply andb_prop in Hw as [Hb Hw]. apply andb_prop in Hb as [Hb1 Hb2].
      apply Forall_app. split.
      * apply utf8Bytes_bytes. lia.
      * apply IH; [simpl in Hn; lia | exact Hw].
Qed.

Lemma utf8Encode_bytes s : wellFormed s = true -> Forall is_byte (utf8Encode s).
Proof. apply (utf8Encode_bytes_bounded (length s)). lia. Qed.

End Utf8Facts.

(* ===================================================================== *)
(** * Properties of the session store *)
(* ===================================================================== *)

Section ToyCipherFacts.
Import ToyCipher.

Lemma shift_back b : is_byte b -> shift 166 (shift 90 b) = b.
Proof. unfold is_byte, shift. intros H. divmod. Qed.

Lemma shift_byte k b : is_byte (shift k b).
Proof. unfold is_byte, shift. divmod. Qed.

Lemma toyEncrypt_bytes iv p : Forall is_byte (toyEncrypt iv p).
Proof.
  unfold toyEncrypt. apply Forall_app. split.
  - apply Forall_forall. intros x Hx. apply list_elem_of_In, in_map_iff in Hx.
    destruct Hx as [b [<- _]]. apply shift_byte.
  - repeat constructor. unfold is_byte. lia.
Qed.

Lemma toyCipher_correct : CipherCorrect toyCipher.
Proof.
  split. simpl. intros iv p _ _ Hp. unfold toyDecrypt.
  rewrite fromHex_toHex by apply toyEncrypt_bytes.
  unfold toyEncrypt. rewrite rev_app_distr. simpl. rewrite rev_involutive.
  f_equal. induction Hp as [|b p Hb _ IH]; simpl; [reflexivity|].
  rewrite shift_back by exact Hb. f_equal. exact IH.
Qed.

End ToyCipherFacts.

Section SessionFacts.
Context {C : Cipher}.

Lemma encrypt_split iv text :
  split colon (encrypt iv text)
  = [toHex iv; toHex (cbcEncrypt iv (utf8Encode text))].
Proof.
  unfold encrypt. simpl app.
  rewrite split_at_sep by apply toHex_no_colon.
  rewrite split_no_sep by apply toHex_no_colon. reflexivity.
Qed.

Lemma encrypt_nonempty iv text : encrypt iv text <> [].
Proof.
  unfold encrypt. intros H. apply (f_equal length) in H.
  rewrite !length_app in H. simpl in H. lia.
Qed.

(** Decryption of an encryption, for any text: the text as it comes
    back from its UTF-8 bytes. *)
Lemma decrypt_encrypt_bytes (HC : CipherCorrect C) iv text :
  length iv = IV_LENGTH -> Forall is_byte iv -> Forall is_byte (utf8Encode text) ->
  decrypt (encrypt iv text) = Some (utf8Decode (utf8Encode text)).
Proof.
  intros Hl Hb Ht. unfold decrypt. rewrite encrypt_split.
  rewrite (fromHex_toHex iv Hb), Hl, Nat.eqb_refl.
  rewrite cbc_inverse by assumption. reflexivity.
Qed.

Lemma decrypt_encrypt (HC : CipherCorrect C) iv text :
  length iv = IV_LENGTH -> Forall is_byte iv -> wellFormed text = true ->
  decrypt (encrypt iv text) = Some text.
Proof.
  intros Hl Hb Hw.
  rewrite decrypt_encrypt_bytes by (try assumption; apply utf8Encode_bytes, Hw).
  rewrite utf8_roundtrip by exact Hw. reflexivity.
Qed.

(** What [getSession] reads right after [saveSession] wrote a session
    with a non-empty credential. *)
Lemma getSession_saveSession iv store uid k p l :
  k <> [] ->
  getSession (saveSession iv store uid (mkSession (Some k) p l)) uid
  = match decrypt (encrypt iv k) with
    | Some plain => mkSession (Some plain) p l
    | None => mkSession None p l
    end.
Proof.
  intros Hk. unfold getSession, saveSession. rewrite lookup_insert_eq.
  destruct k as [|c k]; [contradiction|]. simpl apiKey.
  destruct (encrypt iv (c :: k)) as [|x ct] eqn:E.
  - exfalso. eapply encrypt_nonempty. exact E.
  - simpl. reflexivity.
Qed.

Lemma getSession_linkedAt_stored store uid data :
  store !! uid = Some data ->
  lastPrompt (getSession store uid) = lastPrompt data
  /\ linkedAt (getSession store uid) = linkedAt data.
Proof.
  intros H. unfold getSession. rewrite H.
  destruct (apiKey data) as [[|c ct]|]; try (split; reflexivity).
  destruct (decrypt (c :: ct)); split; reflexivity.
Qed.

Lemma saveSession_fields iv store uid s :
  lastPrompt (getSession (saveSession iv store uid s) uid) = lastPrompt s
  /\ linkedAt (getSession (saveSession iv store uid s) uid) = linkedAt s.
Proof.
  destruct (getSession_linkedAt_stored (saveSession iv store uid s) uid
              (match apiKey s with
               | Some (c :: k) =>
                   mkSession (Some (encrypt iv (c :: k))) (lastPrompt s) (linkedAt s)
               | _ => s
               end)) as [H1 H2].
  - unfold saveSession. apply lookup_insert_eq.
  - rewrite H1, H2. destruct (apiKey s) as [[|c k]|]; split; reflexivity.
Qed.

Lemma getSession_other iv store uid uid' s :
  uid <> uid' -> getSession (saveSession iv store uid' s) uid = getSession store uid.
Proof.
  intros H. unfold getSession, saveSession.
  rewrite lookup_insert_ne by congruence. reflexivity.
Qed.

End SessionFacts.

(** C2, as the specification words it, fails on the code: the credential
    is written to the cipher as UTF-8, and a surrogate that is not part
    of a pair has no UTF-8 form, so it comes back as U+FFFD.  With any
    correct cipher the one-unit string of the lone surrogate U+D800 is
    read back as the one-unit string U+FFFD, which refutes the round
    trip for every non-empty string. *)
Lemma session_roundtrip_counterexample :
  exists (C : Cipher) (HC : CipherCorrect C) (iv : list Z)
         (store : gmap Z UserSession) (uid : Z) (c : list Z),
    length iv = 16%nat /\ Forall is_byte iv /\ c <> []
    /\ apiKey (getSession (updateSession iv store uid
                             (mkUpdate (Some (Some c)) None None)).2 uid)
       = Some [65533]
    /\ apiKey (getSession (updateSession iv store uid
                             (mkUpdate (Some (Some c)) None None)).2 uid)
       <> Some c.
Proof.
  exists ToyCipher.toyCipher, toyCipher_correct,
    [0;1;2;3;4;5;6;7;8;9;10;11;12;13;14;15], ∅, 7, [55296].
  split; [reflexivity|].
  split; [bytes|].
  split; [discriminate|].
  split; [vm_compute; reflexivity | vm_compute; discriminate].
Qed.

(** With every correct cipher, not only the one of the example: a lone
    surrogate is stored and read back as U+FFFD. *)
Lemma lone_surrogate_replaced (C : Cipher) (HC : CipherCorrect C) iv store uid :
  length iv = 16%nat -> Forall is_byte iv ->
  apiKey (getSession (updateSession iv store uid
                        (mkUpdate (Some (Some [55296])) None None)).2 uid)
  = Some [65533].
Proof.
  intros Hl Hb. unfold updateSession, merge. simpl.
  rewrite getSession_saveSession by discriminate.
  rewrite decrypt_encrypt_bytes; try assumption.
  - reflexivity.
  - bytes.
Qed.

(** C2 (amended).  For every user id, every 16-byte IV and every
    non-empty string [c] without unpaired surrogates: after
    [updateSession(uid, {apiKey: c, ...})], and so after
    [setApiKey(uid, c)], [getSession(uid)] returns a session whose
    [apiKey] is [c]; [decrypt] inverts [encrypt] on every such string. *)
Theorem session_credential_roundtrip (C : Cipher) (HC : CipherCorrect C)
    (iv now : list Z) (store : gmap Z UserSession) (uid : Z)
    (updates : SessionUpdate) (c : list Z) :
  length iv = 16%nat -> Forall is_byte iv ->
  c <> [] -> wellFormed c = true ->
  uApiKey updates = Some (Some c) ->
  apiKey (getSession (updateSession iv store uid updates).2 uid) = Some c
  /\ apiKey (getSession (setApiKey iv now store uid c) uid) = Some c
  /\ decrypt (encrypt iv c) = Some c.
Proof.
  intros Hl Hb Hc Hw Hu.
  assert (Hd : decrypt (encrypt iv c) = Some c) by (apply decrypt_encrypt; assumption).
  assert (Hs : forall p l,
             apiKey (getSession (saveSession iv store uid (mkSession (Some c) p l)) uid)
             = Some c).
  { intros p l. rewrite getSession_saveSession by exact Hc. rewrite Hd. reflexivity. }
  split; [|split; [|exact Hd]].
  - unfold updateSession, merge. rewrite Hu. simpl. apply Hs.
  - unfold setApiKey, updateSession, merge. simpl. apply Hs.
Qed.

Lemma session_credential_roundtrip_witness :
  apiKey (@getSession ToyCipher.toyCipher
            (@setApiKey ToyCipher.toyCipher [0;1;2;3;4;5;6;7;8;9;10;11;12;13;14;15]
               (str "2026-01-01T00:00:00.000Z") ∅ 7 (str "ep_0123456789abcdefghij")) 7)
  = Some (str "ep_0123456789abcdefghij").
Proof.
  refine (proj1 (proj2 (session_credential_roundtrip ToyCipher.toyCipher
            toyCipher_correct [0;1;2;3;4;5;6;7;8;9;10;11;12;13;14;15]
            (str "2026-01-01T00:00:00.000Z") ∅ 7
            (mkUpdate (Some (Some (str "ep_0123456789abcdefghij"))) None None)
            (str "ep_0123456789abcdefghij") _ _ _ _ _))).
  - reflexivity.
  - bytes.
  - discriminate.
  - reflexivity.
  - reflexivity.
Defined.

(** C3. [getSession] returns a session for every store and user id.
    For an absent record it returns the empty session.  For a stored
    record it returns [lastPrompt] and [linkedAt] as stored, whatever
    happens to the credential; and when the stored credential does not
    decrypt (the text is corrupted or was written under another key, so
    that [decrypt] throws), it returns the record with [apiKey]
    cleared. *)
Theorem getSession_never_fails (C : Cipher) (store : gmap Z UserSession) (uid : Z) :
  (store !! uid = None -> getSession store uid = emptySession)
  /\ (forall data,
        store !! uid = Some data ->
        lastPrompt (getSession store uid) = lastPrompt data
        /\ linkedAt (getSession store uid) = linkedAt data)
  /\ (forall data ct,
        store !! uid = Some data -> apiKey data = Some ct -> ct <> [] ->
        decrypt ct = None ->
        getSession store uid = mkSession None (lastPrompt data) (linkedAt data)).
Proof.
  split; [|split].
  - intros H. unfold getSession. rewrite H. reflexivity.
  - intros data H. apply getSession_linkedAt_stored. exact H.
  - intros data ct H Hk Hne Hd. unfold getSession. rewrite H, Hk.
    destruct ct as [|c ct]; [contradiction|]. rewrite Hd. reflexivity.
Qed.

Lemma getSession_never_fails_witness :
  @getSession ToyCipher.toyCipher
    {[ 7 := mkSession (Some (str "00ff:zz")) (Some (str "job tracker"))
                      (Some (str "2026-01-01T00:00:00.000Z")) ]} 7
  = mkSession None (Some (str "job tracker")) (Some (str "2026-01-01T00:00:00.000Z")).
Proof.
  refine (proj2 (proj2 (getSession_never_fails ToyCipher.toyCipher _ 7))
            (mkSession (Some (str "00ff:zz")) (Some (str "job tracker"))
                       (Some (str "2026-01-01T00:00:00.000Z")))
            (str "00ff:zz") _ _ _ _).
  - apply lookup_singleton_eq.
  - reflexivity.
  - discriminate.
  - reflexivity.
Defined.

(** C6. For every plaintext, two encryptions under distinct 16-byte IVs
    give different strings; and the string has the shape
    [iv:ciphertext], both parts in hexadecimal, from which the IV is
    read back. *)
Theorem encrypt_nonce_fresh (C : Cipher) (iv1 iv2 p : list Z) :
  length iv1 = 16%nat -> length iv2 = 16%nat ->
  Forall is_byte iv1 -> Forall is_byte iv2 -> iv1 <> iv2 ->
  encrypt iv1 p <> encrypt iv2 p
  /\ split colon (encrypt iv1 p) = [toHex iv1; toHex (cbcEncrypt iv1 (utf8Encode p))]
  /\ fromHex (toHex iv1) = iv1.
Proof.
  intros H1 H2 B1 B2 Hne. split; [|split].
  - intros H. apply Hne. apply (f_equal (split colon)) in H.
    rewrite !encrypt_split in H. injection H as H _.
    apply toHex_inj; assumption.
  - apply encrypt_split.
  - apply fromHex_toHex. exact B1.
Qed.

Lemma encrypt_nonce_fresh_witness :
  [0;1;2;3;4;5;6;7;8;9;10;11;12;13;14;15] <> [255;1;2;3;4;5;6;7;8;9;10;11;12;13;14;15]
  /\ @encrypt ToyCipher.toyCipher [0;1;2;3;4;5;6;7;8;9;10;11;12;13;14;15] (str "ep_secret")
     <> @encrypt ToyCipher.toyCipher [255;1;2;3;4;5;6;7;8;9;10;11;12;13;14;15]
          (str "ep_secret").
Proof.
  split; [discriminate|].
  refine (proj1 (encrypt_nonce_fresh ToyCipher.toyCipher
                   [0;1;2;3;4;5;6;7;8;9;10;11;12;13;14;15]
                   [255;1;2;3;4;5;6;7;8;9;10;11;12;13;14;15] (str "ep_secret") _ _ _ _ _)).
  - reflexivity.
  - reflexivity.
  - bytes.
  - bytes.
  - discriminate.
Defined.

(** C9, as the specification words it, fails on the code: every accepted
    credential is stored through [setApiKey], which writes [linkedAt]
    anew.  A user who sends a valid key in January and again in February
    ends with the February time. *)
Lemma linkedAt_set_once_counterexample :
  linkedAt (@getSession ToyCipher.toyCipher
              (sessions (run
                 (handleTextMessage (C := ToyCipher.toyCipher)
                    (Scenario.envWith Scenario.emptyOk Scenario.january)
                    (Scenario.textFrom Scenario.user Scenario.key)) ∅ ∅))
              Scenario.user)
  = Some Scenario.january
  /\ linkedAt (@getSession ToyCipher.toyCipher
                 (sessions (run
                    (handleTextMessage (C := ToyCipher.toyCipher)
                       (Scenario.envWith Scenario.emptyOk Scenario.february)
                       (Scenario.textFrom Scenario.user Scenario.key))
                    (sessions (run
                       (handleTextMessage (C := ToyCipher.toyCipher)
                          (Scenario.envWith Scenario.emptyOk Scenario.january)
                          (Scenario.textFrom Scenario.user Scenario.key)) ∅ ∅))
                    ∅))
                 Scenario.user)
     = Some Scenario.february
  /\ Scenario.january <> Scenario.february.
Proof.
  split; [vm_compute; reflexivity|]. split; [vm_compute; reflexivity|].
  vm_compute. discriminate.
Qed.

(** C9 (amended).  [linkedAt] is written by [setApiKey], and by it every
    time: after [setApiKey] the session's [linkedAt] is the time of that
    call, whatever it was before.  [setLastPrompt] leaves it as it was,
    and so does every write to another user's session. *)
Theorem linkedAt_lifecycle (C : Cipher) (iv now : list Z)
    (store : gmap Z UserSession) (uid : Z) (key p : list Z) :
  linkedAt (getSession (setApiKey iv now store uid key) uid) = Some now
  /\ linkedAt (getSession (setLastPrompt iv store uid p) uid)
     = linkedAt (getSession store uid)
  /\ (forall uid', uid <> uid' ->
        getSession (setApiKey iv now store uid' key) uid = getSession store uid
        /\ getSession (setLastPrompt iv store uid' p) uid = getSession store uid).
Proof.
  split; [|split].
  - unfold setApiKey, updateSession. cbn [snd].
    rewrite (proj2 (saveSession_fields _ _ _ _)). reflexivity.
  - unfold setLastPrompt, updateSession. cbn [snd].
    rewrite (proj2 (saveSession_fields _ _ _ _)). reflexivity.
  - intros uid' Hne. unfold setApiKey, setLastPrompt, updateSession. cbn [snd].
    split; apply getSession_other; exact Hne.
Qed.

(* ===================================================================== *)
(** * Properties of the orchestrator *)
(* ===================================================================== *)

Section Counting.
Context {C : Cipher}.

Lemma bind_run {A B} (m : M A) (f : A -> M B) w :
  (m ≫= f) w = f (m w).1 (m w).2.
Proof. unfold mbind, M_bind. destruct (m w). reflexivity. Qed.

Lemma adds_ret {A} (a : A) : adds (mret a) 0.
Proof. intros w. simpl. lia. Qed.

Lemma adds_bind0 {A B} (m : M A) (f : A -> M B) n :
  adds m 0 -> (forall a, adds (f a) n) -> adds (m ≫= f) n.
Proof.
  intros Hm Hf w. rewrite bind_run, Hf, Hm. lia.
Qed.

Lemma adds_reply m kb : adds (reply m kb) 1.
Proof.
  intros w. unfold reply, emit, replies. simpl.
  rewrite List.filter_app, length_app. reflexivity.
Qed.

Lemma adds_emit e : isReply e = false -> adds (emit e) 0.
Proof.
  intros He w. unfold emit, replies. simpl.
  rewrite List.filter_app, length_app. simpl. rewrite He. reflexivity.
Qed.

Lemma adds_state {A} (f : World -> A) (g : World -> World) :
  (forall w, sent (g w) = sent w) -> adds (fun w => (f w, g w)) 0.
Proof. intros H w. simpl. rewrite H. lia. Qed.

Ltac adds_prim :=
  first
    [ apply adds_ret
    | apply adds_emit; reflexivity
    | apply adds_state; intros ?; reflexivity
    | apply adds_bind0; [apply adds_emit; reflexivity | intros ?; apply adds_ret] ].

Ltac adds_auto :=
  repeat first
    [ apply adds_reply
    | apply adds_bind0; [solve [adds_prim] | intros ?]
    | match goal with
      | |- adds (match ?x with _ => _ end) _ => destruct x
      end ].

(** A bind whose first part returns a known value. *)
Lemma adds_bind_val {A B} (m : M A) (f : A -> M B) v n :
  (forall w, (m w).1 = v) -> adds m 0 -> adds (f v) n -> adds (m ≫= f) n.
Proof.
  intros Hv Hm Hf w. rewrite bind_run, Hv, Hf, Hm. lia.
Qed.

Lemma adds_replyRendered o kb : rendered o = true -> adds (replyRendered o kb) 1.
Proof. destruct o; [intros _; apply adds_reply | discriminate]. Qed.

Lemma adds_replyRendered_none kb : adds (replyRendered None kb) 0.
Proof. apply adds_emit. reflexivity. Qed.

(** The body of a handler that reads the credential, shows the typing
    action, asks the backend and replies with the formatted answer. *)
Lemma adds_listEndpointsM {B} env k (f : list EndpointListItem -> M B) n :
  adds (f (listEndpoints (backend env) k)) n -> adds (listEndpointsM env k ≫= f) n.
Proof.
  apply adds_bind_val; [intros w; reflexivity | adds_prim].
Qed.

Lemma adds_getStatsM {B} env k (f : StatsResult -> M B) n :
  adds (f (getStats (backend env) k)) n -> adds (getStatsM env k ≫= f) n.
Proof.
  apply adds_bind_val; [intros w; reflexivity | adds_prim].
Qed.

Ltac adds_keyed Hren :=
  apply adds_bind0; [adds_prim | intros [[|? ?]|]]; try apply adds_reply;
  apply adds_bind0; [adds_prim | intros _];
  first [apply adds_listEndpointsM | apply adds_getStatsM];
  apply adds_replyRendered; apply Hren.




Lemma handleGetMessage_one env ctx uid p :
  userIdOf ctx = Some uid -> adds (handleGetMessage env ctx p) 1.
Proof. intros H. unfold handleGetMessage. rewrite H. adds_auto. Qed.











(** A press of a known button is answered once, provided the answer can
    be formatted: that is so when the backend's answers are renderable,
    and for every button but [status] and [list]. *)
Lemma handleCallbackQuery_one env ctx uid d ata :
  userIdOf ctx = Some uid -> callback_data ctx = Some (d :: ata) ->
  recognised (d :: ata) = true ->
  renderable env
  \/ (streq (d :: ata) (str "status") = false /\ streq (d :: ata) (str "list") = false) ->
  adds (handleCallbackQuery env ctx) 1.
Proof.
  intros Hu Hd Hr Hren. unfold handleCallbackQuery. rewrite Hd, Hu.
  apply adds_bind0; [adds_prim | intros _].
  unfold recognised in Hr.
  repeat match goal with
         | |- adds (if ?b then _ else _) _ => destruct b eqn:?
         end;
    try solve [adds_auto];
    try solve [eapply handleGetMessage_one; exact Hu];
    try solve [destruct Hren as [Hren | [H1 H2]]; [adds_keyed Hren | congruence]].
  repeat match goal with
         | H : _ || _ = false |- _ => apply orb_false_elim in H as [? ?]
         end.
  repeat match goal with
         | H : _ = false |- _ => rewrite H in Hr; clear H
         end.
  discriminate Hr.
Qed.


End Counting.

Section FailureFacts.
Context {C : Cipher}.




End FailureFacts.




(** The proviso of C7 at work: a backend that answers, with usage
    figures of 200 parses out of 100.  [formatStats] throws on them, so
    [/status] shows the typing action, asks the backend, and sends no
    reply. *)
Lemma status_over_quota_unanswered :
  renderStats (Scenario.envWith Scenario.overQuota Scenario.january)
    (getStats Scenario.overQuota Scenario.key) = None
  /\ sent (run (handleStatus (C := ToyCipher.toyCipher)
                  (Scenario.envWith Scenario.overQuota Scenario.january)
                  (Scenario.textFrom Scenario.user (str "/status")))
               Scenario.linked ∅)
     = [ChatAction typing; Call (GetBillingStats Scenario.key); BotError].
Proof.
  split; vm_compute; reflexivity.
Qed.

Section PendingFacts.
Context {C : Cipher}.

Lemma startsWith_app p s : startsWith p s = true -> s = p ++ drop (length p) s.
Proof.
  revert s. induction p as [|a p IH]; intros s; simpl; [reflexivity|].
  destruct s as [|c s]; [discriminate|].
  intros H. apply andb_prop in H as [Ha Hp]. apply Z.eqb_eq in Ha. subst c.
  simpl. f_equal. apply IH. exact Hp.
Qed.

(** A press on a decision button when no file is pending. *)
Lemma decision_expired env ctx store files uid data :
  callback_data ctx = Some data -> startsWith (str "openclaw:") data = true ->
  userIdOf ctx = Some uid -> files !! uid = None ->
  run (handleCallbackQuery env ctx) store files
  = mkWorld store files [AnswerCallbackQuery; Reply FileExpired None].
Proof.
  intros Hd Hp Hu Hf. apply startsWith_app in Hp.
  unfold run, handleCallbackQuery. rewrite Hd, Hp, Hu. simpl.
  unfold mbind, M_bind, getPendingFile. simpl. rewrite Hf.
  rewrite (delete_id _ _ Hf). reflexivity.
Qed.

(** A press on a decision button while a file is pending, by a user
    with a credential. *)
Lemma decision_scans env ctx store files uid data pf k :
  callback_data ctx = Some data -> startsWith (str "openclaw:") data = true ->
  userIdOf ctx = Some uid -> files !! uid = Some pf ->
  getApiKey store uid = Some k -> k <> [] ->
  run (handleCallbackQuery env ctx) store files
  = mkWorld store (delete uid files)
      [AnswerCallbackQuery;
       ChatAction upload_document;
       Call (PostScanFile k (pfPrompt pf) (FromBase64 (pfBuffer pf)) (pfFilename pf)
               (pfMimeType pf) (Some (streq data (str "openclaw:yes"))));
       Reply (formatScanResult
                (scanFile (backend env) k (pfPrompt pf) (FromBase64 (pfBuffer pf))
                   (pfFilename pf) (pfMimeType pf)
                   (Some (streq data (str "openclaw:yes")))))
             (Some (scanKeyboard
                (scanFile (backend env) k (pfPrompt pf) (FromBase64 (pfBuffer pf))
                   (pfFilename pf) (pfMimeType pf)
                   (Some (streq data (str "openclaw:yes"))))))].
Proof.
  intros Hd Hp Hu Hf Hk Hne. apply startsWith_app in Hp.
  unfold run, handleCallbackQuery. rewrite Hd, Hp, Hu. simpl.
  unfold mbind, M_bind, getPendingFile, getApiKeyM.
  cbn -[getApiKey scanFile]. rewrite Hf. cbn -[getApiKey scanFile]. rewrite Hk.
  destruct k as [|c k]; [contradiction|]. reflexivity.
Qed.

(** A press on a decision button while a file is pending, by a user
    whose credential is absent or unreadable. *)
Lemma decision_without_credential env ctx store files uid data pf :
  callback_data ctx = Some data -> startsWith (str "openclaw:") data = true ->
  userIdOf ctx = Some uid -> files !! uid = Some pf ->
  truthy (getApiKey store uid) = false ->
  run (handleCallbackQuery env ctx) store files
  = mkWorld store (delete uid files) [AnswerCallbackQuery; Reply formatMissingApiKey None].
Proof.
  intros Hd Hp Hu Hf Hk. apply startsWith_app in Hp.
  unfold run, handleCallbackQuery. rewrite Hd, Hp, Hu. simpl.
  unfold mbind, M_bind, getPendingFile, getApiKeyM.
  cbn -[getApiKey scanFile]. rewrite Hf. cbn -[getApiKey scanFile].
  destruct (getApiKey store uid) as [[|c k]|]; try reflexivity. discriminate Hk.
Qed.

Lemma decision_stores env ctx store files uid data :
  callback_data ctx = Some data -> startsWith (str "openclaw:") data = true ->
  userIdOf ctx = Some uid ->
  pendingFiles (run (handleCallbackQuery env ctx) store files) = delete uid files
  /\ sessions (run (handleCallbackQuery env ctx) store files) = store.
Proof.
  intros Hd Hp Hu. destruct (files !! uid) as [pf|] eqn:Hf.
  - destruct (getApiKey store uid) as [[|c k]|] eqn:Hk.
    + rewrite (decision_without_credential env ctx store files uid data pf);
        try assumption; [split; reflexivity | rewrite Hk; reflexivity].
    + rewrite (decision_scans env ctx store files uid data pf (c :: k));
        try assumption; [split; reflexivity | discriminate].
    + rewrite (decision_without_credential env ctx store files uid data pf);
        try assumption; [split; reflexivity | rewrite Hk; reflexivity].
  - rewrite (decision_expired env ctx store files uid data) by assumption.
    rewrite (delete_id _ _ Hf). split; reflexivity.
Qed.

End PendingFacts.

(** C8, as the specification words it, fails on the code for a user
    whose credential cannot be read when the button is pressed (here the
    stored ciphertext is corrupted): the PendingFile is taken out of the
    store, but the reply is the missing-credential message and no scan
    is performed. *)
Lemma decision_without_credential_counterexample :
  getApiKey (C := ToyCipher.toyCipher)
    {[ Scenario.user := mkSession (Some (str "00ff:zz")) (Some (str "job tracker"))
                                  (Some Scenario.january) ]} Scenario.user
  = None
  /\ run (handleCallbackQuery (C := ToyCipher.toyCipher)
            (Scenario.envWith Scenario.emptyOk Scenario.january)
            (Scenario.pressFrom Scenario.user (str "openclaw:yes")))
         {[ Scenario.user := mkSession (Some (str "00ff:zz")) (Some (str "job tracker"))
                                       (Some Scenario.january) ]}
         {[ Scenario.user := Scenario.transcript ]}
     = mkWorld
         {[ Scenario.user := mkSession (Some (str "00ff:zz")) (Some (str "job tracker"))
                                       (Some Scenario.january) ]}
         ∅ [AnswerCallbackQuery; Reply formatMissingApiKey None].
Proof.
  split; vm_compute; reflexivity.
Qed.

(** C8 (amended).  A press on a decision button (callback data starting
    with ["openclaw:"]) by a user takes the user's PendingFile out of
    the store and leaves the sessions as they are, so a second press
    finds no file and gets the "expired, upload again" reply, as does
    any press when no file is pending; nothing is scanned then.  When a
    file is pending and the user has a credential, the file is scanned
    once, with the flag that tells whether the data is ["openclaw:yes"],
    and the result is the one reply.  When a file is pending and the
    user has no readable credential, the one reply is the
    missing-credential message and nothing is scanned. *)
Theorem pending_file_consumed_once (C : Cipher) (env env' : Env) (ctx ctx' : Ctx)
    (store : gmap Z UserSession) (files : gmap Z PendingFile)
    (uid : Z) (data data' : list Z) :
  callback_data ctx = Some data -> startsWith (str "openclaw:") data = true ->
  userIdOf ctx = Some uid ->
  callback_data ctx' = Some data' -> startsWith (str "openclaw:") data' = true ->
  userIdOf ctx' = Some uid ->
  let w := run (handleCallbackQuery env ctx) store files in
  pendingFiles w = delete uid files
  /\ pendingFiles w !! uid = None
  /\ sessions w = store
  /\ run (handleCallbackQuery env' ctx') (sessions w) (pendingFiles w)
     = mkWorld store (delete uid files) [AnswerCallbackQuery; Reply FileExpired None]
  /\ (files !! uid = None ->
      sent w = [AnswerCallbackQuery; Reply FileExpired None])
  /\ (forall pf k,
        files !! uid = Some pf -> getApiKey store uid = Some k -> k <> [] ->
        sent w
        = [AnswerCallbackQuery;
           ChatAction upload_document;
           Call (PostScanFile k (pfPrompt pf) (FromBase64 (pfBuffer pf)) (pfFilename pf)
                   (pfMimeType pf) (Some (streq data (str "openclaw:yes"))));
           Reply (formatScanResult
                    (scanFile (backend env) k (pfPrompt pf) (FromBase64 (pfBuffer pf))
                       (pfFilename pf) (pfMimeType pf)
                       (Some (streq data (str "openclaw:yes")))))
                 (Some (scanKeyboard
                    (scanFile (backend env) k (pfPrompt pf) (FromBase64 (pfBuffer pf))
                       (pfFilename pf) (pfMimeType pf)
                       (Some (streq data (str "openclaw:yes"))))))])
  /\ (forall pf,
        files !! uid = Some pf -> truthy (getApiKey store uid) = false ->
        sent w = [AnswerCallbackQuery; Reply formatMissingApiKey None]).
Proof.
  intros Hd Hp Hu Hd' Hp' Hu'. cbv zeta.
  destruct (decision_stores env ctx store files uid data Hd Hp Hu) as [Hf Hs].
  rewrite Hf, Hs. repeat split.
  - apply lookup_delete_eq.
  - apply (decision_expired env' ctx' store (delete uid files) uid data');
      try assumption. apply lookup_delete_eq.
  - intros Hn. rewrite (decision_expired env ctx store files uid data) by assumption.
    reflexivity.
  - intros pf k Hpf Hk Hne.
    rewrite (decision_scans env ctx store files uid data pf k) by assumption.
    reflexivity.
  - intros pf Hpf Hk.
    rewrite (decision_without_credential env ctx store files uid data pf) by assumption.
    reflexivity.
Qed.

Lemma pending_file_consumed_once_witness :
  sent (run (handleCallbackQuery (C := ToyCipher.toyCipher)
               (Scenario.envWith Scenario.emptyOk Scenario.january)
               (Scenario.pressFrom Scenario.user (str "openclaw:yes")))
            Scenario.linked {[ Scenario.user := Scenario.transcript ]})
  = [AnswerCallbackQuery;
     ChatAction upload_document;
     Call (PostScanFile Scenario.key (str "job tracker") (FromBase64 (str "aGVsbG8="))
             (str "chat.txt") (str "text/plain") (Some true));
     Reply (formatScanResult (mkScanResult true None None None)) (Some errorHelpKeyboard)]
  /\ run (handleCallbackQuery (C := ToyCipher.toyCipher)
            (Scenario.envWith Scenario.emptyOk Scenario.january)
            (Scenario.pressFrom Scenario.user (str "openclaw:no")))
         Scenario.linked ∅
     = mkWorld Scenario.linked ∅ [AnswerCallbackQuery; Reply FileExpired None].
Proof.
  pose proof (pending_file_consumed_once ToyCipher.toyCipher
                (Scenario.envWith Scenario.emptyOk Scenario.january)
                (Scenario.envWith Scenario.emptyOk Scenario.january)
                (Scenario.pressFrom Scenario.user (str "openclaw:yes"))
                (Scenario.pressFrom Scenario.user (str "openclaw:no"))
                Scenario.linked {[ Scenario.user := Scenario.transcript ]}
                Scenario.user (str "openclaw:yes") (str "openclaw:no")
                eq_refl eq_refl eq_refl eq_refl eq_refl eq_refl) as H.
  cbv zeta in H. destruct H as (Hp & _ & Hs & Hagain & _ & Ht & _).
  assert (Hk : getApiKey (C := ToyCipher.toyCipher) Scenario.linked Scenario.user
               = Some Scenario.key) by (vm_compute; reflexivity).
  split.
  - exact (Ht Scenario.transcript Scenario.key (lookup_singleton_eq _ _) Hk
              ltac:(discriminate)).
  - rewrite Hs, Hp in Hagain. rewrite delete_singleton_eq in Hagain. exact Hagain.
Defined.

Section UploadFacts.
Context {C : Cipher}.

Lemma tooLarge_spec size :
  tooLarge size = true <-> exists n, size = Some n /\ MAX_FILE_SIZE < n.
Proof.
  unfold tooLarge, MAX_FILE_SIZE. destruct size as [n|]; split.
  - intros H. exists n. split; [reflexivity | lia].
  - intros [m [Hm Hlt]]. injection Hm as ->. lia.
  - discriminate.
  - intros [m [Hm _]]. discriminate.
Qed.

Lemma uploadPrompt_sent env ctx uid w :
  sent (uploadPrompt env ctx uid w).2 = sent w.
Proof.
  unfold uploadPrompt.
  destruct (trim <$> message_caption ctx) as [[|c r]|]; try reflexivity.
  destruct (isFileCaption (c :: r)); reflexivity.
Qed.

Lemma handleDocument_refuses env ctx store files uid doc k :
  message_document ctx = Some doc -> userIdOf ctx = Some uid ->
  getApiKey store uid = Some k -> k <> [] ->
  tooLarge (file_size doc) = true ->
  run (handleDocument env ctx) store files = mkWorld store files [Reply FileTooLarge None].
Proof.
  intros Hd Hu Hk Hne Hs. unfold run, handleDocument. rewrite Hd, Hu.
  unfold mbind, M_bind, getApiKeyM. cbn -[getApiKey]. rewrite Hk.
  destruct k as [|c k]; [contradiction|]. rewrite Hs. reflexivity.
Qed.

Lemma uploadPrompt_value env ctx uid w :
  (uploadPrompt env ctx uid w).1 = promptOf (sessions w) uid (message_caption ctx).
Proof.
  unfold uploadPrompt, promptOf.
  destruct (trim <$> message_caption ctx) as [[|c r]|]; try reflexivity.
  destruct (isFileCaption (c :: r)); reflexivity.
Qed.

Lemma handleDocument_within env ctx store files uid doc k :
  message_document ctx = Some doc -> userIdOf ctx = Some uid ->
  getApiKey store uid = Some k -> k <> [] ->
  tooLarge (file_size doc) = false ->
  sent (run (handleDocument env ctx) store files)
  = uploaded env k (promptOf store uid (message_caption ctx)) (downloadDocument env)
      CaptionNeededForFile FailedToProcessFile upload_document
      (orElse (file_name doc) (str "document"))
      (orElse (mime_type doc) (str "application/octet-stream")).
Proof.
  intros Hd Hu Hk Hne Hs. unfold run, handleDocument. rewrite Hd, Hu.
  unfold mbind, M_bind, getApiKeyM. cbn -[getApiKey uploadPrompt scanFile]. rewrite Hk.
  destruct k as [|c k]; [contradiction|]. rewrite Hs.
  pose proof (uploadPrompt_sent env ctx uid (mkWorld store files [])) as Hp.
  pose proof (uploadPrompt_value env ctx uid (mkWorld store files [])) as Hv.
  destruct (uploadPrompt env ctx uid (mkWorld store files [])) as [pr w1].
  cbn [fst snd sent sessions] in Hp, Hv. rewrite <- Hv. unfold uploaded.
  destruct pr as [[|x p]|].
  - cbn. rewrite Hp. reflexivity.
  - cbn -[scanFile]. rewrite Hp.
    destruct (downloadDocument env) as [e|bytes]; reflexivity.
  - cbn. rewrite Hp. reflexivity.
Qed.

Lemma handlePhoto_refuses env ctx store files uid p0 ps k :
  message_photo ctx = Some (p0 :: ps) -> userIdOf ctx = Some uid ->
  getApiKey store uid = Some k -> k <> [] ->
  tooLarge (photo_file_size (List.last (p0 :: ps) p0)) = true ->
  run (handlePhoto env ctx) store files = mkWorld store files [Reply ImageTooLarge None].
Proof.
  intros Hd Hu Hk Hne Hs. unfold run, handlePhoto. rewrite Hd, Hu.
  unfold mbind, M_bind, getApiKeyM. cbn -[getApiKey List.last]. rewrite Hk.
  destruct k as [|c k]; [contradiction|]. rewrite Hs. reflexivity.
Qed.

Lemma handlePhoto_within env ctx store files uid p0 ps k :
  message_photo ctx = Some (p0 :: ps) -> userIdOf ctx = Some uid ->
  getApiKey store uid = Some k -> k <> [] ->
  tooLarge (photo_file_size (List.last (p0 :: ps) p0)) = false ->
  sent (run (handlePhoto env ctx) store files)
  = uploaded env k (promptOf store uid (message_caption ctx))
      (downloadPhoto env (photo_file_id (List.last (p0 :: ps) p0)))
      CaptionNeededForPhoto FailedToProcessPhoto upload_photo
      (str "photo_" ++ dateNow env ++ str ".jpg") (str "image/jpeg").
Proof.
  intros Hd Hu Hk Hne Hs. unfold run, handlePhoto. rewrite Hd, Hu.
  unfold mbind, M_bind, getApiKeyM.
  cbn -[getApiKey uploadPrompt scanFile List.last str]. rewrite Hk.
  destruct k as [|c k]; [contradiction|]. rewrite Hs.
  pose proof (uploadPrompt_sent env ctx uid (mkWorld store files [])) as Hp.
  pose proof (uploadPrompt_value env ctx uid (mkWorld store files [])) as Hv.
  destruct (uploadPrompt env ctx uid (mkWorld store files [])) as [pr w1].
  cbn [fst snd sent sessions] in Hp, Hv. rewrite <- Hv. unfold uploaded.
  destruct pr as [[|x p]|].
  - cbn. rewrite Hp. reflexivity.
  - cbn -[scanFile List.last str]. rewrite Hp.
    destruct (downloadPhoto env (photo_file_id (List.last (p0 :: ps) p0))) as [e|bytes];
      reflexivity.
  - cbn. rewrite Hp. reflexivity.
Qed.

End UploadFacts.

(** C10, as the specification words it, fails on the code: an upload
    whose reported size is above 10 MiB is refused.  A document of
    10485761 bytes from a user with a credential and a usable caption
    gets the "too large" reply and is neither downloaded nor sent to
    the backend; one byte less and it is forwarded.  The same holds for
    a photo. *)
Lemma upload_refused_by_size_counterexample :
  run (handleDocument (C := ToyCipher.toyCipher)
         (Scenario.envWith Scenario.emptyOk Scenario.january)
         (Scenario.documentFrom Scenario.user (Some (str "job tracker"))
            (mkDocument (Some 10485761) (Some (str "big.pdf"))
                        (Some (str "application/pdf")))))
      Scenario.linked ∅
  = mkWorld Scenario.linked ∅ [Reply FileTooLarge None]
  /\ sent (run (handleDocument (C := ToyCipher.toyCipher)
                  (Scenario.envWith Scenario.emptyOk Scenario.january)
                  (Scenario.documentFrom Scenario.user (Some (str "job tracker"))
                     (mkDocument (Some 10485760) (Some (str "big.pdf"))
                                 (Some (str "application/pdf")))))
               Scenario.linked ∅)
     = [ChatAction upload_document; Download;
        Call (PostScanFile Scenario.key (str "job tracker") (Downloaded [37; 80; 68; 70])
                (str "big.pdf") (str "application/pdf") None);
        Reply (formatScanResult (mkScanResult true None None None))
              (Some errorHelpKeyboard)]
  /\ run (handlePhoto (C := ToyCipher.toyCipher)
            (Scenario.envWith Scenario.emptyOk Scenario.january)
            (Scenario.photoFrom Scenario.user (Some (str "receipts"))
               [mkPhotoSize (str "small") (Some 1024);
                mkPhotoSize (str "large") (Some 10485761)]))
         Scenario.linked ∅
     = mkWorld Scenario.linked ∅ [Reply ImageTooLarge None].
Proof.
  split; [vm_compute; reflexivity|]. split; vm_compute; reflexivity.
Qed.

(** C10 (amended).  For a user with a credential, the reported size of
    an upload is checked once: a size above 10 MiB (10485760) is
    answered with the "too large" reply and nothing else happens.  A
    size that is absent or at most 10 MiB plays no further part: what
    is sent is then fixed by the prompt, the download and the file's
    name and type alone.  The caption only selects the prompt (the
    sanitized caption when [isFileCaption] accepts it, the remembered
    prompt otherwise).  Without a prompt the upload is answered with the
    request for a caption; with one it is always downloaded and, the
    download succeeding, sent to the backend in one [scanFile] call: a
    document with its own file name and mime type (["document"] and
    ["application/octet-stream"] when absent), a photo, the last of the
    sizes offered, as [photo_<time>.jpg] of type [image/jpeg]. *)
Theorem upload_size_gate (C : Cipher) (env : Env) (ctx : Ctx)
    (store : gmap Z UserSession) (files : gmap Z PendingFile)
    (uid : Z) (k : list Z) :
  userIdOf ctx = Some uid -> getApiKey store uid = Some k -> k <> [] ->
  (forall size, tooLarge size = true <-> exists n, size = Some n /\ 10485760 < n)
  /\ (forall doc,
        message_document ctx = Some doc ->
        (tooLarge (file_size doc) = true ->
         run (handleDocument env ctx) store files
         = mkWorld store files [Reply FileTooLarge None])
        /\ (tooLarge (file_size doc) = false ->
            sent (run (handleDocument env ctx) store files)
            = uploaded env k (promptOf store uid (message_caption ctx))
                (downloadDocument env) CaptionNeededForFile FailedToProcessFile
                upload_document
                (orElse (file_name doc) (str "document"))
                (orElse (mime_type doc) (str "application/octet-stream"))))
  /\ (forall p0 ps,
        message_photo ctx = Some (p0 :: ps) ->
        (tooLarge (photo_file_size (List.last (p0 :: ps) p0)) = true ->
         run (handlePhoto env ctx) store files
         = mkWorld store files [Reply ImageTooLarge None])
        /\ (tooLarge (photo_file_size (List.last (p0 :: ps) p0)) = false ->
            sent (run (handlePhoto env ctx) store files)
            = uploaded env k (promptOf store uid (message_caption ctx))
                (downloadPhoto env (photo_file_id (List.last (p0 :: ps) p0)))
                CaptionNeededForPhoto FailedToProcessPhoto upload_photo
                (str "photo_" ++ dateNow env ++ str ".jpg") (str "image/jpeg"))).
Proof.
  intros Hu Hk Hne. split; [|split].
  - intros size. apply tooLarge_spec.
  - intros doc Hd. split; intros Hs.
    + eapply handleDocument_refuses; eauto.
    + eapply handleDocument_within; eauto.
  - intros p0 ps Hp. split; intros Hs.
    + eapply handlePhoto_refuses; eauto.
    + eapply handlePhoto_within; eauto.
Qed.

Lemma upload_size_gate_witness :
  getApiKey (C := ToyCipher.toyCipher) Scenario.linked Scenario.user = Some Scenario.key
  /\ run (handleDocument (C := ToyCipher.toyCipher)
            (Scenario.envWith Scenario.emptyOk Scenario.january)
            (Scenario.documentFrom Scenario.user (Some (str " job tracker "))
               (mkDocument (Some 20000000) None None)))
         Scenario.linked ∅
     = mkWorld Scenario.linked ∅ [Reply FileTooLarge None]
  /\ sent (run (handleDocument (C := ToyCipher.toyCipher)
                  (Scenario.envWith Scenario.emptyOk Scenario.january)
                  (Scenario.documentFrom Scenario.user (Some (str " job tracker "))
                     (mkDocument (Some 6291456) None (Some (str "application/pdf")))))
               Scenario.linked ∅)
     = [ChatAction upload_document; Download;
        Call (PostScanFile Scenario.key (str "job tracker") (Downloaded [37; 80; 68; 70])
                (str "document") (str "application/pdf") None);
        Reply (formatScanResult (mkScanResult true None None None))
              (Some errorHelpKeyboard)]
  /\ sent (run (handleDocument (C := ToyCipher.toyCipher)
                  (Scenario.envWith Scenario.emptyOk Scenario.january)
                  (Scenario.documentFrom Scenario.user None
                     (mkDocument None (Some (str "a.pdf")) None)))
               Scenario.linked ∅)
     = [Reply CaptionNeededForFile None].
Proof.
  assert (Hk : getApiKey (C := ToyCipher.toyCipher) Scenario.linked Scenario.user
               = Some Scenario.key) by (vm_compute; reflexivity).
  split; [exact Hk|]. split; [|split].
  - refine (proj1 (proj1 (proj2 (upload_size_gate ToyCipher.toyCipher
                     (Scenario.envWith Scenario.emptyOk Scenario.january)
                     (Scenario.documentFrom Scenario.user (Some (str " job tracker "))
                        (mkDocument (Some 20000000) None None))
                     Scenario.linked ∅ Scenario.user Scenario.key eq_refl Hk
                     ltac:(discriminate)))
                   (mkDocument (Some 20000000) None None) eq_refl) eq_refl).
  - rewrite (proj2 (proj1 (proj2 (upload_size_gate ToyCipher.toyCipher
                     (Scenario.envWith Scenario.emptyOk Scenario.january)
                     (Scenario.documentFrom Scenario.user (Some (str " job tracker "))
                        (mkDocument (Some 6291456) None (Some (str "application/pdf"))))
                     Scenario.linked ∅ Scenario.user Scenario.key eq_refl Hk
                     ltac:(discriminate)))
                   (mkDocument (Some 6291456) None (Some (str "application/pdf")))
                   eq_refl) eq_refl).
    vm_compute. reflexivity.
  - rewrite (proj2 (proj1 (proj2 (upload_size_gate ToyCipher.toyCipher
                     (Scenario.envWith Scenario.emptyOk Scenario.january)
                     (Scenario.documentFrom Scenario.user None
                        (mkDocument None (Some (str "a.pdf")) None))
                     Scenario.linked ∅ Scenario.user Scenario.key eq_refl Hk
                     ltac:(discriminate)))
                   (mkDocument None (Some (str "a.pdf")) None) eq_refl) eq_refl).
    vm_compute. reflexivity.
Defined.

(* ===================================================================== *)
(** * The other rules of the grammar *)
(* ===================================================================== *)

Section GrammarRules.

Lemma noRule_unknown s : noRuleMatches s -> parseMessage s = Some unknown.
Proof.
  intros (Hlist & Hscan & Htext & Hget & Hfile).
  destruct lower_literals as (Ls & Lt & Lg & Lf).
  unfold parseMessage.
  destruct (streq (toLowerCase (trim s)) (str "list")) eqn:E1.
  { apply streq_eq in E1. exfalso. apply Hlist. left. exact E1. }
  destruct (streq (toLowerCase (trim s)) (str "/list")) eqn:E2.
  { apply streq_eq in E2. exfalso. apply Hlist. right. exact E2. }
  simpl.
  rewrite (matchPrefix_none _ _ _ Ls Hscan), (matchPrefix_none _ _ _ Lt Htext),
    (matchPrefix_none _ _ _ Lg Hget), (matchPrefix_none _ _ _ Lf Hfile).
  reflexivity.
Qed.

Lemma lowerUnit_ascii c a : asciiLower c = a -> a < 192 -> lowerUnit c = [a].
Proof.
  unfold asciiLower, lowerUnit. intros H Ha.
  destruct ((65 <=? c) && (c <=? 90)) eqn:E1; [subst a; reflexivity|].
  subst a.
  destruct ((192 <=? c) && (c <=? 222) && negb (c =? 215)) eqn:E2; [lia|].
  destruct (c =? 304) eqn:E3; [lia|].
  destruct (c =? 8490) eqn:E4; [lia|]. reflexivity.
Qed.

(** A prefix found without regard to case is found in the lowered text. *)
Lemma hasPrefix_lower lit t :
  Forall (fun a => a < 192) lit -> hasPrefix lit t ->
  startsWith lit (toLowerCase t) = true.
Proof.
  unfold hasPrefix, toLowerCase. intros Hl. revert t.
  induction Hl as [|a lit Ha Hl IH]; intros t; simpl; [reflexivity|].
  destruct t as [|c t]; simpl; [discriminate|].
  intros H. injection H as Hc Hr.
  rewrite (lowerUnit_ascii c a Hc Ha). simpl.
  rewrite Z.eqb_refl. simpl. apply IH. exact Hr.
Qed.

Lemma hasPrefix_head a lit t :
  hasPrefix (a :: lit) t -> exists c r, t = c :: r /\ asciiLower c = a.
Proof.
  unfold hasPrefix. destruct t as [|c r]; simpl; [discriminate|].
  intros H. injection H as Hc _. eauto.
Qed.

(** A text that starts with one literal is not matched by a pattern for
    a literal with another first letter. *)
Lemma matchPrefix_other a b lit dot t c r :
  t = c :: r -> asciiLower c = a -> asciiLower b = b -> a <> b ->
  matchPrefix (b :: lit) dot t = None.
Proof.
  intros -> Hc Hb Hne. unfold matchPrefix. simpl.
  rewrite (canonicalize_eq b c Hb).
  destruct (asciiLower c =? b) eqn:E; [lia | reflexivity].
Qed.

Lemma not_list_by_head t c r a :
  t = c :: r -> asciiLower c = a -> a < 192 -> a <> 108 -> a <> 47 ->
  streq (toLowerCase t) (str "list") || streq (toLowerCase t) (str "/list") = false.
Proof.
  intros -> Hc Ha H1 H2. unfold toLowerCase. cbn [map concat].
  rewrite (lowerUnit_ascii c a Hc Ha).
  change (str "list") with (108 :: str "ist").
  change (str "/list") with (47 :: str "list").
  cbn [app streq].
  assert (E1 : (a =? 108) = false) by lia. assert (E2 : (a =? 47) = false) by lia.
  rewrite E1, E2. reflexivity.
Qed.

Lemma whiteSpace_of_lineTerminator c : isLineTerminator c = true -> isWhiteSpace c = true.
Proof. unfold isLineTerminator, isWhiteSpace. lia. Qed.

Lemma dotRun_clean s : Forall (fun c => isLineTerminator c = false) (dotRun s).
Proof.
  induction s as [|c s IH]; simpl; [constructor|].
  destruct (isLineTerminator c) eqn:E; constructor; assumption.
Qed.

Lemma trim_sub s : exists a b, s = a ++ trim s ++ b.
Proof.
  unfold trim. destruct (trimStart_suffix s) as [k [Hk _]].
  destruct (trimEnd_prefix (trimStart s)) as [k' [Hk' _]].
  exists k, k'. rewrite <- Hk'. exact Hk.
Qed.

Lemma ensureSlash_head p : startsWith [slash] (ensureSlash p) = true.
Proof.
  unfold ensureSlash. destruct (startsWith [slash] p) eqn:E; [exact E|].
  reflexivity.
Qed.

Lemma ensureSlash_clean p :
  Forall (fun c => isLineTerminator c = false) p ->
  Forall (fun c => isLineTerminator c = false) (ensureSlash p).
Proof.
  intros H. unfold ensureSlash. destruct (startsWith [slash] p); [exact H|].
  constructor; [reflexivity | exact H].
Qed.

(** The capture of a one-line rule ([get:], [file:]) on a trimmed text. *)
Lemma matchPrefix_line lit n s :
  Forall (fun a => asciiLower a = a) lit -> length lit = n ->
  hasPrefix lit (trim s) -> drop n (trim s) <> [] ->
  matchPrefix lit false (trim s) = Some (dotRun (trimStart (drop n (trim s)))).
Proof.
  intros Hl Hn Hp Hr. unfold matchPrefix.
  rewrite (matchLiteral_complete _ _ Hl Hp), Hn.
  assert (Hne : trimStart (drop n (trim s)) <> []).
  { eapply trim_tail_not_blank; [symmetry; apply (take_drop n) | exact Hr]. }
  destruct (trimStart (drop n (trim s))) as [|c r] eqn:E; [contradiction|].
  assert (Hc : isLineTerminator c = false).
  { destruct (isLineTerminator c) eqn:El; [|reflexivity].
    apply whiteSpace_of_lineTerminator in El.
    rewrite (trimStart_head _ _ _ E) in El. discriminate. }
  rewrite wsStar_greedy; rewrite E; unfold dotPlus; simpl; rewrite Hc; simpl;
    [reflexivity | eexists; reflexivity].
Qed.

Lemma matchPrefix_empty_rest lit n dot s :
  Forall (fun a => asciiLower a = a) lit -> length lit = n ->
  hasPrefix lit (trim s) -> drop n (trim s) = [] ->
  matchPrefix lit dot (trim s) = None.
Proof.
  intros Hl Hn Hp Hr. unfold matchPrefix.
  rewrite (matchLiteral_complete _ _ Hl Hp), Hn, Hr. destruct dot; reflexivity.
Qed.

End GrammarRules.

Section TextAndPathRules.

Lemma trim_suffix_fixed s pre x :
  trim s = pre ++ trimStart x -> trimStart x <> [] -> trim (trimStart x) = trimStart x.
Proof.
  intros H Hne. apply trim_fixed.
  - intros c r E. eapply trimStart_head. exact E.
  - intros c E. apply (trim_last s). rewrite H, last_app, E. reflexivity.
Qed.

Lemma drop_trimStart_split n s :
  exists pre, trim s = pre ++ trimStart (drop n (trim s)).
Proof.
  destruct (trimStart_suffix (drop n (trim s))) as [k [Hk _]].
  exists (take n (trim s) ++ k).
  rewrite <- (take_drop n (trim s)) at 1. rewrite Hk at 1. rewrite app_assoc. reflexivity.
Qed.

End TextAndPathRules.

(** X1.  The [text:] rule.  For every input whose trimmed form starts
    with ["text:"], letters compared without case: when at least one unit
    follows the prefix the message is a [text] whose content is what
    follows the prefix with its leading white space, line breaks
    included, removed; the content keeps its inner line breaks and is
    never empty.  When nothing follows the prefix the message is
    [unknown]. *)
Theorem parseMessage_text (s : list Z) :
  hasPrefix (str "text:") (trim s) ->
  (drop 5 (trim s) <> [] ->
   parseMessage s
   = Some (mkParsed TText None (Some (trimStart (drop 5 (trim s)))) None)
   /\ trimStart (drop 5 (trim s)) <> [])
  /\ (drop 5 (trim s) = [] -> parseMessage s = Some unknown).
Proof.
  intros Hp.
  destruct lower_literals as (Ls & Lt & Lg & Lf).
  destruct (hasPrefix_head 116 (str "ext:") _ Hp) as (c & r & Ht & Hc).
  assert (Hl := not_list_by_head _ _ _ 116 Ht Hc ltac:(lia) ltac:(lia) ltac:(lia)).
  assert (Hs : matchPrefix (str "scan:") true (trim s) = None).
  { apply (matchPrefix_other 116 115 _ _ _ c r Ht Hc); [reflexivity | lia]. }
  unfold parseMessage. rewrite Hl, Hs.
  split; intros Hr.
  - assert (Hne : trimStart (drop 5 (trim s)) <> []).
    { eapply trim_tail_not_blank; [symmetry; apply (take_drop 5) | exact Hr]. }
    split; [|exact Hne].
    unfold matchPrefix. rewrite (matchLiteral_complete _ _ Lt Hp).
    change (length (str "text:")) with 5%nat.
    destruct (drop_trimStart_split 5 s) as [pre Hpre].
    rewrite wsStar_greedy.
    + unfold dotPlus.
      assert (Ho : orUndefined (trimStart (drop 5 (trim s)))
                   = Some (trimStart (drop 5 (trim s)))).
      { destruct (trimStart (drop 5 (trim s))); [contradiction | reflexivity]. }
      rewrite Ho, (trim_suffix_fixed s pre _ Hpre Hne). reflexivity.
    + unfold dotPlus, orUndefined.
      destruct (trimStart (drop 5 (trim s))); [contradiction | eexists; reflexivity].
  - rewrite (matchPrefix_empty_rest _ 5%nat true s Lt eq_refl Hp Hr).
    replace (matchPrefix (str "get:") false (trim s)) with (@None (list Z))
      by (symmetry; apply (matchPrefix_other 116 103 _ _ _ c r Ht Hc); [reflexivity | lia]).
    replace (matchPrefix (str "file:") false (trim s)) with (@None (list Z))
      by (symmetry; apply (matchPrefix_other 116 102 _ _ _ c r Ht Hc); [reflexivity | lia]).
    reflexivity.
Qed.

Lemma parseMessage_text_witness :
  hasPrefix (str "text:") (trim (str "TEXT: " ++ [newline] ++ str " two" ++ [newline] ++ str "lines "))
  /\ parseMessage (str "TEXT: " ++ [newline] ++ str " two" ++ [newline] ++ str "lines ")
     = Some (mkParsed TText None (Some (str "two" ++ [newline] ++ str "lines")) None).
Proof.
  assert (Hp : hasPrefix (str "text:")
                 (trim (str "TEXT: " ++ [newline] ++ str " two" ++ [newline] ++ str "lines ")))
    by reflexivity.
  split; [exact Hp|].
  rewrite (proj1 (proj1 (parseMessage_text _ Hp) ltac:(vm_compute; discriminate))).
  reflexivity.
Defined.

(** A text under the [get:] rule: the earlier rules do not apply. *)
Lemma get_rule_reached s c r :
  trim s = c :: r -> asciiLower c = 103 ->
  parseMessage s
  = match matchPrefix (str "get:") false (trim s) with
    | Some m => Some (mkParsed TGet None None (Some (ensureSlash (trim m))))
    | None =>
        match matchPrefix (str "file:") false (trim s) with
        | Some m => Some (mkParsed TFile None None (Some (ensureSlash (trim m))))
        | None => Some unknown
        end
    end.
Proof.
  intros Ht Hc.
  assert (Hl := not_list_by_head _ _ _ 103 Ht Hc ltac:(lia) ltac:(lia) ltac:(lia)).
  assert (Hs : matchPrefix (str "scan:") true (trim s) = None).
  { apply (matchPrefix_other 103 115 _ _ _ c r Ht Hc); [reflexivity | lia]. }
  assert (Hx : matchPrefix (str "text:") true (trim s) = None).
  { apply (matchPrefix_other 103 116 _ _ _ c r Ht Hc); [reflexivity | lia]. }
  unfold parseMessage. rewrite Hl, Hs, Hx. reflexivity.
Qed.

(** A text under the [file:] rule: the earlier rules do not apply. *)
Lemma file_rule_reached s c r :
  trim s = c :: r -> asciiLower c = 102 ->
  parseMessage s
  = match matchPrefix (str "file:") false (trim s) with
    | Some m => Some (mkParsed TFile None None (Some (ensureSlash (trim m))))
    | None => Some unknown
    end.
Proof.
  intros Ht Hc.
  assert (Hl := not_list_by_head _ _ _ 102 Ht Hc ltac:(lia) ltac:(lia) ltac:(lia)).
  assert (Hs : matchPrefix (str "scan:") true (trim s) = None).
  { apply (matchPrefix_other 102 115 _ _ _ c r Ht Hc); [reflexivity | lia]. }
  assert (Hx : matchPrefix (str "text:") true (trim s) = None).
  { apply (matchPrefix_other 102 116 _ _ _ c r Ht Hc); [reflexivity | lia]. }
  assert (Hg : matchPrefix (str "get:") false (trim s) = None).
  { apply (matchPrefix_other 102 103 _ _ _ c r Ht Hc); [reflexivity | lia]. }
  unfold parseMessage. rewrite Hl, Hs, Hx, Hg. reflexivity.
Qed.

(** The message read under the [get:] or the [file:] rule. *)
Lemma path_rule_parsed (s lit : list Z) (ty : MessageType) :
  (lit = str "get:" /\ ty = TGet) \/ (lit = str "file:" /\ ty = TFile) ->
  hasPrefix lit (trim s) -> drop (length lit) (trim s) <> [] ->
  parseMessage s
  = Some (mkParsed ty None None
            (Some (ensureSlash (trim (dotRun (trimStart (drop (length lit) (trim s)))))))).
Proof.
  intros Hlit Hp Hr.
  destruct lower_literals as (Ls & Lt & Lg & Lf).
  destruct Hlit as [[-> ->] | [-> ->]].
  - destruct (hasPrefix_head 103 (str "et:") _ Hp) as (c & r & Ht & Hc).
    rewrite (get_rule_reached s c r Ht Hc).
    rewrite (matchPrefix_line _ _ s Lg eq_refl Hp Hr). reflexivity.
  - destruct (hasPrefix_head 102 (str "ile:") _ Hp) as (c & r & Ht & Hc).
    rewrite (file_rule_reached s c r Ht Hc).
    rewrite (matchPrefix_line _ _ s Lf eq_refl Hp Hr). reflexivity.
Qed.

(** X2.  The [get:] and [file:] rules.  For every input whose trimmed
    form starts with ["get:"] (or ["file:"]), letters compared without
    case: when at least one unit follows the prefix the message is a
    [get] (a [file]) whose path is read from the first line only of what
    follows the prefix, leading white space skipped: that line trimmed,
    with a slash put in front when it does not start with one.  The path
    always starts with a slash and holds no line terminator; lines after
    the first are dropped without notice.  When nothing follows the
    prefix the message is [unknown]. *)
Theorem parseMessage_get_file (s lit : list Z) (ty : MessageType) :
  (lit = str "get:" /\ ty = TGet) \/ (lit = str "file:" /\ ty = TFile) ->
  hasPrefix lit (trim s) ->
  (drop (length lit) (trim s) <> [] ->
   exists p,
     parseMessage s = Some (mkParsed ty None None (Some p))
     /\ p = ensureSlash (trim (dotRun (trimStart (drop (length lit) (trim s)))))
     /\ startsWith [slash] p = true
     /\ Forall (fun c => isLineTerminator c = false) p)
  /\ (drop (length lit) (trim s) = [] -> parseMessage s = Some unknown).
Proof.
  intros Hlit Hp. split; intros Hr.
  - eexists. split; [apply (path_rule_parsed s lit ty Hlit Hp Hr)|].
    split; [reflexivity|]. split; [apply ensureSlash_head|].
    apply ensureSlash_clean.
    destruct (trim_sub (dotRun (trimStart (drop (length lit) (trim s))))) as (a & b & Hab).
    pose proof (dotRun_clean (trimStart (drop (length lit) (trim s)))) as H.
    rewrite Hab in H.
    apply Forall_app in H as [_ H]. apply Forall_app in H as [H _]. exact H.
  - destruct lower_literals as (Ls & Lt & Lg & Lf).
    destruct Hlit as [[-> ->] | [-> ->]].
    + destruct (hasPrefix_head 103 (str "et:") _ Hp) as (c & r & Ht & Hc).
      rewrite (get_rule_reached s c r Ht Hc).
      rewrite (matchPrefix_empty_rest _ _ false s Lg eq_refl Hp Hr).
      replace (matchPrefix (str "file:") false (trim s)) with (@None (list Z))
        by (symmetry; apply (matchPrefix_other 103 102 _ _ _ c r Ht Hc);
            [reflexivity | lia]).
      reflexivity.
    + destruct (hasPrefix_head 102 (str "ile:") _ Hp) as (c & r & Ht & Hc).
      rewrite (file_rule_reached s c r Ht Hc).
      rewrite (matchPrefix_empty_rest _ _ false s Lf eq_refl Hp Hr).
      reflexivity.
Qed.

Lemma parseMessage_get_file_witness :
  hasPrefix (str "get:") (trim (str "Get: job-tracker/january " ++ [newline] ++ str "more"))
  /\ parseMessage (str "Get: job-tracker/january " ++ [newline] ++ str "more")
     = Some (mkParsed TGet None None (Some (str "/job-tracker/january"))).
Proof.
  assert (Hp : hasPrefix (str "get:")
                 (trim (str "Get: job-tracker/january " ++ [newline] ++ str "more")))
    by reflexivity.
  split; [exact Hp|].
  destruct (proj1 (parseMessage_get_file _ (str "get:") TGet (or_introl (conj eq_refl eq_refl)) Hp)
              ltac:(vm_compute; discriminate)) as (p & -> & -> & _).
  reflexivity.
Defined.

(** X3.  A caption that [isFileCaption] accepts as a prompt is never a
    command of the grammar: [parseMessage] reads it as [unknown]; and it
    is, once trimmed, between 1 and 99 units long. *)
Theorem isFileCaption_not_command (t : list Z) :
  isFileCaption t = true ->
  parseMessage t = Some unknown
  /\ (0 < length (trim t) < 100)%nat.
Proof.
  unfold isFileCaption. intros H.
  destruct (startsWith (str "scan:") (toLowerCase (trim t))) eqn:E1; [discriminate|].
  destruct (startsWith (str "text:") (toLowerCase (trim t))) eqn:E2; [discriminate|].
  destruct (startsWith (str "get:") (toLowerCase (trim t))) eqn:E3; [discriminate|].
  destruct (startsWith (str "file:") (toLowerCase (trim t))) eqn:E4; [discriminate|].
  destruct (streq (toLowerCase (trim t)) (str "list")) eqn:E5; [discriminate|].
  destruct (startsWith (str "/") (toLowerCase (trim t))) eqn:E6; [discriminate|].
  simpl in H. split; [|lia].
  assert (Hlow : forall lit, Forall (fun a => a < 192) (str lit) ->
                   startsWith (str lit) (toLowerCase (trim t)) = false ->
                   ~ hasPrefix (str lit) (trim t)).
  { intros lit Hf Hs Hh. rewrite (hasPrefix_lower _ _ Hf Hh) in Hs. discriminate. }
  apply noRule_unknown. repeat split.
  - intros [Hl | Hl].
    + rewrite Hl in E5. discriminate.
    + rewrite Hl in E6. discriminate.
  - apply Hlow; [|exact E1]. repeat constructor.
  - apply Hlow; [|exact E2]. repeat constructor.
  - apply Hlow; [|exact E3]. repeat constructor.
  - apply Hlow; [|exact E4]. repeat constructor.
Qed.

Lemma isFileCaption_not_command_witness :
  isFileCaption (str " job tracker ") = true
  /\ parseMessage (str " job tracker ") = Some unknown.
Proof.
  split; [reflexivity|].
  apply (isFileCaption_not_command (str " job tracker ") eq_refl).
Defined.

(* ===================================================================== *)
(** * Endpoint paths ([parsePath]) *)
(* ===================================================================== *)

Section PathFacts.

Lemma stripLeading_head s c r : stripLeadingSlashes s = c :: r -> c <> slash.
Proof.
  induction s as [|a s IH]; simpl; [discriminate|].
  destruct (a =? slash) eqn:E; [exact IH|].
  intros H. injection H as -> _. lia.
Qed.

Lemma stripLeading_nil s : stripLeadingSlashes s = [] <-> Forall (eq slash) s.
Proof.
  induction s as [|a s IH]; simpl.
  - split; [constructor | reflexivity].
  - destruct (a =? slash) eqn:E.
    + rewrite IH. split; intros H.
      * constructor; [lia | exact H].
      * inversion H. assumption.
    + split; [discriminate|]. intros H. inversion H. lia.
Qed.

Lemma stripLeading_fixed c s : c <> slash -> stripLeadingSlashes (c :: s) = c :: s.
Proof. intros H. simpl. destruct (c =? slash) eqn:E; [lia | reflexivity]. Qed.

Lemma stripLeading_suffix s : exists k, s = k ++ stripLeadingSlashes s.
Proof.
  induction s as [|a s IH]; simpl; [exists []; reflexivity|].
  destruct (a =? slash); [|exists []; reflexivity].
  destruct IH as [k Hk]. exists (a :: k). simpl. f_equal. exact Hk.
Qed.

Lemma stripTrailing_fixed s :
  (forall c, last s = Some c -> c <> slash) -> stripTrailingSlashes s = s.
Proof.
  intros H. unfold stripTrailingSlashes. destruct (rev s) as [|a r] eqn:E.
  - simpl. rewrite <- (rev_involutive s), E. reflexivity.
  - assert (Hs : s = rev r ++ [a]).
    { rewrite <- (rev_involutive s), E. reflexivity. }
    rewrite stripLeading_fixed.
    + simpl. symmetry. exact Hs.
    + apply H. rewrite Hs. apply last_snoc.
Qed.

(** Removing the trailing slashes keeps a first unit that is no slash. *)
Lemma stripTrailing_head c r :
  c <> slash -> exists r', stripTrailingSlashes (c :: r) = c :: r'.
Proof.
  intros Hc. unfold stripTrailingSlashes.
  destruct (stripLeading_suffix (rev (c :: r))) as [k Hk].
  destruct (stripLeadingSlashes (rev (c :: r))) as [|a q] eqn:E.
  - apply stripLeading_nil in E. rewrite Forall_forall in E.
    exfalso. apply Hc. symmetry. apply E.
    apply list_elem_of_In. apply -> in_rev. left. reflexivity.
  - assert (H : c :: r = rev (a :: q) ++ rev k).
    { rewrite <- rev_app_distr, <- Hk, rev_involutive. reflexivity. }
    destruct (rev (a :: q)) as [|x y] eqn:Er.
    + apply (f_equal (@length Z)) in Er. rewrite length_rev in Er. discriminate.
    + simpl in H. injection H as -> _. eauto.
Qed.

Lemma split_head sep c r :
  c <> sep -> exists l ls, split sep (c :: r) = (c :: l) :: ls.
Proof.
  intros H. simpl. destruct (c =? sep) eqn:E; [lia|].
  destruct (split sep r) as [|l ls]; eauto.
Qed.

Lemma split_clean sep s : Forall (fun q => sep ∉ q) (split sep s).
Proof.
  induction s as [|c s IH]; simpl.
  - repeat constructor. apply not_elem_of_nil.
  - destruct (c =? sep) eqn:E.
    + constructor; [apply not_elem_of_nil | exact IH].
    + destruct (split sep s) as [|l ls].
      * repeat constructor. rewrite not_elem_of_cons. split; [lia | apply not_elem_of_nil].
      * inversion IH; subst. constructor; [|assumption].
        rewrite not_elem_of_cons. split; [lia | assumption].
Qed.

Lemma split_join sep parts :
  parts <> [] -> Forall (fun q => sep ∉ q) parts ->
  split sep (join [sep] parts) = parts.
Proof.
  induction parts as [|p ps IH]; [contradiction|].
  intros _ H. inversion H as [|? ? Hp Hps]; subst.
  destruct ps as [|q ps].
  - simpl. apply split_no_sep. exact Hp.
  - change (join [sep] (p :: q :: ps)) with (p ++ sep :: join [sep] (q :: ps)).
    rewrite (split_at_sep _ _ _ Hp), IH; [reflexivity | discriminate | exact Hps].
Qed.

Lemma filter_segments s : segments (List.filter nonEmpty (split slash s)).
Proof.
  unfold segments. rewrite Forall_forall. intros q Hq.
  apply list_elem_of_In, filter_In in Hq as [Hq Hn].
  split.
  - destruct q; [discriminate | discriminate].
  - pose proof (split_clean slash s) as H. rewrite Forall_forall in H.
    apply H, list_elem_of_In, Hq.
Qed.

Lemma filter_segments_id parts : segments parts -> List.filter nonEmpty parts = parts.
Proof.
  induction 1 as [|q parts [Hq _] _ IH]; simpl; [reflexivity|].
  destruct q; [contradiction|]. simpl. rewrite IH. reflexivity.
Qed.

Lemma join_head p ps :
  segments (p :: ps) -> exists c r, join [slash] (p :: ps) = c :: r /\ c <> slash.
Proof.
  intros H. inversion H as [|? ? [Hne Hs] _]; subst.
  destruct p as [|c p]; [contradiction|].
  rewrite not_elem_of_cons in Hs. destruct Hs as [Hc _].
  destruct ps; simpl; eauto.
Qed.

Lemma join_last parts c :
  segments parts -> last (join [slash] parts) = Some c -> c <> slash.
Proof.
  induction 1 as [|p ps [Hne Hs] Hps IH]; [discriminate|].
  destruct ps as [|q ps].
  - simpl. intros Hl Hc. subst c. apply Hs. eapply last_Some_elem_of. exact Hl.
  - change (join [slash] (p :: q :: ps)) with (p ++ [slash] ++ join [slash] (q :: ps)).
    rewrite !last_app.
    destruct (join_head q ps Hps) as (a & r & Hj & _).
    destruct (last (join [slash] (q :: ps))) as [y|] eqn:El.
    + exact IH.
    + apply last_None in El. rewrite Hj in El. discriminate.
Qed.

Lemma parsePath_join p ps :
  segments (p :: ps) ->
  parsePath (slash :: join [slash] (p :: ps))
  = Some (mkPathParts p (match ps with [] => None | _ => Some (join [slash] ps) end)).
Proof.
  intros H. unfold parsePath.
  destruct (join_head p ps H) as (c & r & Hj & Hc).
  assert (H1 : stripLeadingSlashes (slash :: join [slash] (p :: ps)) = join [slash] (p :: ps)).
  { change (stripLeadingSlashes (slash :: ?x)) with (stripLeadingSlashes x).
    rewrite Hj. apply stripLeading_fixed. exact Hc. }
  rewrite H1, stripTrailing_fixed by (intros x; apply join_last; exact H).
  rewrite split_join; [| discriminate |].
  - rewrite (filter_segments_id _ H). reflexivity.
  - eapply Forall_impl; [exact H|]. intros q [_ Hq]. exact Hq.
Qed.

Lemma parsePath_parts path r :
  parsePath path = Some r ->
  exists p ps, segments (p :: ps)
    /\ r = mkPathParts p (match ps with [] => None | _ => Some (join [slash] ps) end).
Proof.
  unfold parsePath.
  pose proof (filter_segments (stripTrailingSlashes (stripLeadingSlashes path))) as H.
  destruct (List.filter nonEmpty _) as [|p ps]; [discriminate|].
  intros E. injection E as <-. eauto.
Qed.

Lemma stripLeading_slashes s :
  exists k, s = k ++ stripLeadingSlashes s /\ Forall (eq slash) k.
Proof.
  induction s as [|a s IH]; simpl; [exists []; split; [reflexivity | constructor]|].
  destruct (a =? slash) eqn:E; [|exists []; split; [reflexivity | constructor]].
  destruct IH as (k & Hk & Hf). exists (a :: k). split.
  - simpl. f_equal. exact Hk.
  - constructor; [lia | exact Hf].
Qed.

Lemma stripTrailing_slashes s :
  exists k, s = stripTrailingSlashes s ++ k /\ Forall (eq slash) k.
Proof.
  unfold stripTrailingSlashes.
  destruct (stripLeading_slashes (rev s)) as (k & Hk & Hf).
  exists (rev k). split.
  - rewrite <- rev_app_distr, <- Hk, rev_involutive. reflexivity.
  - rewrite Forall_forall in *. intros x Hx. apply Hf.
    apply list_elem_of_In. apply list_elem_of_In in Hx. apply in_rev. exact Hx.
Qed.

Lemma split_snoc sep s : split sep (s ++ [sep]) = split sep s ++ [[]].
Proof.
  induction s as [|c s IH]; simpl.
  - rewrite Z.eqb_refl. reflexivity.
  - destruct (c =? sep); rewrite IH; [reflexivity|].
    destruct (split sep s) as [|l ls] eqn:E; [exfalso; eapply split_nonempty; eauto|].
    reflexivity.
Qed.

(** Slashes in front of a path and after it add empty segments only. *)
Lemma segments_leading s :
  List.filter nonEmpty (split slash (stripLeadingSlashes s))
  = List.filter nonEmpty (split slash s).
Proof.
  induction s as [|c s IH]; [reflexivity|].
  cbn [stripLeadingSlashes]. destruct (c =? slash) eqn:E; [|reflexivity].
  rewrite IH. cbn [split]. rewrite E. reflexivity.
Qed.

Lemma segments_trailing s k :
  Forall (eq slash) k ->
  List.filter nonEmpty (split slash (s ++ k)) = List.filter nonEmpty (split slash s).
Proof.
  induction k as [|x k IH] using rev_ind; intros Hf.
  - rewrite app_nil_r. reflexivity.
  - apply Forall_app in Hf as [Hk Hx]. inversion Hx as [|? ? Hs _]; subst.
    rewrite app_assoc, split_snoc, List.filter_app. simpl. rewrite app_nil_r.
    apply IH. exact Hk.
Qed.

Lemma parsePath_segments path :
  parsePath path
  = match List.filter nonEmpty (split slash path) with
    | [] => None
    | first :: rest =>
        Some (mkPathParts first
                (match rest with [] => None | _ => Some (join [slash] rest) end))
    end.
Proof.
  unfold parsePath.
  destruct (stripTrailing_slashes (stripLeadingSlashes path)) as (k & Hk & Hf).
  rewrite <- (segments_leading path). rewrite Hk at 2.
  rewrite (segments_trailing _ k Hf). reflexivity.
Qed.

End PathFacts.

(** X4.  [parsePath] has no path to return exactly for the inputs made
    of slashes only, the empty string among them; every other input has
    a category. *)
Theorem parsePath_none (path : list Z) :
  parsePath path = None <-> Forall (eq slash) path.
Proof.
  split.
  - intros H. apply stripLeading_nil.
    destruct (stripLeadingSlashes path) as [|c r] eqn:E; [reflexivity|].
    exfalso. unfold parsePath in H. rewrite E in H.
    pose proof (stripLeading_head _ _ _ E) as Hc.
    destruct (stripTrailing_head c r Hc) as [r' Hr]. rewrite Hr in H.
    destruct (split_head slash c r' Hc) as (l & ls & Hs). rewrite Hs in H.
    simpl in H. discriminate.
  - intros H. apply stripLeading_nil in H. unfold parsePath. rewrite H. reflexivity.
Qed.

(** X5.  What [parsePath] returns, read off the segments of the input:
    the input is split at its slashes and the empty segments are
    dropped; the first segment left is the category, and the segments
    after it, joined by slashes, are the slug (absent when there is
    none), so segments after the second stay in the slug.  The result is
    in normal form and the path written back from it parses to the same
    parts: the category is not empty and holds no slash; a slug, when
    present, is not empty and neither starts nor ends with a slash. *)
Theorem parsePath_normal (path : list Z) :
  parsePath path
  = match List.filter nonEmpty (split slash path) with
    | [] => None
    | first :: rest =>
        Some (mkPathParts first
                (match rest with [] => None | _ => Some (join [slash] rest) end))
    end
  /\ forall r,
       parsePath path = Some r ->
       category r <> [] /\ (slash ∉ category r)
       /\ (forall sl, slug r = Some sl ->
             sl <> [] /\ startsWith [slash] sl = false /\ last sl <> Some slash)
       /\ parsePath (renderPath r) = Some r.
Proof.
  split; [apply parsePath_segments|].
  intros r H. destruct (parsePath_parts _ _ H) as (p & ps & Hseg & ->).
  inversion Hseg as [|? ? [Hne Hs] Hps]; subst. cbn [category slug].
  split; [exact Hne|]. split; [exact Hs|]. split.
  - intros sl Hsl. destruct ps as [|q ps]; [discriminate|].
    assert (Hsl' : sl = join [slash] (q :: ps)) by congruence. clear Hsl. subst sl.
    destruct (join_head q ps Hps) as (c & t & Hj & Hc).
    split; [rewrite Hj; discriminate|]. split.
    + rewrite Hj. cbn [startsWith].
      destruct (slash =? c) eqn:E; [lia | reflexivity].
    + intros Hl. apply (join_last _ _ Hps Hl). reflexivity.
  - rewrite <- (parsePath_join p ps Hseg). f_equal. unfold renderPath. simpl.
    destruct ps as [|q ps]; [rewrite app_nil_r|]; reflexivity.
Qed.

Lemma parsePath_normal_witness :
  parsePath (str "//job-tracker//january/5/")
  = Some (mkPathParts (str "job-tracker") (Some (str "january/5")))
  /\ parsePath (str "/job-tracker/january/5")
     = Some (mkPathParts (str "job-tracker") (Some (str "january/5"))).
Proof.
  split; [reflexivity|].
  apply (proj2 (parsePath_normal (str "//job-tracker//january/5/"))
           (mkPathParts (str "job-tracker") (Some (str "january/5"))) eq_refl).
Defined.

(* ===================================================================== *)
(** * Formatting helpers *)
(* ===================================================================== *)

Section FormatterFacts.
Import Formatters.

Lemma escapeMarkdown_head t d r :
  escapeMarkdown t = d :: r -> isMarkdownSpecial d = false.
Proof.
  destruct t as [|c t]; simpl; [discriminate|].
  destruct (isMarkdownSpecial c) eqn:E; intros H; injection H as <- _.
  - reflexivity.
  - exact E.
Qed.

Lemma backslash_plain : isMarkdownSpecial backslash = false.
Proof. reflexivity. Qed.

End FormatterFacts.

(** X6.  The progress bar of the status message.  For a whole percentage
    from -5 to 104 [generateProgressBar] returns ten cells, the filled
    ones first, their number the percentage divided by ten and rounded,
    halves up; for every other whole percentage, and for an infinite
    one, it throws the [RangeError] of [String.prototype.repeat]; for
    [NaN] it returns the empty string.  ([formatStats] passes
    [Math.round(parsesThisMonth / parseLimit * 100)].) *)
Theorem generateProgressBar_range :
  (forall n, -5 <= n <= 104 ->
     exists filled,
       0 <= filled <= 10 /\ 10 * filled - 5 <= n <= 10 * filled + 4
       /\ Formatters.generateProgressBar (Formatters.Finite n)
          = Some (replicate (Z.to_nat filled) Formatters.FILLED
                  ++ replicate (Z.to_nat (10 - filled)) Formatters.EMPTY)
       /\ length (replicate (Z.to_nat filled) Formatters.FILLED
                  ++ replicate (Z.to_nat (10 - filled)) Formatters.EMPTY) = 10%nat)
  /\ (forall n, n < -5 \/ 104 < n ->
        Formatters.generateProgressBar (Formatters.Finite n) = None)
  /\ (forall b, Formatters.generateProgressBar (Formatters.Infinite b) = None)
  /\ Formatters.generateProgressBar Formatters.NaN = Some [].
Proof.
  split; [|split; [|split; [reflexivity | reflexivity]]].
  - intros n Hn. exists (Formatters.roundTenth n).
    unfold Formatters.generateProgressBar, Formatters.repeat1, Formatters.roundTenth.
    assert (H0 : 0 <= (n + 5) / 10 <= 10) by divmod.
    assert (H1 : 10 * ((n + 5) / 10) - 5 <= n <= 10 * ((n + 5) / 10) + 4) by divmod.
    destruct ((n + 5) / 10 <? 0) eqn:E1; [lia|].
    destruct (10 - (n + 5) / 10 <? 0) eqn:E2; [lia|].
    repeat split; try lia.
    rewrite length_app, !length_replicate. lia.
  - intros n Hn.
    unfold Formatters.generateProgressBar, Formatters.repeat1, Formatters.roundTenth.
    destruct ((n + 5) / 10 <? 0) eqn:E1; [reflexivity|].
    destruct (10 - (n + 5) / 10 <? 0) eqn:E2; [reflexivity|].
    exfalso. apply Z.ltb_ge in E1, E2. revert E1 E2. divmod.
Qed.

(** X7.  [escapeMarkdown] loses nothing: dropping the backslash in front
    of each unit of the escaped class gives the text back, so two
    different texts never escape to the same string; the backslash
    itself is not in the escaped class and is left alone; and a text is
    its own escape exactly when it holds no unit of the class. *)
Theorem escapeMarkdown_lossless (t : list Z) :
  unescape (Formatters.escapeMarkdown t) = t
  /\ (Formatters.escapeMarkdown t = t
      <-> forallb (fun c => negb (Formatters.isMarkdownSpecial c)) t = true)
  /\ (length t <= length (Formatters.escapeMarkdown t) <= 2 * length t)%nat.
Proof.
  split; [|split].
  - induction t as [|c t IH]; [reflexivity|].
    cbn [Formatters.escapeMarkdown].
    destruct (Formatters.isMarkdownSpecial c) eqn:E.
    + cbn [unescape]. rewrite Z.eqb_refl, E, IH. reflexivity.
    + cbn [unescape]. destruct (c =? Formatters.backslash) eqn:Eb.
      * destruct (Formatters.escapeMarkdown t) as [|d r] eqn:Et.
        -- destruct t as [|x t]; [reflexivity|]. simpl in Et.
           destruct (Formatters.isMarkdownSpecial x); discriminate.
        -- rewrite (escapeMarkdown_head _ _ _ Et). rewrite IH. reflexivity.
      * rewrite IH. reflexivity.
  - induction t as [|c t IH]; [split; reflexivity|].
    cbn [Formatters.escapeMarkdown forallb].
    destruct (Formatters.isMarkdownSpecial c) eqn:E; simpl.
    + split; [|discriminate]. intros H. injection H as Hc Ht.
      rewrite <- Hc in E. rewrite backslash_plain in E. discriminate.
    + rewrite <- IH. split; intros H; [injection H as H; exact H | f_equal; exact H].
  - induction t as [|c t IH]; [simpl; lia|].
    cbn [Formatters.escapeMarkdown].
    destruct (Formatters.isMarkdownSpecial c); simpl in *; lia.
Qed.

(* ===================================================================== *)
(** * Inline buttons and their handler *)
(* ===================================================================== *)

Section ButtonFacts.
Context {C : Cipher}.

Lemma buttons_recognised kb bs data :
  buttons kb = Some bs -> data ∈ Keyboards.callbackData bs ->
  recognised data = true /\ data <> [].
Proof.
  intros Hb Hd.
  destruct kb; simpl in Hb; try discriminate; injection Hb as <-;
    cbn in Hd;
    repeat match goal with
           | H : _ ∈ _ :: _ |- _ => apply elem_of_cons in H as [-> | H]
           | H : _ ∈ [] |- _ => apply elem_of_nil in H; contradiction
           end;
    split; solve [reflexivity | discriminate].
Qed.

(** The number of replies to a press of a known button: one, or none
    when the formatter of the answer throws. *)
Lemma handleCallbackQuery_count env ctx uid data store files :
  userIdOf ctx = Some uid -> callback_data ctx = Some data -> data <> [] ->
  recognised data = true ->
  length (replies (sent (run (handleCallbackQuery env ctx) store files)))
  = if pressRenders env store uid data then 1%nat else 0%nat.
Proof.
  intros Hu Hc Hne Hr. destruct data as [|d ata]; [contradiction|].
  unfold pressRenders.
  destruct (streq (d :: ata) (str "status")) eqn:Es.
  - assert (Eq := proj1 (streq_eq _ _) Es).
    assert (H1 : streq (d :: ata) (str "help") = false) by (rewrite Eq; reflexivity).
    assert (H2 : streq (d :: ata) (str "setup") = false) by (rewrite Eq; reflexivity).
    assert (H3 : streq (d :: ata) (str "setup_ready") = false)
      by (rewrite Eq; reflexivity).
    unfold run, handleCallbackQuery. rewrite Hc, Hu, H1, H2, H3, Es.
    unfold getApiKeyM, getStatsM, replyWithChatAction, emit, mbind, M_bind.
    cbn -[getApiKey getStats renderStats str].
    destruct (getApiKey store uid) as [[|c k]|]; try reflexivity.
    cbn -[getApiKey getStats renderStats str].
    destruct (renderStats env (getStats (backend env) (c :: k))); reflexivity.
  - destruct (streq (d :: ata) (str "list")) eqn:El.
    + assert (Eq := proj1 (streq_eq _ _) El).
      assert (H1 : streq (d :: ata) (str "help") = false) by (rewrite Eq; reflexivity).
      assert (H2 : streq (d :: ata) (str "setup") = false) by (rewrite Eq; reflexivity).
      assert (H3 : streq (d :: ata) (str "setup_ready") = false)
        by (rewrite Eq; reflexivity).
      unfold run, handleCallbackQuery. rewrite Hc, Hu, H1, H2, H3, Es, El.
      unfold getApiKeyM, listEndpointsM, replyWithChatAction, emit, mbind, M_bind.
      cbn -[getApiKey listEndpoints renderEndpointsList str].
      destruct (getApiKey store uid) as [[|c k]|]; try reflexivity.
      cbn -[getApiKey listEndpoints renderEndpointsList str].
      destruct (renderEndpointsList (listEndpoints (backend env) (c :: k)));
        reflexivity.
    + unfold run.
      rewrite (handleCallbackQuery_one env ctx uid d ata Hu Hc Hr
                 (or_intror (conj Es El))).
      reflexivity.
Qed.

End ButtonFacts.

(** X8.  The buttons and their answers.  Every payload of a keyboard
    the handlers attach to a reply (the welcome, setup, key-saved,
    error-help, scan-success and endpoint-detail keyboards; the
    endpoints list is not covered) is one [handleCallbackQuery] acts on.
    A press by a known sender is answered with exactly one reply, with
    one exception: the [status] and [list] buttons of the key-saved
    keyboard, pressed by a user with a credential, get no reply when
    the formatter of the answer throws ([formatStats] on usage figures
    whose bar cannot be drawn, [formatEndpointsList] on a category
    named like a property of [Object.prototype]). *)
Theorem buttons_answered (C : Cipher) (env : Env) (ctx : Ctx) (uid : Z)
    (kb : Keyboard) (bs : list Keyboards.Button) (data : list Z) :
  buttons kb = Some bs -> data ∈ Keyboards.callbackData bs ->
  userIdOf ctx = Some uid -> callback_data ctx = Some data ->
  recognised data = true
  /\ (forall store files,
        length (replies (sent (run (handleCallbackQuery env ctx) store files)))
        = if pressRenders env store uid data then 1%nat else 0%nat)
  /\ (data <> str "status" -> data <> str "list" ->
      forall store, pressRenders env store uid data = true).
Proof.
  intros Hb Hd Hu Hc.
  destruct (buttons_recognised kb bs data Hb Hd) as [Hr Hne].
  split; [exact Hr|]. split.
  - intros store files.
    apply (handleCallbackQuery_count env ctx uid data store files Hu Hc Hne Hr).
  - intros Hs Hl store. unfold pressRenders.
    destruct (streq data (str "status")) eqn:Es.
    { apply streq_eq in Es. contradiction. }
    destruct (streq data (str "list")) eqn:El.
    { apply streq_eq in El. contradiction. }
    reflexivity.
Qed.

Lemma buttons_answered_witness :
  str "status" ∈ Keyboards.callbackData Keyboards.apiKeySavedKeyboard
  /\ sent (run (handleCallbackQuery (C := ToyCipher.toyCipher)
                  (Scenario.envWith Scenario.overQuota Scenario.january)
                  (Scenario.pressFrom Scenario.user (str "status")))
               Scenario.linked ∅)
     = [AnswerCallbackQuery; ChatAction typing;
        Call (GetBillingStats Scenario.key); BotError]
  /\ length (replies (sent (run (handleCallbackQuery (C := ToyCipher.toyCipher)
                  (Scenario.envWith Scenario.overQuota Scenario.january)
                  (Scenario.pressFrom Scenario.user (str "status")))
               Scenario.linked ∅))) = 0%nat
  /\ length (replies (sent (run (handleCallbackQuery (C := ToyCipher.toyCipher)
                  (Scenario.envWith Scenario.emptyOk Scenario.january)
                  (Scenario.pressFrom Scenario.user (str "status")))
               Scenario.linked ∅))) = 1%nat.
Proof.
  assert (Hd : str "status" ∈ Keyboards.callbackData Keyboards.apiKeySavedKeyboard)
    by (left).
  split; [exact Hd|]. split; [vm_compute; reflexivity|]. split.
  - rewrite (proj1 (proj2 (buttons_answered ToyCipher.toyCipher
                  (Scenario.envWith Scenario.overQuota Scenario.january)
                  (Scenario.pressFrom Scenario.user (str "status"))
                  Scenario.user apiKeySavedKeyboard _ _
                  eq_refl Hd eq_refl eq_refl))).
    vm_compute. reflexivity.
  - vm_compute. reflexivity.
Defined.

(** X9.  The buttons under a scan result and under an endpoint's data
    lead back to that endpoint: a press on [View Endpoint] of
    [scanSuccessKeyboard(path)] or on [Refresh] of
    [endpointDetailKeyboard(path)] is acknowledged and then handled as
    [handleGetMessage] on the same path, whatever the path is. *)
Theorem path_buttons_fetch (C : Cipher) (env : Env) (ctx : Ctx) (uid : Z)
    (kb : Keyboard) (bs : list Keyboards.Button) (path data : list Z) :
  kb = scanSuccessKeyboard path \/ kb = endpointDetailKeyboard path ->
  buttons kb = Some bs -> data ∈ Keyboards.callbackData bs ->
  userIdOf ctx = Some uid -> callback_data ctx = Some data ->
  forall w,
    handleCallbackQuery env ctx w
    = (emit AnswerCallbackQuery;; handleGetMessage env ctx path) w.
Proof.
  intros Hkb Hb Hd Hu Hc w.
  destruct Hkb as [-> | ->]; simpl in Hb; injection Hb as <-; cbn in Hd;
    apply list_elem_of_singleton in Hd; subst data;
    unfold handleCallbackQuery; rewrite Hc, Hu; reflexivity.
Qed.

Lemma path_buttons_fetch_witness :
  sent (run (handleCallbackQuery (C := ToyCipher.toyCipher)
               (Scenario.envWith Scenario.emptyOk Scenario.january)
               (Scenario.pressFrom Scenario.user (str "get:/leads/acme")))
            Scenario.linked ∅)
  = AnswerCallbackQuery
    :: sent (run (handleGetMessage (C := ToyCipher.toyCipher)
                    (Scenario.envWith Scenario.emptyOk Scenario.january)
                    (Scenario.pressFrom Scenario.user (str "get:/leads/acme"))
                    (str "/leads/acme"))
                 Scenario.linked ∅)
  /\ Call (GetEndpoint Scenario.key (str "/api/endpoints/leads/acme"))
     ∈ sent (run (handleCallbackQuery (C := ToyCipher.toyCipher)
               (Scenario.envWith Scenario.emptyOk Scenario.january)
               (Scenario.pressFrom Scenario.user (str "get:/leads/acme")))
            Scenario.linked ∅).
Proof.
  unfold run.
  rewrite (path_buttons_fetch ToyCipher.toyCipher
             (Scenario.envWith Scenario.emptyOk Scenario.january)
             (Scenario.pressFrom Scenario.user (str "get:/leads/acme"))
             Scenario.user (scanSuccessKeyboard (str "/leads/acme")) _
             (str "/leads/acme") (str "get:/leads/acme")
             (or_introl eq_refl) eq_refl
             ltac:(apply list_elem_of_singleton; reflexivity) eq_refl eq_refl).
  split; [vm_compute; reflexivity|].
  vm_compute. apply list_elem_of_In. simpl. tauto.
Defined.

(** X10.  A payload that is none of those [handleCallbackQuery] acts on
    is acknowledged and nothing else happens: no reply, no backend call,
    no change of the session store or of the pending files.  The
    [Confirm] button of [confirmKeyboard] is such a button, whatever
    its action. *)
Theorem unrecognised_press (C : Cipher) (env : Env) (ctx : Ctx) (uid : Z)
    (data : list Z) (store : gmap Z UserSession) (files : gmap Z PendingFile) :
  userIdOf ctx = Some uid -> callback_data ctx = Some data -> data <> [] ->
  recognised data = false ->
  run (handleCallbackQuery env ctx) store files
  = mkWorld store files [AnswerCallbackQuery].
Proof.
  intros Hu Hc Hne Hr. destruct data as [|d ata]; [contradiction|].
  unfold run, handleCallbackQuery. rewrite Hc, Hu.
  unfold recognised in Hr.
  repeat match goal with
         | H : _ || _ = false |- _ => apply orb_false_elim in H as [? ?]
         end.
  repeat match goal with
         | H : _ = false |- _ => rewrite H; clear H
         end.
  reflexivity.
Qed.

Lemma unrecognised_press_witness :
  str "confirm:delete" ∈ Keyboards.callbackData (Keyboards.confirmKeyboard (str "delete"))
  /\ run (handleCallbackQuery (C := ToyCipher.toyCipher)
            (Scenario.envWith Scenario.emptyOk Scenario.january)
            (Scenario.pressFrom Scenario.user (str "confirm:delete")))
         Scenario.linked ∅
     = mkWorld Scenario.linked ∅ [AnswerCallbackQuery].
Proof.
  split; [left|].
  apply (unrecognised_press ToyCipher.toyCipher
           (Scenario.envWith Scenario.emptyOk Scenario.january)
           (Scenario.pressFrom Scenario.user (str "confirm:delete"))
           Scenario.user (str "confirm:delete") Scenario.linked ∅ eq_refl eq_refl).
  - discriminate.
  - reflexivity.
Defined.

(* ===================================================================== *)
(** * What the decoder writes, and what the store keeps *)
(* ===================================================================== *)

Section DecoderFacts.
Import Decoder.

Lemma wellFormed_unit c s :
  0 <= c < 65536 -> ~ (55296 <= c <= 57343) ->
  wellFormed (c :: s) = wellFormed s.
Proof.
  intros Hc Hs. simpl. unfold isHighSurrogate, isLowSurrogate.
  destruct ((55296 <=? c) && (c <=? 56319)) eqn:E1; [lia|].
  destruct ((56320 <=? c) && (c <=? 57343)) eqn:E2; [lia|].
  destruct (0 <=? c) eqn:E3; [|lia]. destruct (c <? 65536) eqn:E4; [|lia].
  reflexivity.
Qed.

Lemma wellFormed_units cp s :
  scalar cp -> wellFormed (utf16Units cp ++ s) = wellFormed s.
Proof.
  intros [Hr Hs]. unfold utf16Units. destruct (Z.ltb_spec cp 65536).
  - apply wellFormed_unit; lia.
  - cbn [app wellFormed]. unfold isHighSurrogate, isLowSurrogate.
    assert (H1 : 0 <= (cp - 65536) / 1024 <= 1023) by divmod.
    assert (H2 : 0 <= (cp - 65536) mod 1024 <= 1023) by divmod.
    destruct ((55296 <=? 55296 + (cp - 65536) / 1024)
              && (55296 + (cp - 65536) / 1024 <=? 56319)) eqn:E1; [|lia].
    destruct ((56320 <=? 56320 + (cp - 65536) mod 1024)
              && (56320 + (cp - 65536) mod 1024 <=? 57343)) eqn:E2; [|lia].
    reflexivity.
Qed.

Lemma decodeLead_ready b :
  ready (decodeLead b).2
  /\ forall s, wellFormed ((decodeLead b).1 ++ s) = wellFormed s.
Proof.
  unfold decodeLead.
  destruct ((0 <=? b) && (b <=? 127)) eqn:E1.
  { split; [exact I|]. intros s. apply wellFormed_unit; lia. }
  destruct ((194 <=? b) && (b <=? 223)) eqn:E2.
  { split; [|reflexivity]. exists 0%nat. split; [reflexivity|]. simpl.
    repeat split; try lia. }
  destruct ((224 <=? b) && (b <=? 239)) eqn:E3.
  { split; [|reflexivity]. exists 1%nat. split; [reflexivity|]. simpl.
    destruct (Z.eqb_spec b 224); destruct (Z.eqb_spec b 237);
      repeat split; try lia. }
  destruct ((240 <=? b) && (b <=? 244)) eqn:E4.
  { split; [|reflexivity]. exists 2%nat. split; [reflexivity|]. simpl.
    destruct (Z.eqb_spec b 240); destruct (Z.eqb_spec b 244);
      repeat split; try lia. }
  split; [exact I|]. intros s. apply wellFormed_unit; unfold REPLACEMENT; lia.
Qed.

(** Whatever bytes it reads, the decoder writes a string without
    unpaired surrogates. *)
Lemma utf8DecodeFrom_wellFormed bs :
  forall st, ready st -> wellFormed (utf8DecodeFrom st bs) = true.
Proof.
  induction bs as [|b bs IH]; intros st Hst.
  - destruct st; reflexivity.
  - destruct st as [d|].
    + cbn [utf8DecodeFrom].
      destruct Hst as (n & Hn & Hlo & Hhi & Hc).
      destruct ((dLower d <=? b) && (b <=? dUpper d)) eqn:E.
      * assert (Hb : dLower d <= b <= dUpper d) by lia.
        specialize (Hc b Hb). rewrite Hn. destruct n as [|n].
        -- rewrite wellFormed_units by exact Hc. apply IH. exact I.
        -- apply IH. exists n. split; [reflexivity | exact Hc].
      * destruct (decodeLead_ready b) as [Hr Hw].
        destruct (decodeLead b) as [out st']. cbn [fst snd] in Hr, Hw.
        rewrite wellFormed_unit by (unfold REPLACEMENT; lia).
        rewrite Hw. apply IH. exact Hr.
    + rewrite decode_lead. destruct (decodeLead_ready b) as [Hr Hw].
      rewrite Hw. apply IH. exact Hr.
Qed.

Lemma utf8Decode_wellFormed bs : wellFormed (utf8Decode bs) = true.
Proof. apply utf8DecodeFrom_wellFormed. exact I. Qed.

End DecoderFacts.

Section StoreFacts.
Context {C : Cipher}.

Lemma decrypt_wellFormed ct plain : decrypt ct = Some plain -> wellFormed plain = true.
Proof.
  unfold decrypt. destruct (split colon ct) as [|ivHex [|encrypted ?]]; try discriminate.
  destruct (Nat.eqb _ _); [|discriminate].
  destruct (cbcDecrypt _ _); [|discriminate].
  intros H. injection H as <-. apply utf8Decode_wellFormed.
Qed.

(** The credential a session shows was decoded from bytes: it holds no
    unpaired surrogate. *)
Lemma getApiKey_readable store uid c k :
  getApiKey store uid = Some (c :: k) -> wellFormed (c :: k) = true.
Proof.
  unfold getApiKey, getSession.
  destruct (store !! uid) as [data|]; [|discriminate].
  destruct (apiKey data) as [[|a ct]|] eqn:Ea.
  - rewrite Ea. discriminate.
  - destruct (decrypt (a :: ct)) as [plain|] eqn:Ed; cbn [apiKey]; [|discriminate].
    intros H. injection H as H. rewrite <- H. eapply decrypt_wellFormed. exact Ed.
  - rewrite Ea. discriminate.
Qed.

(** A write of the prompt leaves the credential readable as before. *)
Lemma getApiKey_setLastPrompt (HC : CipherCorrect C) iv store uid p :
  length iv = 16%nat -> Forall is_byte iv ->
  getApiKey (setLastPrompt iv store uid p) uid = getApiKey store uid.
Proof.
  intros Hl Hb.
  unfold setLastPrompt, updateSession, merge. cbn [snd uApiKey uLastPrompt uLinkedAt default].
  destruct (getApiKey store uid) as [[|c k]|] eqn:Ek; unfold getApiKey in Ek |- *.
  - rewrite Ek. unfold getSession, saveSession. rewrite lookup_insert_eq. reflexivity.
  - rewrite Ek. rewrite getSession_saveSession by discriminate.
    rewrite (decrypt_encrypt HC) by
      (try assumption; eapply getApiKey_readable; exact Ek).
    reflexivity.
  - rewrite Ek. unfold getSession, saveSession. rewrite lookup_insert_eq. reflexivity.
Qed.

Lemma getLastPrompt_setLastPrompt iv store uid p :
  getLastPrompt (setLastPrompt iv store uid p) uid = Some p.
Proof.
  unfold getLastPrompt, setLastPrompt, updateSession. cbn [snd].
  rewrite (proj1 (saveSession_fields _ _ _ _)). reflexivity.
Qed.

End StoreFacts.

(** X11.  The two fields of a session are written independently.  With
    a correct cipher and a 16-byte IV, [setLastPrompt] leaves the
    credential a later [getApiKey] returns as it was, although the
    record is read, decrypted, encrypted anew and written back;
    [getLastPrompt] then returns the prompt just set, the empty string
    included; and [setApiKey] leaves the prompt as it was. *)
Theorem session_fields_independent (C : Cipher) (HC : CipherCorrect C)
    (iv now : list Z) (store : gmap Z UserSession) (uid : Z) (p key : list Z) :
  length iv = 16%nat -> Forall is_byte iv ->
  getApiKey (setLastPrompt iv store uid p) uid = getApiKey store uid
  /\ getLastPrompt (setLastPrompt iv store uid p) uid = Some p
  /\ getLastPrompt (setApiKey iv now store uid key) uid = getLastPrompt store uid.
Proof.
  intros Hl Hb. split; [|split].
  - apply (getApiKey_setLastPrompt HC); assumption.
  - apply getLastPrompt_setLastPrompt.
  - unfold getLastPrompt, setApiKey, updateSession. cbn [snd].
    rewrite (proj1 (saveSession_fields _ _ _ _)). reflexivity.
Qed.

Lemma session_fields_independent_witness :
  getApiKey (C := ToyCipher.toyCipher)
    (setLastPrompt (C := ToyCipher.toyCipher)
       [9;9;9;9;9;9;9;9;9;9;9;9;9;9;9;9] Scenario.linked Scenario.user (str "job tracker"))
    Scenario.user
  = Some Scenario.key
  /\ getLastPrompt (C := ToyCipher.toyCipher)
       (setLastPrompt (C := ToyCipher.toyCipher)
          [9;9;9;9;9;9;9;9;9;9;9;9;9;9;9;9] Scenario.linked Scenario.user (str "job tracker"))
       Scenario.user
     = Some (str "job tracker").
Proof.
  destruct (session_fields_independent ToyCipher.toyCipher toyCipher_correct
              [9;9;9;9;9;9;9;9;9;9;9;9;9;9;9;9] Scenario.january Scenario.linked
              Scenario.user (str "job tracker") Scenario.key eq_refl
              ltac:(bytes)) as (H1 & H2 & _).
  split; [rewrite H1; vm_compute; reflexivity | exact H2].
Defined.

(** X12.  A credential that no longer decrypts is lost at the next
    write: [getSession] clears it in the record it returns, and
    [setLastPrompt] (like every [updateSession]) writes that record
    back, so the stored ciphertext is replaced by an absent credential
    while the link time is kept. *)
Theorem corrupted_credential_erased (C : Cipher) (iv : list Z)
    (store : gmap Z UserSession) (uid : Z) (data : UserSession) (ct p : list Z) :
  store !! uid = Some data -> apiKey data = Some ct -> ct <> [] ->
  decrypt ct = None ->
  setLastPrompt iv store uid p !! uid
  = Some (mkSession None (Some p) (linkedAt data))
  /\ hasApiKey (setLastPrompt iv store uid p) uid = false.
Proof.
  intros Hs Ha Hne Hd. destruct ct as [|c ct]; [contradiction|].
  assert (Hg : getSession store uid = mkSession None (lastPrompt data) (linkedAt data)).
  { unfold getSession. rewrite Hs, Ha, Hd. reflexivity. }
  assert (Hw : setLastPrompt iv store uid p !! uid
               = Some (mkSession None (Some p) (linkedAt data))).
  { unfold setLastPrompt, updateSession, merge, saveSession.
    cbn [snd uApiKey uLastPrompt uLinkedAt default]. rewrite Hg. cbn [apiKey lastPrompt linkedAt].
    apply lookup_insert_eq. }
  split; [exact Hw|].
  unfold hasApiKey, getSession. rewrite Hw. reflexivity.
Qed.

Lemma corrupted_credential_erased_witness :
  setLastPrompt (C := ToyCipher.toyCipher) Scenario.iv0
    {[ 7 := mkSession (Some (str "00ff:zz")) None (Some Scenario.january) ]}
    7 (str "job tracker") !! 7
  = Some (mkSession None (Some (str "job tracker")) (Some Scenario.january)).
Proof.
  apply (corrupted_credential_erased ToyCipher.toyCipher Scenario.iv0
           {[ 7 := mkSession (Some (str "00ff:zz")) None (Some Scenario.january) ]}
           7 (mkSession (Some (str "00ff:zz")) None (Some Scenario.january))
           (str "00ff:zz") (str "job tracker")).
  - apply lookup_singleton_eq.
  - reflexivity.
  - discriminate.
  - reflexivity.
Defined.

(** X13.  [clearSession] forgets a user and nobody else: afterwards
    [getSession] returns the empty session for that user, so neither a
    credential nor a prompt nor a link time is left, and every other
    user's session reads as before; clearing a user who has no record
    changes nothing. *)
Theorem clearSession_forgets (C : Cipher) (store : gmap Z UserSession) (uid : Z) :
  getSession (clearSession store uid) uid = emptySession
  /\ hasApiKey (clearSession store uid) uid = false
  /\ getLastPrompt (clearSession store uid) uid = None
  /\ (forall uid', uid' <> uid ->
        getSession (clearSession store uid) uid' = getSession store uid')
  /\ (store !! uid = None -> clearSession store uid = store).
Proof.
  assert (H : getSession (clearSession store uid) uid = emptySession).
  { unfold getSession, clearSession. rewrite lookup_delete_eq. reflexivity. }
  split; [exact H|]. unfold hasApiKey, getLastPrompt. rewrite H.
  split; [reflexivity|]. split; [reflexivity|]. split.
  - intros uid' Hne. unfold getSession, clearSession.
    rewrite lookup_delete_ne by congruence. reflexivity.
  - intros Hn. unfold clearSession. apply delete_id. exact Hn.
Qed.

(* ===================================================================== *)
(** * Credentials and the handlers *)
(* ===================================================================== *)

Section IntakeFacts.
Context {C : Cipher}.

Lemma keyShaped_test text :
  negb (startsWith (str "ep_") text) || (Z.of_nat (length text) <? 20)
  = negb (keyShaped text).
Proof.
  unfold keyShaped. destruct (startsWith (str "ep_") text); simpl; [|reflexivity].
  destruct (Z.of_nat (length text) <? 20); reflexivity.
Qed.

(** A text that is not key-shaped goes through [handleApiKeyInput]
    untouched. *)
Lemma handleApiKeyInput_passes env ctx text w :
  keyShaped text = false -> handleApiKeyInput env ctx text w = (false, w).
Proof.
  intros H. unfold handleApiKeyInput.
  destruct (userIdOf ctx); [|reflexivity].
  rewrite keyShaped_test, H. reflexivity.
Qed.

Lemma no_call_in (l : list Effect) :
  forallb (fun e => match e with Call _ => false | _ => true end) l = true ->
  forall r, Call r ∉ l.
Proof.
  intros H r Hr. rewrite forallb_forall in H.
  apply list_elem_of_In in Hr. specialize (H _ Hr). discriminate.
Qed.

End IntakeFacts.

(** X14.  How a credential is taken in.  A text message that, trimmed,
    starts with ["ep_"] and is at least 20 units long is never parsed as
    a command.  Outside a private chat it is refused with one reply:
    nothing is stored and the backend is not called.  In a private chat
    the trimmed text is validated by one request for the endpoint tree;
    it is stored, with the time of the call, exactly when that request
    returns, and otherwise the store is left as it was. *)
Theorem credential_intake (C : Cipher) (env : Env) (ctx : Ctx)
    (store : gmap Z UserSession) (files : gmap Z PendingFile)
    (uid : Z) (text : list Z) :
  userIdOf ctx = Some uid -> message_text ctx = Some text -> text <> [] ->
  keyShaped (trim text) = true ->
  run (handleTextMessage env ctx) store files
  = if negb (chat_private ctx) then
      mkWorld store files [Reply KeyPrivateOnly None]
    else
      match getTree (backend env) (GetTree (trim text)) with
      | Returned _ =>
          mkWorld (setApiKey (randomBytes16 env) (isoNow env) store uid (trim text))
                  files
                  [ChatAction typing; Call (GetTree (trim text));
                   Reply formatApiKeySaved (Some apiKeySavedKeyboard)]
      | Threw _ =>
          mkWorld store files
                  [ChatAction typing; Call (GetTree (trim text));
                   Reply InvalidApiKey None]
      end.
Proof.
  intros Hu Ht Hne Hk. destruct text as [|t ext]; [contradiction|].
  unfold run, handleTextMessage. rewrite Ht, Hu, bind_run.
  unfold handleApiKeyInput. rewrite Hu, keyShaped_test, Hk. cbn [negb].
  destruct (chat_private ctx); cbn [negb]; [|reflexivity].
  unfold validateApiKeyM, validateApiKey, setApiKeyM, replyWithChatAction, reply, emit,
    mbind, M_bind, mret, M_ret.
  cbn -[setApiKey trim].
  destruct (getTree (backend env) (GetTree (trim (t :: ext)))); reflexivity.
Qed.

Lemma credential_intake_witness :
  keyShaped (trim ([32] ++ Scenario.key ++ [10])) = true
  /\ run (handleTextMessage (C := ToyCipher.toyCipher)
            (Scenario.envWith (Scenario.failing Scenario.timeout) Scenario.january)
            (Scenario.textFrom Scenario.user ([32] ++ Scenario.key ++ [10])))
         ∅ ∅
     = mkWorld ∅ ∅ [ChatAction typing; Call (GetTree Scenario.key);
                    Reply InvalidApiKey None].
Proof.
  split; [reflexivity|].
  rewrite (credential_intake ToyCipher.toyCipher
             (Scenario.envWith (Scenario.failing Scenario.timeout) Scenario.january)
             (Scenario.textFrom Scenario.user ([32] ++ Scenario.key ++ [10]))
             ∅ ∅ Scenario.user ([32] ++ Scenario.key ++ [10])
             eq_refl eq_refl ltac:(discriminate) eq_refl).
  reflexivity.
Defined.

Section WithoutCredential.
Context {C : Cipher}.

Lemma quiet_intro store files l :
  forallb (fun e => match e with Call _ => false | _ => true end) l = true ->
  quiet (mkWorld store files l) store.
Proof. intros H. split; [reflexivity | apply no_call_in; exact H]. Qed.

End WithoutCredential.

(** X15.  Without a credential the backend is never contacted.  For a
    known sender whose session shows no credential (none stored, an
    empty one, or one that does not decrypt), and whose text, if any, is
    not key-shaped: whatever the update (a command, a text in any form
    of the grammar, a document, a photo, a button), the handler sends
    the backend no request and leaves the session store as it was. *)
Theorem no_credential_no_call (C : Cipher) (env : Env) (ctx : Ctx)
    (store : gmap Z UserSession) (files : gmap Z PendingFile) (uid : Z) (u : Update) :
  userIdOf ctx = Some uid -> truthy (getApiKey store uid) = false ->
  (forall t, message_text ctx = Some t -> keyShaped (trim t) = false) ->
  quiet (run (handleUpdate env u ctx) store files) store.
Proof.
  intros Hu Hk Ht. unfold getApiKey in Hk.
  destruct u as [[| | | |]| | | |]; unfold run; cbn [handleUpdate].
  - apply quiet_intro. reflexivity.
  - apply quiet_intro. reflexivity.
  - unfold handleSetup. destruct (chat_private ctx); cbn [negb];
      [|apply quiet_intro; reflexivity].
    rewrite Hu. unfold hasApiKeyM, hasApiKey, mbind, M_bind. cbn -[getSession].
    rewrite Hk. apply quiet_intro. reflexivity.
  - unfold handleList, getApiKeyM, getApiKey, mbind, M_bind. rewrite Hu.
    cbn -[getSession].
    destruct (apiKey (getSession store uid)) as [[|? ?]|];
      [ | discriminate Hk | ]; apply quiet_intro; reflexivity.
  - unfold handleStatus, getApiKeyM, getApiKey, mbind, M_bind. rewrite Hu.
    cbn -[getSession].
    destruct (apiKey (getSession store uid)) as [[|? ?]|];
      [ | discriminate Hk | ]; apply quiet_intro; reflexivity.
  - unfold handleCallbackQuery.
    destruct (callback_data ctx) as [[|d ata]|]; try (apply quiet_intro; reflexivity).
    rewrite Hu. unfold handleGetMessage, getPendingFile, getApiKeyM, getApiKey, mbind, M_bind.
    rewrite Hu.
    cbn -[getSession streq startsWith str].
    repeat match goal with
           | |- context [if ?b then _ else _] => destruct b
           end;
      cbn -[getSession streq startsWith str];
      try (apply quiet_intro; reflexivity);
      try (destruct (files !! uid); cbn -[getSession streq startsWith str];
           try (apply quiet_intro; reflexivity));
      destruct (apiKey (getSession store uid)) as [[|? ?]|];
      try discriminate Hk; apply quiet_intro; reflexivity.
  - unfold handleDocument.
    destruct (message_document ctx); [|apply quiet_intro; reflexivity].
    rewrite Hu. unfold getApiKeyM, getApiKey, mbind, M_bind. cbn -[getSession].
    destruct (apiKey (getSession store uid)) as [[|? ?]|];
      [ | discriminate Hk | ]; apply quiet_intro; reflexivity.
  - unfold handlePhoto.
    destruct (message_photo ctx) as [[|p0 ps]|]; try (apply quiet_intro; reflexivity).
    rewrite Hu. unfold getApiKeyM, getApiKey, mbind, M_bind. cbn -[getSession].
    destruct (apiKey (getSession store uid)) as [[|? ?]|];
      [ | discriminate Hk | ]; apply quiet_intro; reflexivity.
  - unfold handleTextMessage.
    destruct (message_text ctx) as [[|t ext]|] eqn:Hm; try (apply quiet_intro; reflexivity).
    rewrite Hu, bind_run, handleApiKeyInput_passes by (apply Ht; reflexivity).
    cbn [fst snd].
    destruct (parseMessage (t :: ext)) as [parsed|]; [|apply quiet_intro; reflexivity].
    unfold handleListMessage, handleScanMessage, handleTextScanMessage, handleGetMessage,
      handleFileGetMessage, handleUnknownMessage, getApiKeyM, getApiKey, mbind, M_bind.
    rewrite Hu.
    destruct (type parsed); cbn -[getSession sanitize];
      try (apply quiet_intro; reflexivity);
      destruct (apiKey (getSession store uid)) as [[|? ?]|];
      try discriminate Hk; apply quiet_intro; reflexivity.
Qed.

Lemma no_credential_no_call_witness :
  quiet (run (handleUpdate (C := ToyCipher.toyCipher)
                (Scenario.envWith Scenario.emptyOk Scenario.january) OnText
                (Scenario.textFrom Scenario.user (str "scan: leads")))
             ∅ ∅)
        ∅
  /\ sent (run (handleUpdate (C := ToyCipher.toyCipher)
                  (Scenario.envWith Scenario.emptyOk Scenario.january) OnText
                  (Scenario.textFrom Scenario.user (str "scan: leads")))
               ∅ ∅)
     = [Reply formatMissingApiKey None].
Proof.
  split; [|vm_compute; reflexivity].
  apply (no_credential_no_call ToyCipher.toyCipher
           (Scenario.envWith Scenario.emptyOk Scenario.january)
           (Scenario.textFrom Scenario.user (str "scan: leads"))
           ∅ ∅ Scenario.user OnText eq_refl).
  - vm_compute. reflexivity.
  - intros t Ht. injection Ht as <-. vm_compute. reflexivity.
Defined.

(* ===================================================================== *)
(** * The remembered prompt *)
(* ===================================================================== *)

Section PromptFacts.
Context {C : Cipher}.

Lemma handleScanMessage_run env ctx store files uid k p content :
  userIdOf ctx = Some uid -> getApiKey store uid = Some k -> k <> [] ->
  run (handleScanMessage env ctx p content) store files
  = match content with
    | Some (x :: body) =>
        mkWorld (setLastPrompt (randomBytes16 env) store uid (sanitize p)) files
          [ChatAction typing;
           Call (PostScanText k (sanitize p) (sanitize (x :: body)));
           Reply (formatScanResult
                    (scanText (backend env) k (sanitize p) (sanitize (x :: body))))
                 (Some (scanKeyboard
                    (scanText (backend env) k (sanitize p) (sanitize (x :: body)))))]
    | _ =>
        mkWorld (setLastPrompt (randomBytes16 env) store uid (sanitize p)) files
          [Reply (PromptSet (sanitize p)) None]
    end.
Proof.
  intros Hu Hk Hne. destruct k as [|c k]; [contradiction|].
  unfold run, handleScanMessage. rewrite Hu.
  unfold mbind, M_bind, getApiKeyM, setLastPromptM.
  cbn -[getApiKey setLastPrompt sanitize scanText]. rewrite Hk.
  destruct content as [[|x body]|]; reflexivity.
Qed.

Lemma handleTextScanMessage_run env ctx store files uid k content :
  userIdOf ctx = Some uid -> getApiKey store uid = Some k -> k <> [] ->
  sent (run (handleTextScanMessage env ctx content) store files)
  = match getLastPrompt store uid with
    | Some (x :: p) =>
        [ChatAction typing;
         Call (PostScanText k (x :: p) (sanitize content));
         Reply (formatScanResult (scanText (backend env) k (x :: p) (sanitize content)))
               (Some (scanKeyboard
                  (scanText (backend env) k (x :: p) (sanitize content))))]
    | _ => [Reply NoPromptSet None]
    end.
Proof.
  intros Hu Hk Hne. destruct k as [|c k]; [contradiction|].
  unfold run, handleTextScanMessage. rewrite Hu.
  unfold mbind, M_bind, getApiKeyM, getLastPromptM.
  cbn -[getApiKey getLastPrompt sanitize scanText]. rewrite Hk.
  cbn [sessions].
  destruct (getLastPrompt store uid) as [[|x p]|]; reflexivity.
Qed.

End PromptFacts.

(** X16.  [scan:] sets the prompt that [text:] uses.  For a user with a
    credential, a correct cipher and a 16-byte IV: [handleScanMessage]
    stores the sanitized prompt whether or not content follows and
    whatever the backend answers; without content it answers with the
    one confirmation.  A later [handleTextScanMessage] of the same user
    then scans its sanitized content under that prompt and the same
    credential.  When the prompt sanitizes to the empty string (it held
    only angle brackets and white space) the confirmation is still sent,
    and the later [text:] is refused for want of a prompt. *)
Theorem scan_then_text (C : Cipher) (HC : CipherCorrect C) (env env' : Env)
    (ctx ctx' : Ctx) (store : gmap Z UserSession) (files : gmap Z PendingFile)
    (uid : Z) (k p content : list Z) :
  userIdOf ctx = Some uid -> userIdOf ctx' = Some uid ->
  getApiKey store uid = Some k -> k <> [] ->
  length (randomBytes16 env) = 16%nat -> Forall is_byte (randomBytes16 env) ->
  (forall body,
     getLastPrompt (sessions (run (handleScanMessage env ctx p body) store files)) uid
     = Some (sanitize p))
  /\ sent (run (handleScanMessage env ctx p None) store files)
     = [Reply (PromptSet (sanitize p)) None]
  /\ sent (run (handleTextScanMessage env' ctx' content)
             (sessions (run (handleScanMessage env ctx p None) store files))
             (pendingFiles (run (handleScanMessage env ctx p None) store files)))
     = match sanitize p with
       | [] => [Reply NoPromptSet None]
       | _ =>
           [ChatAction typing;
            Call (PostScanText k (sanitize p) (sanitize content));
            Reply (formatScanResult
                     (scanText (backend env') k (sanitize p) (sanitize content)))
                  (Some (scanKeyboard
                     (scanText (backend env') k (sanitize p) (sanitize content))))]
       end.
Proof.
  intros Hu Hu' Hk Hne Hl Hb.
  pose proof (getApiKey_setLastPrompt HC (randomBytes16 env) store uid (sanitize p)
                Hl Hb) as Hkey.
  pose proof (getLastPrompt_setLastPrompt (randomBytes16 env) store uid (sanitize p))
    as Hprompt.
  split; [|split].
  - intros body. rewrite (handleScanMessage_run env ctx store files uid k p body Hu Hk Hne).
    destruct body as [[|x b]|]; exact Hprompt.
  - rewrite (handleScanMessage_run env ctx store files uid k p None Hu Hk Hne). reflexivity.
  - rewrite (handleScanMessage_run env ctx store files uid k p None Hu Hk Hne).
    cbn [sessions pendingFiles].
    rewrite (handleTextScanMessage_run env' ctx' _ files uid k content Hu')
      by (try exact Hne; rewrite Hkey; exact Hk).
    rewrite Hprompt. destruct (sanitize p); reflexivity.
Qed.

Lemma scan_then_text_witness :
  sent (run (handleTextScanMessage (C := ToyCipher.toyCipher)
               (Scenario.envWith Scenario.emptyOk Scenario.february)
               (Scenario.textFrom Scenario.user (str "text: Acme called"))
               (str "Acme called"))
          (sessions (run (handleScanMessage (C := ToyCipher.toyCipher)
                            (Scenario.envWith Scenario.emptyOk Scenario.january)
                            (Scenario.textFrom Scenario.user (str "scan: <leads>"))
                            (str "<leads>") None)
                         Scenario.linked ∅))
          ∅)
  = [ChatAction typing;
     Call (PostScanText Scenario.key (str "leads") (str "Acme called"));
     Reply (formatScanResult (mkScanResult true None None None)) (Some errorHelpKeyboard)].
Proof.
  destruct (scan_then_text ToyCipher.toyCipher toyCipher_correct
              (Scenario.envWith Scenario.emptyOk Scenario.january)
              (Scenario.envWith Scenario.emptyOk Scenario.february)
              (Scenario.textFrom Scenario.user (str "scan: <leads>"))
              (Scenario.textFrom Scenario.user (str "text: Acme called"))
              Scenario.linked ∅ Scenario.user Scenario.key (str "<leads>")
              (str "Acme called") eq_refl eq_refl
              ltac:(vm_compute; reflexivity) ltac:(discriminate) eq_refl
              ltac:(bytes)) as (_ & _ & H).
  vm_compute in H. vm_compute. exact H.
Defined.

Section CaptionFacts.
Context {C : Cipher}.

Lemma uploadPrompt_caption env ctx uid cap w :
  message_caption ctx = Some cap -> trim cap <> [] -> isFileCaption (trim cap) = true ->
  uploadPrompt env ctx uid w
  = (Some (sanitize (trim cap)),
     mkWorld (setLastPrompt (randomBytes16 env) (sessions w) uid (sanitize (trim cap)))
             (pendingFiles w) (sent w)).
Proof.
  intros Hc Hne Hf. unfold uploadPrompt. rewrite Hc. cbn [fmap option_fmap option_map].
  destruct (trim cap) as [|c r] eqn:E; [contradiction|].
  rewrite Hf. reflexivity.
Qed.

Lemma handleDocument_caption env ctx store files uid k doc cap :
  userIdOf ctx = Some uid -> getApiKey store uid = Some k -> k <> [] ->
  message_document ctx = Some doc -> tooLarge (file_size doc) = false ->
  message_caption ctx = Some cap -> trim cap <> [] -> isFileCaption (trim cap) = true ->
  run (handleDocument env ctx) store files
  = mkWorld (setLastPrompt (randomBytes16 env) store uid (sanitize (trim cap))) files
      match sanitize (trim cap) with
      | [] => [Reply CaptionNeededForFile None]
      | _ =>
          [ChatAction upload_document; Download]
          ++ match downloadDocument env with
             | Returned bytes =>
                 [Call (PostScanFile k (sanitize (trim cap)) (Downloaded bytes)
                          (orElse (file_name doc) (str "document"))
                          (orElse (mime_type doc) (str "application/octet-stream"))
                          None);
                  Reply (formatScanResult
                           (scanFile (backend env) k (sanitize (trim cap))
                              (Downloaded bytes)
                              (orElse (file_name doc) (str "document"))
                              (orElse (mime_type doc) (str "application/octet-stream"))
                              None))
                        (Some (scanKeyboard
                           (scanFile (backend env) k (sanitize (trim cap))
                              (Downloaded bytes)
                              (orElse (file_name doc) (str "document"))
                              (orElse (mime_type doc) (str "application/octet-stream"))
                              None)))]
             | Threw e => [Reply (FailedToProcessFile (errorMessage e)) None]
             end
      end.
Proof.
  intros Hu Hk Hne Hd Hs Hc Hcn Hf. destruct k as [|c k]; [contradiction|].
  unfold run, handleDocument. rewrite Hd, Hu.
  unfold mbind, M_bind, getApiKeyM.
  cbn -[getApiKey uploadPrompt scanFile sanitize trim]. rewrite Hk, Hs.
  rewrite (uploadPrompt_caption env ctx uid cap _ Hc Hcn Hf).
  cbn -[getApiKey scanFile sanitize trim setLastPrompt].
  destruct (sanitize (trim cap)) as [|x p]; [reflexivity|].
  cbn -[getApiKey scanFile setLastPrompt].
  destruct (downloadDocument env); reflexivity.
Qed.

Lemma handlePhoto_caption env ctx store files uid k p0 ps cap :
  userIdOf ctx = Some uid -> getApiKey store uid = Some k -> k <> [] ->
  message_photo ctx = Some (p0 :: ps) ->
  tooLarge (photo_file_size (List.last (p0 :: ps) p0)) = false ->
  message_caption ctx = Some cap -> trim cap <> [] -> isFileCaption (trim cap) = true ->
  sessions (run (handlePhoto env ctx) store files)
  = setLastPrompt (randomBytes16 env) store uid (sanitize (trim cap))
  /\ (sanitize (trim cap) = [] ->
      sent (run (handlePhoto env ctx) store files) = [Reply CaptionNeededForPhoto None]).
Proof.
  intros Hu Hk Hne Hd Hs Hc Hcn Hf. destruct k as [|c k]; [contradiction|].
  unfold run, handlePhoto. rewrite Hd, Hu.
  unfold mbind, M_bind, getApiKeyM.
  cbn -[getApiKey uploadPrompt scanFile sanitize trim List.last str]. rewrite Hk, Hs.
  rewrite (uploadPrompt_caption env ctx uid cap _ Hc Hcn Hf).
  cbn -[getApiKey scanFile sanitize trim setLastPrompt List.last str].
  destruct (sanitize (trim cap)) as [|x p]; [split; reflexivity|].
  split; [|discriminate].
  cbn -[getApiKey scanFile setLastPrompt List.last str].
  destruct (downloadPhoto env _); reflexivity.
Qed.

End CaptionFacts.

(** X17.  The caption of an upload.  For a user with a credential and
    an upload within the size limit whose caption, trimmed, is accepted
    by [isFileCaption]: the sanitized caption is stored as the
    remembered prompt before anything else is checked.  When it is not
    empty the file is scanned under it.  When it is empty (a caption of
    angle brackets only) the upload is refused for want of a caption,
    and the prompt remembered before is lost: it now reads as the empty
    string.  The same holds for a photo. *)
Theorem caption_becomes_prompt (C : Cipher) (env : Env) (ctx : Ctx)
    (store : gmap Z UserSession) (files : gmap Z PendingFile)
    (uid : Z) (k cap : list Z) :
  userIdOf ctx = Some uid -> getApiKey store uid = Some k -> k <> [] ->
  message_caption ctx = Some cap -> trim cap <> [] -> isFileCaption (trim cap) = true ->
  (forall doc,
     message_document ctx = Some doc -> tooLarge (file_size doc) = false ->
     getLastPrompt (sessions (run (handleDocument env ctx) store files)) uid
     = Some (sanitize (trim cap))
     /\ (sanitize (trim cap) = [] ->
         sent (run (handleDocument env ctx) store files)
         = [Reply CaptionNeededForFile None])
     /\ (sanitize (trim cap) <> [] ->
         forall bytes, downloadDocument env = Returned bytes ->
         sent (run (handleDocument env ctx) store files)
         = [ChatAction upload_document; Download;
            Call (PostScanFile k (sanitize (trim cap)) (Downloaded bytes)
                    (orElse (file_name doc) (str "document"))
                    (orElse (mime_type doc) (str "application/octet-stream")) None);
            Reply (formatScanResult
                     (scanFile (backend env) k (sanitize (trim cap)) (Downloaded bytes)
                        (orElse (file_name doc) (str "document"))
                        (orElse (mime_type doc) (str "application/octet-stream")) None))
                  (Some (scanKeyboard
                     (scanFile (backend env) k (sanitize (trim cap)) (Downloaded bytes)
                        (orElse (file_name doc) (str "document"))
                        (orElse (mime_type doc) (str "application/octet-stream"))
                        None)))]))
  /\ (forall p0 ps,
        message_photo ctx = Some (p0 :: ps) ->
        tooLarge (photo_file_size (List.last (p0 :: ps) p0)) = false ->
        getLastPrompt (sessions (run (handlePhoto env ctx) store files)) uid
        = Some (sanitize (trim cap))
        /\ (sanitize (trim cap) = [] ->
            sent (run (handlePhoto env ctx) store files)
            = [Reply CaptionNeededForPhoto None])).
Proof.
  intros Hu Hk Hne Hc Hcn Hf.
  pose proof (getLastPrompt_setLastPrompt (randomBytes16 env) store uid) as Hp.
  split.
  - intros doc Hd Hs.
    rewrite (handleDocument_caption env ctx store files uid k doc cap
               Hu Hk Hne Hd Hs Hc Hcn Hf).
    cbn [sessions sent]. split; [apply Hp|]. split.
    + intros ->. reflexivity.
    + intros Hn bytes Hb. rewrite Hb.
      destruct (sanitize (trim cap)); [contradiction | reflexivity].
  - intros p0 ps Hd Hs.
    destruct (handlePhoto_caption env ctx store files uid k p0 ps cap
                Hu Hk Hne Hd Hs Hc Hcn Hf) as [H1 H2].
    rewrite H1. split; [apply Hp | exact H2].
Qed.

Lemma caption_becomes_prompt_witness :
  getLastPrompt (C := ToyCipher.toyCipher)
    (setLastPrompt (C := ToyCipher.toyCipher) Scenario.iv0 Scenario.linked
       Scenario.user (str "leads"))
    Scenario.user
  = Some (str "leads")
  /\ isFileCaption (trim (str " <> ")) = true
  /\ getLastPrompt (C := ToyCipher.toyCipher)
       (sessions
          (run (handleDocument (C := ToyCipher.toyCipher)
                  (Scenario.envWith Scenario.emptyOk Scenario.january)
                  (Scenario.documentFrom Scenario.user (Some (str " <> "))
                     (mkDocument (Some 1024) (Some (str "a.pdf")) None)))
               (setLastPrompt (C := ToyCipher.toyCipher) Scenario.iv0 Scenario.linked
                  Scenario.user (str "leads"))
               ∅))
       Scenario.user
     = Some []
  /\ sent (run (handleDocument (C := ToyCipher.toyCipher)
                  (Scenario.envWith Scenario.emptyOk Scenario.january)
                  (Scenario.documentFrom Scenario.user (Some (str " <> "))
                     (mkDocument (Some 1024) (Some (str "a.pdf")) None)))
               (setLastPrompt (C := ToyCipher.toyCipher) Scenario.iv0 Scenario.linked
                  Scenario.user (str "leads"))
               ∅)
     = [Reply CaptionNeededForFile None].
Proof.
  split; [vm_compute; reflexivity|]. split; [reflexivity|].
  destruct (proj1 (caption_becomes_prompt ToyCipher.toyCipher
              (Scenario.envWith Scenario.emptyOk Scenario.january)
              (Scenario.documentFrom Scenario.user (Some (str " <> "))
                 (mkDocument (Some 1024) (Some (str "a.pdf")) None))
              (setLastPrompt (C := ToyCipher.toyCipher) Scenario.iv0 Scenario.linked
                 Scenario.user (str "leads"))
              ∅ Scenario.user Scenario.key (str " <> ") eq_refl
              ltac:(vm_compute; reflexivity) ltac:(discriminate) eq_refl
              ltac:(vm_compute; discriminate) eq_refl)
             (mkDocument (Some 1024) (Some (str "a.pdf")) None) eq_refl eq_refl)
    as (H1 & H2 & _).
  split; [exact H1 | apply H2; reflexivity].
Defined.

(* ===================================================================== *)
(** * From a text message to the backend *)
(* ===================================================================== *)

Section RoutingFacts.
Context {C : Cipher}.

Lemma not_keyShaped_by_head t c r a :
  t = c :: r -> asciiLower c = a -> a <> 101 -> keyShaped t = false.
Proof.
  intros -> Hc Ha. unfold keyShaped.
  change (str "ep_") with (101 :: str "p_"). cbn [startsWith].
  destruct (101 =? c) eqn:E; [|reflexivity].
  exfalso. apply Ha. rewrite <- Hc. apply Z.eqb_eq in E. subst c. reflexivity.
Qed.

Lemma handleTextMessage_parsed env ctx uid text parsed w :
  message_text ctx = Some text -> text <> [] -> userIdOf ctx = Some uid ->
  keyShaped (trim text) = false -> parseMessage text = Some parsed ->
  handleTextMessage env ctx w
  = match type parsed with
    | TList => handleListMessage env ctx
    | TScan => handleScanMessage env ctx (bang (prompt parsed)) (content parsed)
    | TText => handleTextScanMessage env ctx (bang (content parsed))
    | TGet => handleGetMessage env ctx (bang (path parsed))
    | TFile => handleFileGetMessage ctx (bang (path parsed))
    | TUnknown => handleUnknownMessage ctx
    end w.
Proof.
  intros Ht Hne Hu Hk Hp. destruct text as [|t ext]; [contradiction|].
  unfold handleTextMessage. rewrite Ht, Hu, bind_run.
  rewrite (handleApiKeyInput_passes env ctx _ w Hk). cbn [fst snd]. rewrite Hp.
  reflexivity.
Qed.

Lemma handleGetMessage_run env ctx store files uid k p :
  userIdOf ctx = Some uid -> getApiKey store uid = Some k -> k <> [] ->
  startsWith (str "/") p = true ->
  run (handleGetMessage env ctx p) store files
  = mkWorld store files
      [ChatAction typing;
       Call (GetEndpoint k (str "/api/endpoints" ++ p));
       Reply (formatEndpointData (getEndpoint (backend env) k p))
             (Some (if dSuccess (getEndpoint (backend env) k p)
                    then endpointDetailKeyboard p else errorHelpKeyboard))].
Proof.
  intros Hu Hk Hne Hs. destruct k as [|c k]; [contradiction|].
  unfold run, handleGetMessage. rewrite Hu.
  unfold mbind, M_bind, getApiKeyM, getEndpointM.
  cbn -[getApiKey getEndpoint startsWith str]. rewrite Hk.
  cbn -[getApiKey getEndpoint startsWith str]. rewrite Hs. reflexivity.
Qed.

Lemma handleFileGetMessage_run ctx store files uid k p :
  userIdOf ctx = Some uid -> getApiKey store uid = Some k -> k <> [] ->
  run (handleFileGetMessage ctx p) store files
  = mkWorld store files [Reply (FileComingSoon p) None].
Proof.
  intros Hu Hk Hne. destruct k as [|c k]; [contradiction|].
  unfold run, handleFileGetMessage. rewrite Hu.
  unfold mbind, M_bind, getApiKeyM. cbn -[getApiKey]. rewrite Hk. reflexivity.
Qed.

End RoutingFacts.

(** X18.  From [get:] and [file:] to the backend.  For a user with a
    credential and a text whose trimmed form starts with ["get:"],
    followed by at least one unit: [handleTextMessage] sends the backend
    exactly one request, for ["/api/endpoints"] followed by the parsed
    path, which starts with a slash, so that no slash is doubled or
    missing; it replies once and writes nothing.  A text that starts
    with ["file:"] is answered with the web address of the parsed path
    and the backend is not contacted. *)
Theorem path_messages_routed (C : Cipher) (env : Env) (ctx : Ctx)
    (store : gmap Z UserSession) (files : gmap Z PendingFile)
    (uid : Z) (k text : list Z) :
  userIdOf ctx = Some uid -> getApiKey store uid = Some k -> k <> [] ->
  message_text ctx = Some text ->
  (hasPrefix (str "get:") (trim text) -> drop 4 (trim text) <> [] ->
   exists p,
     p = ensureSlash (trim (dotRun (trimStart (drop 4 (trim text)))))
     /\ run (handleTextMessage env ctx) store files
        = mkWorld store files
            [ChatAction typing;
             Call (GetEndpoint k (str "/api/endpoints" ++ p));
             Reply (formatEndpointData (getEndpoint (backend env) k p))
                   (Some (if dSuccess (getEndpoint (backend env) k p)
                          then endpointDetailKeyboard p else errorHelpKeyboard))])
  /\ (hasPrefix (str "file:") (trim text) -> drop 5 (trim text) <> [] ->
      run (handleTextMessage env ctx) store files
      = mkWorld store files
          [Reply (FileComingSoon
                    (ensureSlash (trim (dotRun (trimStart (drop 5 (trim text)))))))
                 None]).
Proof.
  intros Hu Hk Hne Ht. split; intros Hp Hr.
  - destruct (hasPrefix_head 103 (str "et:") _ Hp) as (c & r & Hc & Ha).
    assert (Hn : text <> []).
    { intros ->. discriminate Hc. }
    pose proof (path_rule_parsed text (str "get:") TGet
                  (or_introl (conj eq_refl eq_refl)) Hp Hr) as Hparse.
    eexists. split; [reflexivity|].
    unfold run.
    rewrite (handleTextMessage_parsed env ctx uid text _ _ Ht Hn Hu
               (not_keyShaped_by_head _ _ _ 103 Hc Ha ltac:(lia)) Hparse).
    cbn [type path bang default].
    apply (handleGetMessage_run env ctx store files uid k _ Hu Hk Hne).
    apply ensureSlash_head.
  - destruct (hasPrefix_head 102 (str "ile:") _ Hp) as (c & r & Hc & Ha).
    assert (Hn : text <> []).
    { intros ->. discriminate Hc. }
    pose proof (path_rule_parsed text (str "file:") TFile
                  (or_intror (conj eq_refl eq_refl)) Hp Hr) as Hparse.
    unfold run.
    rewrite (handleTextMessage_parsed env ctx uid text _ _ Ht Hn Hu
               (not_keyShaped_by_head _ _ _ 102 Hc Ha ltac:(lia)) Hparse).
    cbn [type path bang default].
    apply (handleFileGetMessage_run ctx store files uid k _ Hu Hk Hne).
Qed.

Lemma path_messages_routed_witness :
  run (handleTextMessage (C := ToyCipher.toyCipher)
         (Scenario.envWith (Scenario.failing Scenario.timeout) Scenario.january)
         (Scenario.textFrom Scenario.user (str "GET: leads/acme ")))
      Scenario.linked ∅
  = mkWorld Scenario.linked ∅
      [ChatAction typing;
       Call (GetEndpoint Scenario.key (str "/api/endpoints/leads/acme"));
       Reply (formatEndpointData (dataFailure Scenario.timeout)) (Some errorHelpKeyboard)].
Proof.
  destruct (proj1 (path_messages_routed ToyCipher.toyCipher
              (Scenario.envWith (Scenario.failing Scenario.timeout) Scenario.january)
              (Scenario.textFrom Scenario.user (str "GET: leads/acme "))
              Scenario.linked ∅ Scenario.user Scenario.key (str "GET: leads/acme ")
              eq_refl ltac:(vm_compute; reflexivity) ltac:(discriminate) eq_refl)
             eq_refl ltac:(vm_compute; discriminate)) as (p & -> & H).
  rewrite H. reflexivity.
Defined.
